(** * TalkTime: the normalisation and aggregation pipeline of the call-log
      dashboard (app_talktime.py, app_talktime_v2.py, app_talktime_v3.py,
      app_talktime_v3_6.py), embedded in Rocq.

    The Python functions are written as Rocq functions over a model of the
    values they receive: text as lists of ASCII characters, floats as IEEE
    binary64 values ([spec_float] with 53 bits of precision), a DataFrame as
    a list of column names and a list of rows. *)

From Stdlib Require Import ZArith NArith List Bool Ascii String Lia.
From Stdlib Require Import Sorting.Permutation Sorting.Sorted.
From Stdlib Require Import Floats.SpecFloat.
Import ListNotations.

Local Open Scope Z_scope.

(** ** Python text *)

Module Py.

(** A Python [str], restricted to ASCII text. *)
Definition str := list ascii.

Definition lit (s : string) : str := list_ascii_of_string s.

Definition ord (c : ascii) : N := N_of_ascii c.

Definition chr_eqb (a b : ascii) : bool := Ascii.eqb a b.

Fixpoint str_eqb (a b : str) : bool :=
  match a, b with
  | [], [] => true
  | x :: a', y :: b' => chr_eqb x y && str_eqb a' b'
  | _, _ => false
  end.

(** [ch.isspace()]: TAB..CR, FS..US and the blank. *)
Definition isspace (c : ascii) : bool :=
  let n := ord c in
  (((9 <=? n) && (n <=? 13)) || ((28 <=? n) && (n <=? 32)))%N.

Definition isdigit (c : ascii) : bool :=
  let n := ord c in ((48 <=? n) && (n <=? 57))%N.

Definition isupper (c : ascii) : bool :=
  let n := ord c in ((65 <=? n) && (n <=? 90))%N.

Definition islower (c : ascii) : bool :=
  let n := ord c in ((97 <=? n) && (n <=? 122))%N.

(** [ch.isalnum()] *)
Definition isalnum (c : ascii) : bool := isdigit c || isupper c || islower c.

Definition lower_chr (c : ascii) : ascii :=
  if isupper c then ascii_of_N (ord c + 32) else c.

(** [s.lower()] *)
Definition lower (s : str) : str := map lower_chr s.

Fixpoint lstrip (s : str) : str :=
  match s with
  | c :: r => if isspace c then lstrip r else s
  | [] => []
  end.

Definition rstrip (s : str) : str := rev (lstrip (rev s)).

(** [s.strip()] *)
Definition strip (s : str) : str := rstrip (lstrip s).

(** The same trimming for another class of blanks: [float] skips blanks
    of its own at the two ends of its argument. *)
Fixpoint lstrip_of (blank : ascii -> bool) (s : str) : str :=
  match s with
  | c :: r => if blank c then lstrip_of blank r else s
  | [] => []
  end.

Definition rstrip_of (blank : ascii -> bool) (s : str) : str :=
  rev (lstrip_of blank (rev s)).

Definition strip_of (blank : ascii -> bool) (s : str) : str :=
  rstrip_of blank (lstrip_of blank s).

(** [s.split(sep)] for a one-character separator: always at least one
    part, empty parts are kept. *)
Fixpoint split_on (sep : ascii) (s : str) : list str :=
  match s with
  | [] => [[]]
  | c :: r =>
      if chr_eqb c sep then [] :: split_on sep r
      else match split_on sep r with
           | p :: ps => (c :: p) :: ps
           | [] => [[c]]
           end
  end.

(** [f] applied to the first part, and to the last part. *)
Definition map_head (f : str -> str) (l : list str) : list str :=
  match l with [] => [] | p :: ps => f p :: ps end.

Fixpoint map_last (f : str -> str) (l : list str) : list str :=
  match l with
  | [] => []
  | [p] => [f p]
  | p :: ps => p :: map_last f ps
  end.

(** [s.split()]: the maximal runs of non-blank characters. [cur] is the
    run being read, most recent character first. *)
Fixpoint split_go (cur : str) (s : str) : list str :=
  match s with
  | [] => match cur with [] => [] | _ => [rev cur] end
  | c :: r =>
      if isspace c
      then match cur with
           | [] => split_go [] r
           | _ => rev cur :: split_go [] r
           end
      else split_go (c :: cur) r
  end.

Definition split (s : str) : list str := split_go [] s.

(** [sep.join(parts)] *)
Fixpoint join (sep : str) (parts : list str) : str :=
  match parts with
  | [] => []
  | [p] => p
  | p :: ps => p ++ sep ++ join sep ps
  end.

Fixpoint startswith (p s : str) : bool :=
  match p, s with
  | [], _ => true
  | x :: p', y :: s' => chr_eqb x y && startswith p' s'
  | _ :: _, [] => false
  end.

(** [sub in s] on two strings: [sub] occurs in [s] as a contiguous run. *)
Fixpoint contains (sub s : str) : bool :=
  startswith sub s ||
  match s with
  | [] => false
  | _ :: r => contains sub r
  end.

(** [x in xs] on a list of strings. *)
Definition mem (x : str) (xs : list str) : bool := existsb (str_eqb x) xs.

End Py.

(** ** Python floats *)

Module PyFloat.
Import Py.

Definition prec : Z := 53.
Definition emax : Z := 1024.

Definition float := spec_float.

Definition nan : float := S754_nan.
Definition of_Z (z : Z) : float := binary_normalize prec emax z 0 false.
Definition mul (a b : float) : float := SFmul prec emax a b.
Definition add (a b : float) : float := SFadd prec emax a b.
Definition div (a b : float) : float := SFdiv prec emax a b.
Definition leb (a b : float) : bool := SFleb a b.
Definition ltb (a b : float) : bool := SFltb a b.
Definition eqb (a b : float) : bool := SFeqb a b.
(** [a >= b] *)
Definition geb (a b : float) : bool := SFleb b a.

Definition isnan (f : float) : bool :=
  match f with S754_nan => true | _ => false end.

(** The value of the decimal numeral [m * 10^e], with sign [neg], rounded
    to the nearest binary64 (ties to even). *)
Definition of_decimal (neg : bool) (m : Z) (e : Z) : float :=
  match m with
  | Zpos p =>
      if 0 <=? e
      then binary_round prec emax neg (p * Z.to_pos (10 ^ e)) 0
      else SFdiv prec emax (S754_finite neg p 0)
                           (S754_finite false (Z.to_pos (10 ^ (- e))) 0)
  | _ => S754_zero neg
  end.

Definition digit_val (c : ascii) : Z := Z.of_N (ord c) - 48.

Definition digits_val (ds : str) : Z :=
  fold_left (fun acc d => 10 * acc + digit_val d) ds 0.

Fixpoint take_digits (s : str) : str * str :=
  match s with
  | c :: r =>
      if isdigit c then let (ds, rest) := take_digits r in (c :: ds, rest)
      else ([], s)
  | [] => ([], [])
  end.

Definition take_sign (s : str) : bool * str :=
  match s with
  | c :: r =>
      if chr_eqb c "-" then (true, r)
      else if chr_eqb c "+" then (false, r)
      else (false, s)
  | [] => (false, [])
  end.

Definition is_e (c : ascii) : bool := chr_eqb c "e" || chr_eqb c "E".

(** A decimal numeral: digits with an optional point and an optional
    exponent, at least one digit in the mantissa, the whole text used. *)
Definition parse_number (s : str) : option float :=
  let (neg, s1) := take_sign s in
  let (ip, s2) := take_digits s1 in
  let (fp, s3) :=
    match s2 with
    | c :: r => if chr_eqb c "." then take_digits r else ([], s2)
    | [] => ([], s2)
    end in
  match ip ++ fp with
  | [] => None
  | ds =>
      let m := digits_val ds in
      let k := Z.of_nat (List.length fp) in
      match s3 with
      | [] => Some (of_decimal neg m (- k))
      | c :: r =>
          if is_e c then
            let (eneg, r1) := take_sign r in
            let (ed, r2) := take_digits r1 in
            match ed, r2 with
            | _ :: _, [] =>
                let x := digits_val ed in
                Some (of_decimal neg m ((if eneg then - x else x) - k))
            | _, _ => None
            end
          else None
      end
  end.

(** [inf], [infinity] and [nan], in any case, with an optional sign. *)
Definition parse_inf_or_nan (s : str) : option float :=
  let (neg, s1) := take_sign s in
  let w := lower s1 in
  if str_eqb w (lit "inf") || str_eqb w (lit "infinity")
  then Some (S754_infinity neg)
  else if str_eqb w (lit "nan") then Some S754_nan
  else None.

(** Underscores may only stand between two digits. *)
Fixpoint underscores_ok (prev : ascii) (s : str) : bool :=
  match s with
  | [] => negb (chr_eqb prev "_")
  | c :: r =>
      (if chr_eqb c "_" then isdigit prev
       else if chr_eqb prev "_" then isdigit c else true)
      && underscores_ok c r
  end.

Definition drop_underscores (s : str) : str :=
  filter (fun c => negb (chr_eqb c "_")) s.

(** The blanks that [float] skips at the two ends of its argument: TAB to
    CR and the space. The separators 0x1c to 0x1f, which [str.strip]
    removes, are not among them: [float("\x1f30")] raises. *)
Definition is_blank (c : ascii) : bool :=
  let n := ord c in (((9 <=? n) && (n <=? 13)) || (n =? 32))%N.

Definition trim (s : str) : str := strip_of is_blank s.

(** [float(s)] on text; [None] stands for [ValueError]. *)
Definition of_str (s : str) : option float :=
  let t := trim s in
  if underscores_ok "000" t then
    let u := drop_underscores t in
    match parse_number u with
    | Some f => Some f
    | None => parse_inf_or_nan u
    end
  else None.

End PyFloat.

(** ** Cell values *)

(** What a cell of the uploaded table can hold once pandas has read it:
    nothing ([None]/[NaN]), a Python [int], a [float], a [bool] or text. *)
Inductive PyVal :=
| VNone
| VInt (z : Z)
| VFloat (f : PyFloat.float)
| VBool (b : bool)
| VStr (s : Py.str).

(** [pd.isna(x)] on a scalar. *)
Definition isna (x : PyVal) : bool :=
  match x with
  | VNone => true
  | VFloat f => PyFloat.isnan f
  | _ => false
  end.

(** What a call of the duration parser does: it returns a float, or the
    conversion [float(x)] of an [int] overflows and raises. *)
Inductive outcome :=
| Ret (f : PyFloat.float)
| OverflowError.

(** [float(x)] on a Python [int]. *)
Definition float_of_int (z : Z) : outcome :=
  match PyFloat.of_Z z with
  | S754_infinity _ => OverflowError
  | f => Ret f
  end.

(** ** DurationParser *)

Module Duration.
Import Py PyFloat.

(** [[float(p) for p in parts]]: [None] when some part raises. *)
Fixpoint floats_of (parts : list str) : option (list float) :=
  match parts with
  | [] => Some []
  | p :: ps =>
      match of_str p with
      | None => None
      | Some f =>
          match floats_of ps with
          | None => None
          | Some fs => Some (f :: fs)
          end
      end
  end.

(** The text branch shared by the two copies of the parser; [x] has
    already been turned into text by [str(x)]. *)
Definition text_to_seconds (x : str) : float :=
  let s := strip x in
  match of_str s with
  | Some f => f
  | None =>
      let parts := split_on ":" s in
      match floats_of parts with
      | None => nan
      | Some [m; s] => add (mul m (of_Z 60)) s
      | Some [h; m; s] => add (add (mul h (of_Z 3600)) (mul m (of_Z 60))) s
      | Some _ => nan
      end
  end.

(** [str(x)] for the values that reach the text branch. *)
Definition py_str (x : PyVal) : str :=
  match x with
  | VBool true => lit "True"
  | VBool false => lit "False"
  | VStr s => s
  | _ => []
  end.

(** app_talktime_v3_6.py, [to_seconds] (the same text in v2 and v3). *)
Definition to_seconds (x : PyVal) : outcome :=
  if isna x then Ret nan
  else match x with
       | VInt z => float_of_int z
       | VFloat f => Ret f
       | _ => Ret (text_to_seconds (py_str x))
       end.

(** app_talktime.py, [_parse_duration_to_seconds]. *)
Definition _parse_duration_to_seconds (x : PyVal) : outcome :=
  if isna x then Ret nan
  else match x with
       | VInt z => float_of_int z
       | VFloat f => Ret f
       | _ =>
           let s := strip (py_str x) in
           match of_str s with
           | Some f => Ret f
           | None =>
               let parts := split_on ":" s in
               match floats_of parts with
               | None => Ret nan
               | Some [mm; ss] => Ret (add (mul mm (of_Z 60)) ss)
               | Some [hh; mm; ss] =>
                   Ret (add (add (mul hh (of_Z 3600)) (mul mm (of_Z 60))) ss)
               | Some _ => Ret nan
               end
           end
       end.

End Duration.

(** ** difflib.SequenceMatcher

    [fuzzy_match_any] calls [SequenceMatcher(None, n, t).ratio()]: no junk
    predicate, the automatic junk heuristic left on. *)

Module Difflib.
Import Py PyFloat.

Definition len (s : str) : Z := Z.of_nat (List.length s).

(** [s[i]] for an index inside the string. *)
Definition at_ (s : str) (i : Z) : ascii := nth (Z.to_nat i) s "000"%char.

(** The increasing positions of [c] in [s], counted from [j]. *)
Fixpoint indices_from (c : ascii) (s : str) (j : Z) : list Z :=
  match s with
  | [] => []
  | x :: r =>
      if chr_eqb x c then j :: indices_from c r (j + 1)
      else indices_from c r (j + 1)
  end.

(** The dict [j2len] of [find_longest_match]. *)
Definition dict := list (Z * Z).

Fixpoint dict_get (d : dict) (j : Z) (default : Z) : Z :=
  match d with
  | [] => default
  | (k, v) :: r => if j =? k then v else dict_get r j default
  end.

Definition dict_set (d : dict) (j v : Z) : dict := (j, v) :: d.

(** A match [(i, j, k)]: [a[i:i+k] == b[j:j+k]]. *)
Definition Match := (Z * Z * Z)%type.

Definition size (m : Match) : Z := snd m.

Section SequenceMatcher.
Variables a b : str.

(** [__chain_b]: when [b] has 200 characters or more, a character that
    fills more than 1% of it (plus one) is popular and loses its entry. *)
Definition popular (c : ascii) : bool :=
  (200 <=? len b) &&
  (len b / 100 + 1 <? Z.of_nat (List.length (indices_from c b 0))).

(** [b2j.get(c, [])] *)
Definition b2j (c : ascii) : list Z :=
  if popular c then [] else indices_from c b 0.

(** The loop [for j in b2j.get(a[i], nothing)]. *)
Fixpoint scan_row (i blo bhi : Z) (js : list Z) (j2len newj2len : dict)
         (best : Match) : dict * Match :=
  match js with
  | [] => (newj2len, best)
  | j :: r =>
      if j <? blo then scan_row i blo bhi r j2len newj2len best
      else if bhi <=? j then (newj2len, best)
      else
        let k := dict_get j2len (j - 1) 0 + 1 in
        let newj2len' := dict_set newj2len j k in
        let best' := if size best <? k then (i - k + 1, j - k + 1, k)
                     else best in
        scan_row i blo bhi r j2len newj2len' best'
  end.

(** The loop [for i in range(alo, ahi)], [n] rows left from row [i]. *)
Fixpoint scan_rows (n : nat) (i blo bhi : Z) (j2len : dict) (best : Match)
  : Match :=
  match n with
  | O => best
  | S n' =>
      let (newj2len, best') :=
        scan_row i blo bhi (b2j (at_ a i)) j2len [] best in
      scan_rows n' (i + 1) blo bhi newj2len best'
  end.

(** [while besti > alo and bestj > blo and a[besti-1] == b[bestj-1]];
    the loop runs at most [besti - alo] times. *)
Fixpoint extend_left (n : nat) (alo blo : Z) (best : Match) : Match :=
  match n with
  | O => best
  | S n' =>
      let '(besti, bestj, bestsize) := best in
      if (alo <? besti) && (blo <? bestj)
         && chr_eqb (at_ a (besti - 1)) (at_ b (bestj - 1))
      then extend_left n' alo blo (besti - 1, bestj - 1, bestsize + 1)
      else best
  end.

(** [while besti+bestsize < ahi and bestj+bestsize < bhi and
    a[besti+bestsize] == b[bestj+bestsize]]; at most [ahi - besti -
    bestsize] rounds. *)
Fixpoint extend_right (n : nat) (ahi bhi : Z) (best : Match) : Match :=
  match n with
  | O => best
  | S n' =>
      let '(besti, bestj, bestsize) := best in
      if (besti + bestsize <? ahi) && (bestj + bestsize <? bhi)
         && chr_eqb (at_ a (besti + bestsize)) (at_ b (bestj + bestsize))
      then extend_right n' ahi bhi (besti, bestj, bestsize + 1)
      else best
  end.

(** [find_longest_match(alo, ahi, blo, bhi)]. The set of junk is empty, so
    the two loops that absorb junk never run. *)
Definition find_longest_match (alo ahi blo bhi : Z) : Match :=
  let best := scan_rows (Z.to_nat (ahi - alo)) alo blo bhi [] (alo, blo, 0) in
  let best1 := extend_left (Z.to_nat (fst (fst best) - alo)) alo blo best in
  let '(i1, _, k1) := best1 in
  extend_right (Z.to_nat (ahi - (i1 + k1))) ahi bhi best1.

(** The state of the loop of [get_matching_blocks]: the queue (its last
    element first) and the blocks found so far. *)
Definition state := (list (Z * Z * Z * Z) * list Match)%type.

(** One round of [while queue:]. *)
Definition step (st : state) : state :=
  match st with
  | ([], _) => st
  | ((alo, ahi, blo, bhi) :: queue, blocks) =>
      let '(i, j, k) := find_longest_match alo ahi blo bhi in
      if k =? 0 then (queue, blocks)
      else
        let q1 := if (alo <? i) && (blo <? j)
                  then (alo, i, blo, j) :: queue else queue in
        let q2 := if (i + k <? ahi) && (j + k <? bhi)
                  then (i + k, ahi, j + k, bhi) :: q1 else q1 in
        (q2, (i, j, k) :: blocks)
  end.

Fixpoint run (n : nat) (st : state) : state :=
  match n with
  | O => st
  | S n' => run n' (step st)
  end.

(** The blocks appended by [get_matching_blocks], before they are sorted
    and before the empty sentinel is added; [len a + 1] rounds empty the
    queue (lemma [run_empties_queue]). *)
Definition matching_blocks : list Match :=
  snd (run (S (List.length a)) ([(0, len a, 0, len b)], [])).

(** [sum(triple[-1] for triple in self.get_matching_blocks())] *)
Definition matches : Z :=
  fold_right (fun m acc => size m + acc) 0 matching_blocks.

(** [_calculate_ratio(matches, len(a) + len(b))] *)
Definition ratio : float :=
  let length := len a + len b in
  if length =? 0 then of_Z 1
  else div (mul (of_Z 2) (of_Z matches)) (of_Z length).

End SequenceMatcher.
(** *** Measures for the loops *)

(** A match that lies in [a[alo:hi]]. *)
Definition fits (alo hi : Z) (m : Match) : Prop :=
  let '(i, _, k) := m in alo <= i /\ 0 <= k /\ i + k <= hi.

(** Every length stored in the dict is between 0 and [m]. *)
Definition lengths_upto (d : dict) (m : Z) : Prop :=
  forall j, 0 <= dict_get d j 0 <= m.

(** The part of [a] still to be searched: the sum of the widths of the
    windows in the queue, each counted as one at least. *)
Definition weight (w : Z * Z * Z * Z) : nat :=
  let '(alo, ahi, _, _) := w in Z.to_nat (Z.max 1 (ahi - alo)).

Definition work (q : list (Z * Z * Z * Z)) : nat :=
  fold_right (fun w acc => (weight w + acc)%nat) O q.

Definition window_ok (w : Z * Z * Z * Z) : Prop :=
  let '(alo, ahi, _, _) := w in alo <= ahi.

End Difflib.

(** ** NameMatcher (app_talktime_v3_6.py) *)

Module Names.
Import Py PyFloat.

(** A cell of a text column: text, or [None] for a missing value (NaN). *)
Definition cell := option str.

Definition is_empty (s : str) : bool :=
  match s with [] => true | _ => false end.

(** The loop of [norm_name] that keeps letters and digits and turns every
    blank into a space. *)
Fixpoint keep_alnum_space (s : str) : str :=
  match s with
  | [] => []
  | ch :: r =>
      if isalnum ch then ch :: keep_alnum_space r
      else if isspace ch then " "%char :: keep_alnum_space r
      else keep_alnum_space r
  end.

Definition norm_name (s : cell) : str :=
  match s with
  | None => []
  | Some x =>
      let s1 := strip (lower x) in
      let s2 := keep_alnum_space s1 in
      join (lit " ") (split s2)
  end.

(** The literal [0.85]. *)
Definition ratio_cut : float := of_decimal false 85 (-2).

Fixpoint match_targets (n : str) (targets_norm : list str) : bool :=
  match targets_norm with
  | [] => false
  | t :: rest =>
      if is_empty t then match_targets n rest
      else if contains t n || contains n t then true
      else if existsb (fun tok => negb (is_empty tok) && contains tok n)
                      (split t) then true
      else if geb (Difflib.ratio n t) ratio_cut then true
      else match_targets n rest
  end.

Definition fuzzy_match_any (name : cell) (targets_norm : list str) : bool :=
  let n := norm_name name in
  if is_empty n then false else match_targets n targets_norm.

Definition B2C_TARGETS_RAW : list str :=
  map lit ["Kamaldeep singh"; "Ria Arora"; "ayushman jetlearn";
           "Shujaat Shafqat"; "Unmesh Kamble"; "Ziyaulhaq Badr"; "Visakha";
           "Jay Nayak"; "Ankush Kumar"; "Fuzail Saudagar";
           "Aniket Srivastava"; "Shahbaz Ali"; "Vikas Jha"]%string.

Definition MTTEAM_TARGETS_RAW : list str := map lit ["AYUSHMAN"]%string.

Definition B2C_TARGETS : list str :=
  map (fun x => norm_name (Some x)) B2C_TARGETS_RAW.

Definition MTTEAM_TARGETS : list str :=
  map (fun x => norm_name (Some x)) MTTEAM_TARGETS_RAW.

(** NameMatcher.is_member: the roster is normalised once, as the module
    does for [B2C_TARGETS], and the name is matched against it. *)
Definition is_member (raw_name : cell) (roster : list str) : bool :=
  fuzzy_match_any raw_name (map (fun x => norm_name (Some x)) roster).

End Names.

(** ** pandas: frames, boolean masks, group-by *)

Module Pandas.
Import Py PyFloat.
Export Names.

(** A calendar date, compared field by field. *)
Record Date := mkDate { year : Z; month : Z; day : Z }.

Definition date_leb (a b : Date) : bool :=
  (year a <? year b) ||
  ((year a =? year b) &&
   ((month a <? month b) || ((month a =? month b) && (day a <=? day b)))).

(** A row of the frame after "Load & Prepare": its text columns by name
    (text or NaN), and the derived columns. [_dt_local] is an instant, in
    seconds since the epoch; the reporting zone is at UTC+5:30. *)
Record Row := mkRow {
  cells : list (str * cell);
  _duration_sec : float;
  _date_only : option Date;
  _dt_local : option Z
}.

(** The hour of the day, in the reporting zone, of an instant. *)
Definition hour_of (t : Z) : Z := ((t + 19800) / 3600) mod 24.

(** [df["_hour"] = df["_dt_local"].dt.hour]: missing with the instant. *)
Definition _hour (r : Row) : option Z :=
  match _dt_local r with
  | Some t => Some (hour_of t)
  | None => None
  end.

Record Frame := mkFrame {
  columns : list str;
  rows : list Row
}.

(** [len(df)] *)
Definition nrows (df : Frame) : nat := List.length (rows df).

Fixpoint lookup (col : str) (cs : list (str * cell)) : cell :=
  match cs with
  | [] => None
  | (c, v) :: r => if str_eqb c col then v else lookup col r
  end.

(** The value of row [r] in the text column [col]. *)
Definition get (r : Row) (col : str) : cell := lookup col (cells r).

(** [col in frame.columns] *)
Definition has_column (df : Frame) (col : str) : bool := mem col (columns df).

(** [x.astype(str)] on a cell of a text column: NaN becomes ["nan"]. *)
Definition astype_str (x : cell) : str :=
  match x with
  | None => lit "nan"
  | Some s => s
  end.

(** [pd.isna] on a cell. *)
Definition cell_isna (x : cell) : bool :=
  match x with None => true | Some _ => false end.

(** Element-wise [|] and [&] of two boolean Series over the same index. *)
Fixpoint series_or (m1 m2 : list bool) : list bool :=
  match m1, m2 with
  | x :: r1, y :: r2 => (x || y) :: series_or r1 r2
  | _, _ => []
  end.

Fixpoint series_and (m1 m2 : list bool) : list bool :=
  match m1, m2 with
  | x :: r1, y :: r2 => (x && y) :: series_and r1 r2
  | _, _ => []
  end.

(** [frame[mask]]: the rows whose mask entry is [True], in order. *)
Fixpoint select {A : Type} (mask : list bool) (xs : list A) : list A :=
  match mask, xs with
  | m :: ms, x :: xs' => if m then x :: select ms xs' else select ms xs'
  | _, _ => []
  end.

Definition loc (df : Frame) (mask : list bool) : Frame :=
  mkFrame (columns df) (select mask (rows df)).

(** *** Ordering of group keys: text by code point, NaN last. *)

Fixpoint str_ltb (a b : str) : bool :=
  match a, b with
  | [], [] => false
  | [], _ :: _ => true
  | _ :: _, [] => false
  | x :: a', y :: b' =>
      if (ord x <? ord y)%N then true
      else if (ord y <? ord x)%N then false
      else str_ltb a' b'
  end.

Definition cell_eqb (x y : cell) : bool :=
  match x, y with
  | None, None => true
  | Some s, Some t => str_eqb s t
  | _, _ => false
  end.

Definition cell_ltb (x y : cell) : bool :=
  match x, y with
  | Some s, Some t => str_ltb s t
  | Some _, None => true
  | None, _ => false
  end.

(** A group key: the tuple of the values of the grouping columns. *)
Definition Key := list cell.

Fixpoint key_eqb (k1 k2 : Key) : bool :=
  match k1, k2 with
  | [], [] => true
  | x :: r1, y :: r2 => cell_eqb x y && key_eqb r1 r2
  | _, _ => false
  end.

Fixpoint key_ltb (k1 k2 : Key) : bool :=
  match k1, k2 with
  | [], [] => false
  | [], _ :: _ => true
  | _ :: _, [] => false
  | x :: r1, y :: r2 =>
      if cell_ltb x y then true
      else if cell_ltb y x then false
      else key_ltb r1 r2
  end.

(** A stable sort: [x] is put before the first element that does not come
    strictly before it. *)
Fixpoint insert_by {A : Type} (lt : A -> A -> bool) (x : A) (l : list A)
  : list A :=
  match l with
  | [] => [x]
  | y :: r => if lt y x then y :: insert_by lt x r else x :: y :: r
  end.

Definition sort_by {A : Type} (lt : A -> A -> bool) (l : list A) : list A :=
  fold_right (insert_by lt) [] l.

(** First occurrences, in order. *)
Fixpoint unique {A : Type} (eqb : A -> A -> bool) (l : list A) : list A :=
  match l with
  | [] => []
  | x :: r => x :: filter (fun y => negb (eqb x y)) (unique eqb r)
  end.

Definition key_of (dims : list str) (r : Row) : Key := map (get r) dims.

(** The keys of [df.groupby(dims, dropna=False)]: every distinct tuple
    present, in sorted order. *)
Definition group_keys (dims : list str) (rs : list Row) : list Key :=
  sort_by key_ltb (unique key_eqb (map (key_of dims) rs)).

(** The rows of one group, in frame order. *)
Definition group_rows (dims : list str) (rs : list Row) (k : Key) : list Row :=
  filter (fun r => key_eqb (key_of dims r) k) rs.

(** *** The four aggregates of a Series of floats; all of them skip NaN. *)

Definition dropna (vs : list float) : list float :=
  filter (fun v => negb (isnan v)) vs.

(** ["count"]: the number of values that are not NaN. *)
Definition agg_count (vs : list float) : Z :=
  Z.of_nat (List.length (dropna vs)).

(** ["sum"]: [0.0] for a group without values. The values are added from
    left to right; pandas compensates the rounding error of each step,
    which can change the last bits of a long sum and nothing else. *)
Definition agg_sum (vs : list float) : float :=
  fold_left add (dropna vs) (of_Z 0).

(** ["mean"]: NaN for a group without values. *)
Definition agg_mean (vs : list float) : float :=
  match dropna vs with
  | [] => nan
  | xs => div (fold_left add xs (of_Z 0)) (of_Z (Z.of_nat (List.length xs)))
  end.

(** ["median"]: the middle value, or the mean of the two middle values. *)
Definition agg_median (vs : list float) : float :=
  let xs := sort_by ltb (dropna vs) in
  let n := List.length xs in
  match n with
  | O => nan
  | _ =>
      if Nat.even n
      then div (add (nth (n / 2) xs nan) (nth (n / 2 - 1) xs nan)) (of_Z 2)
      else nth (n / 2) xs nan
  end.

(** The row has a duration. *)
Definition has_duration (r : Row) : bool := negb (isnan (_duration_sec r)).

(** The sum of [f] over a list. *)
Definition sumZ {K : Type} (f : K -> Z) (ks : list K) : Z :=
  fold_right (fun k acc => f k + acc) 0 ks.

(** The number of rows of group [k] that satisfy [P]. *)
Definition group_count (dims : list str) (P : Row -> bool) (rs : list Row)
           (k : Key) : Z :=
  Z.of_nat (List.length (filter P (group_rows dims rs k))).


(** [.size()]: the number of rows, missing values or not. *)
Definition agg_size (rs : list Row) : Z := Z.of_nat (List.length rs).

(** [df.dropna(subset=["_hour"])] *)
Definition dropna_hour (rs : list Row) : list Row :=
  filter (fun r => match _hour r with Some _ => true | None => false end) rs.

Definition hours_of (rs : list Row) : list Z :=
  flat_map (fun r => match _hour r with Some h => [h] | None => [] end) rs.


(** [groupby("_hour").size()] over the rows that have an hour: one pair
    (hour, attempts) per hour present, by increasing hour. *)
Definition size_by_hour (rs : list Row) : list (Z * Z) :=
  map (fun h => (h, agg_size
                      (filter (fun r => match _hour r with
                                        | Some h' => h' =? h
                                        | None => false
                                        end) (dropna_hour rs))))
      (sort_by Z.ltb (unique Z.eqb (hours_of (dropna_hour rs)))).

End Pandas.

(** ** app_talktime_v3_6.py *)

Module App_v3_6.
Import Py PyFloat.
Export Pandas.

(** [parse_date_best]: the column is parsed twice by [pd.to_datetime],
    day first and month first; [to_datetime dayfirst series] stands for
    [pd.to_datetime(series, errors="coerce", dayfirst=...)], with [None]
    for NaT. *)
Section ParseDateBest.
Variable T : Type.
Variable to_datetime : bool -> list cell -> list (option T).

Definition notna (x : option T) : bool :=
  match x with Some _ => true | None => false end.

(** [d.notna().sum()] *)
Definition notna_sum (d : list (option T)) : Z :=
  Z.of_nat (List.length (filter notna d)).

(** The number of rows that failed to parse. *)
Definition failures (d : list (option T)) : Z :=
  Z.of_nat (List.length (filter (fun x => negb (notna x)) d)).

Definition parse_date_best (series : list cell) : list (option T) :=
  let d1 := to_datetime true series in
  let d2 := to_datetime false series in
  if notna_sum d2 <=? notna_sum d1 then d1 else d2.

End ParseDateBest.

(** [filter_by_date]: both bounds are inclusive; a row without a date
    compares false. The column ["_date_only"] is always there after
    loading. *)
Definition date_mask (start_date end_date : Date) (rs : list Row) : list bool :=
  map (fun r => match _date_only r with
                | Some d => date_leb start_date d && date_leb d end_date
                | None => false
                end) rs.

Definition filter_by_date (df : Frame) (start_date end_date : Date) : Frame :=
  loc df (date_mask start_date end_date (rows df)).

(** One row of the summary table. *)
Record Summary := mkSummary {
  key : Key;
  Total_Calls : Z;
  Total_Duration : float;
  Avg_Duration : float;
  Median_Duration : float
}.

Definition summarize (dims : list str) (rs : list Row) (k : Key) : Summary :=
  let vs := map _duration_sec (group_rows dims rs k) in
  mkSummary k (agg_count vs) (agg_sum vs) (agg_mean vs) (agg_median vs).

(** [sort_values(["Total Calls", "Total Duration (sec)"],
    ascending=[False, False])]: [x] comes strictly before [y]. A NaN total
    goes last among equal counts. *)
Definition summary_before (x y : Summary) : bool :=
  (Total_Calls y <? Total_Calls x) ||
  ((Total_Calls x =? Total_Calls y) &&
   (if isnan (Total_Duration x) then false
    else if isnan (Total_Duration y) then true
    else ltb (Total_Duration y) (Total_Duration x))).

(** [agg_summary(df, dims, "_duration_sec")] *)
Definition agg_summary (df : Frame) (dims : list str) : list Summary :=
  sort_by summary_before
    (map (summarize dims (rows df)) (group_keys dims (rows df))).

(** The sum of the column ["Total Calls"] of a summary table. *)
Definition total_calls (tbl : list Summary) : Z :=
  fold_right (fun s acc => Total_Calls s + acc) 0 tbl.

(** The sidebar. [bounds] is what [date_preset_bounds] returns: the two
    ends of the period, or [None] for a custom range not yet chosen. The
    four selections are [None] when their column is absent. *)
Inductive TeamMode := All_agents | B2C_team_only.
Inductive CallMode := All_calls | Only_calls_with_duration_ge_threshold.

Record Sidebar := mkSidebar {
  team_mode : TeamMode;
  add_mt : bool;
  mode : CallMode;
  threshold : Z;
  bounds : option (Date * Date);
  include_missing : bool;
  sel_agents : option (list str);
  sel_countries : option (list str);
  sel_types : option (list str);
  sel_status : option (list str)
}.

Definition Caller : str := lit "Caller".
Definition Country_Name : str := lit "Country Name".
Definition Call_Type : str := lit "Call Type".
Definition Call_Status : str := lit "Call Status".

(** The sidebar [sb] with the checkbox "Include MT Team" set to [b]. *)
Definition set_add_mt (b : bool) (sb : Sidebar) : Sidebar :=
  mkSidebar (team_mode sb) b (mode sb) (threshold sb) (bounds sb)
            (include_missing sb) (sel_agents sb) (sel_countries sb)
            (sel_types sb) (sel_status sb).

(** The sidebar [sb] with another mode and threshold. *)
Definition set_mode (m : CallMode) (t : Z) (sb : Sidebar) : Sidebar :=
  mkSidebar (team_mode sb) (add_mt sb) m t (bounds sb)
            (include_missing sb) (sel_agents sb) (sel_countries sb)
            (sel_types sb) (sel_status sb).

(** [mask_for_targets(frame, col, targets_norm)] *)
Definition mask_for_targets (frame : Frame) (col : str)
           (targets_norm : list str) : list bool :=
  if negb (has_column frame col) then map (fun _ => false) (rows frame)
  else map (fun r => fuzzy_match_any (get r col) targets_norm) (rows frame).

(** The team mask: base selection, then the additive MT checkbox, then the
    rows without an agent when [include_missing] is on. *)
Definition team_mask (sb : Sidebar) (df_f : Frame) : list bool :=
  let b2c_mask := mask_for_targets df_f Caller B2C_TARGETS in
  let mt_mask := mask_for_targets df_f Caller MTTEAM_TARGETS in
  let m0 := match team_mode sb with
            | B2C_team_only => b2c_mask
            | All_agents => map (fun _ => true) (rows df_f)
            end in
  let m1 := if add_mt sb then series_or m0 mt_mask else m0 in
  if include_missing sb && has_column df_f Caller
  then series_or m1 (map (fun r => cell_isna (get r Caller)) (rows df_f))
  else m1.

(** [_apply_filter(frame, col, selections)]; it reads the global
    [include_missing]. *)
Definition _apply_filter (include_missing : bool) (frame : Frame) (col : str)
           (selections : option (list str)) : Frame :=
  match selections with
  | None => frame
  | Some sel =>
      if negb (has_column frame col) then frame
      else if (List.length sel =? 0)%nat then frame
      else if include_missing
      then loc frame
             (series_or
                (map (fun r => mem (astype_str (get r col)) sel) (rows frame))
                (map (fun r => cell_isna (get r col)) (rows frame)))
      else loc frame
             (map (fun r => mem (astype_str (get r col)) sel) (rows frame))
  end.

(** The frame after the date filter. *)
Definition df_dated (sb : Sidebar) (df : Frame) : Frame :=
  match bounds sb with
  | Some (start_date, end_date) => filter_by_date df start_date end_date
  | None => df
  end.

(** The frame after the team mask. *)
Definition df_team (sb : Sidebar) (df : Frame) : Frame :=
  let d := df_dated sb df in loc d (team_mask sb d).

(** The frame after [_apply_filter(df_f, "Caller", sel_agents)]. *)
Definition df_agents (sb : Sidebar) (df : Frame) : Frame :=
  _apply_filter (include_missing sb) (df_team sb df) Caller (sel_agents sb).

(** [df_f]: date, team and the four generic filters. *)
Definition df_f (sb : Sidebar) (df : Frame) : Frame :=
  let f1 := df_agents sb df in
  let f2 := _apply_filter (include_missing sb) f1 Country_Name
                          (sel_countries sb) in
  let f3 := _apply_filter (include_missing sb) f2 Call_Type (sel_types sb) in
  _apply_filter (include_missing sb) f3 Call_Status (sel_status sb).

(** [df_view]: the mode filter on top of [df_f]. NaN fails [>=]. *)
Definition df_view (sb : Sidebar) (df : Frame) : Frame :=
  match mode sb with
  | Only_calls_with_duration_ge_threshold =>
      loc (df_f sb df)
          (map (fun r => geb (_duration_sec r) (of_Z (threshold sb)))
               (rows (df_f sb df)))
  | All_calls => df_f sb df
  end.



(** Tab 4: the attempts table, computed from [df_f]; an empty table
    stands for the notice shown when no row has an hour. *)
Definition attempts (sb : Sidebar) (df : Frame) : list (Z * Z) :=
  size_by_hour (rows (df_f sb df)).

(** The KPI card "Total Calls": [len(df_view)]. *)
Definition kpi_total_calls (sb : Sidebar) (df : Frame) : Z :=
  Z.of_nat (nrows (df_view sb df)).

(** Tab 1: the agent-wise table, computed from [df_view]. With the column
    ["Caller"] absent the tab shows a notice instead. *)
Definition agent_wise (sb : Sidebar) (df : Frame) : option (list Summary) :=
  if has_column (df_view sb df) Caller
  then Some (agg_summary (df_view sb df) [Caller])
  else None.

(** "Load & Prepare": [df["_duration_sec"] =
    df["Call Duration"].apply(to_seconds)]. [None] when a call raises. *)
Fixpoint apply_to_seconds (xs : list PyVal) : option (list float) :=
  match xs with
  | [] => Some []
  | x :: r =>
      match Duration.to_seconds x with
      | OverflowError => None
      | Ret f =>
          match apply_to_seconds r with
          | None => None
          | Some fs => Some (f :: fs)
          end
      end
  end.

(** *** The masks read row by row *)

(** The entry of the team mask for one row; [hc] tells whether the frame
    has the column ["Caller"]. *)
Definition team_keeps (sb : Sidebar) (hc : bool) (r : Row) : bool :=
  (match team_mode sb with
   | B2C_team_only => hc && fuzzy_match_any (get r Caller) B2C_TARGETS
   | All_agents => true
   end
   || (add_mt sb && (hc && fuzzy_match_any (get r Caller) MTTEAM_TARGETS)))
  || (include_missing sb && hc && cell_isna (get r Caller)).

(** What [_apply_filter] keeps, row by row. *)
Definition filter_keeps (im hc : bool) (col : str) (sel : option (list str))
           (r : Row) : bool :=
  match sel with
  | None => true
  | Some s =>
      negb hc || (List.length s =? 0)%nat
      || mem (astype_str (get r col)) s || (im && cell_isna (get r col))
  end.

(** What the three filters after the agent filter and the mode filter
    keep, row by row. *)
Definition later_keeps (sb : Sidebar) (df : Frame) (r : Row) : bool :=
  filter_keeps (include_missing sb) (has_column df Country_Name) Country_Name
               (sel_countries sb) r
  && filter_keeps (include_missing sb) (has_column df Call_Type) Call_Type
                  (sel_types sb) r
  && filter_keeps (include_missing sb) (has_column df Call_Status) Call_Status
                  (sel_status sb) r.

Definition mode_keeps (sb : Sidebar) (r : Row) : bool :=
  match mode sb with
  | Only_calls_with_duration_ge_threshold =>
      geb (_duration_sec r) (of_Z (threshold sb))
  | All_calls => true
  end.

End App_v3_6.

(** ** app_talktime.py *)

Module App_v1.
Import Py PyFloat.
Export Pandas.

(** The dict [{c.lower(): c for c in df.columns}]: a later column replaces
    an earlier one with the same lower-case name. *)
Definition sdict := list (str * str).

Fixpoint sdict_get (d : sdict) (k : str) : option str :=
  match d with
  | [] => None
  | (k', v) :: r => if str_eqb k k' then Some v else sdict_get r k
  end.

Fixpoint sdict_set (d : sdict) (k v : str) : sdict :=
  match d with
  | [] => [(k, v)]
  | (k', v') :: r =>
      if str_eqb k k' then (k', v) :: r else (k', v') :: sdict_set r k v
  end.

Definition lower_dict (columns : list str) : sdict :=
  fold_left (fun d c => sdict_set d (lower c) c) columns [].

(** One step of the dict comprehension. *)
Definition add_lower (d : sdict) (c : str) : sdict := sdict_set d (lower c) c.

(** The first loop of [_coalesce_column]. *)
Fixpoint first_exact (columns candidates : list str) : option str :=
  match candidates with
  | [] => None
  | c :: r => if mem c columns then Some c else first_exact columns r
  end.

(** The second loop, over the lower-case dict. *)
Fixpoint first_lower (d : sdict) (candidates : list str) : option str :=
  match candidates with
  | [] => None
  | c :: r =>
      match sdict_get d (lower c) with
      | Some col => Some col
      | None => first_lower d r
      end
  end.

(** [_coalesce_column(df, candidates)], on the header [df.columns]. *)
Definition _coalesce_column (columns candidates : list str) : option str :=
  match first_exact columns candidates with
  | Some c => Some c
  | None => first_lower (lower_dict columns) candidates
  end.

(** [mapping or _coalesce_column(df, candidates)]: a non-empty text typed
    in the sidebar wins. *)
Definition resolve (mapping : str) (columns candidates : list str)
  : option str :=
  if is_empty mapping then _coalesce_column columns candidates
  else Some mapping.

Definition agent_aliases : list str :=
  map lit ["Owner"; "Agent"; "User"; "Student/Academic Counsellor";
           "Student/Academic Counselor"; "Assigned To"; "Rep";
           "Agent Name"]%string.
Definition country_aliases : list str :=
  map lit ["Country"; "Country/Region"; "Country Name"]%string.
Definition duration_aliases : list str :=
  map lit ["Call Duration"; "Duration"; "Talk Time"; "CallDuration";
           "Call_Duration"]%string.
Definition start_aliases : list str :=
  map lit ["Start Time"; "Call Start Time"; "Created At"; "Timestamp";
           "Call Start"; "Started At"; "Date/Time"; "Datetime"]%string.

Definition agent_col (map_agent : str) (columns : list str) : option str :=
  resolve map_agent columns agent_aliases.
Definition country_col (map_country : str) (columns : list str) : option str :=
  resolve map_country columns country_aliases.
Definition duration_col (map_duration : str) (columns : list str)
  : option str :=
  resolve map_duration columns duration_aliases.
Definition start_col (map_start : str) (columns : list str) : option str :=
  resolve map_start columns start_aliases.

(** The sidebar and the resolved schema. [date_range] holds two instants
    [(s, e)]; an agent or country filter holds the resolved column and the
    selected values and is [None] when the column is unresolved. *)
Inductive CountingRule := Talktime | Overall.

Record Sidebar := mkSidebar {
  mode : CountingRule;
  threshold : Z;
  has_duration_col : bool;
  has_start_col : bool;
  date_range : option (Z * Z);
  agents : option (str * list str);
  countries : option (str * list str)
}.

Definition isin_filter (df : Frame) (f : option (str * list str)) : Frame :=
  match f with
  | None => df
  | Some (col, sel) =>
      loc df (map (fun r => mem (astype_str (get r col)) sel) (rows df))
  end.

(** "Apply filters": [df_f]. *)
Definition df_f (sb : Sidebar) (df : Frame) : Frame :=
  let d0 :=
    match date_range sb with
    | Some (s, e) =>
        if has_start_col sb
        then loc df (series_and
                       (map (fun r => match _dt_local r with
                                      | Some t => s <=? t
                                      | None => false
                                      end) (rows df))
                       (map (fun r => match _dt_local r with
                                      | Some t => t <? e
                                      | None => false
                                      end) (rows df)))
        else df
    | None => df
    end in
  isin_filter (isin_filter d0 (agents sb)) (countries sb).

(** "Apply counting rule": [df_rules]. *)
Definition df_rules (sb : Sidebar) (df : Frame) : Frame :=
  match mode sb with
  | Talktime =>
      if has_duration_col sb
      then loc (df_f sb df)
               (map (fun r => geb (_duration_sec r) (of_Z (threshold sb)))
                    (rows (df_f sb df)))
      else df_f sb df
  | Overall => df_f sb df
  end.

(** Section 4: attempts by hour, from [df_f]; [None] without a start
    column. *)
Definition attempts (sb : Sidebar) (df : Frame) : option (list (Z * Z)) :=
  if has_start_col sb then Some (size_by_hour (rows (df_f sb df))) else None.

End App_v1.

(** ** app_talktime_v2.py *)

Module App_v2.
Import Py PyFloat.
Export Pandas.

(** "Apply other filters": one of the four steps
    [if sel is not None and len(sel) > 0:
       df_f = df_f[df_f[col].astype(str).isin(sel)]]. *)
Definition apply_selection (df_f : Frame) (col : str)
           (sel : option (list str)) : Frame :=
  match sel with
  | None => df_f
  | Some s =>
      if (0 <? List.length s)%nat
      then loc df_f (map (fun r => mem (astype_str (get r col)) s) (rows df_f))
      else df_f
  end.

(** The date column of [combine_date_time]: month first only. *)
Definition dt_date {T : Type}
           (to_datetime : bool -> list cell -> list (option T))
           (date_col : list cell) : list (option T) :=
  to_datetime false date_col.

End App_v2.

(** ** The specification's wording, for comparison with the code *)

Module Spec.
Import Py PyFloat.
Export Pandas.

(** [x] occurs in [y] as a contiguous run of characters. *)
Definition substring (x y : str) : Prop :=
  exists pre post, y = pre ++ x ++ post.

(** The parts of [s] between colons all read as numbers, with values [fs]. *)
Definition numeric_parts (s : str) (fs : list float) : Prop :=
  Forall2 (fun p f => of_str p = Some f) (split_on ":" s) fs.

(** No reading of the text [s] succeeds: not a number, not [M:S], not
    [H:M:S]. *)
Definition text_fails (s : str) : Prop :=
  of_str s = None /\
  (forall m sec, ~ numeric_parts s [m; sec]) /\
  (forall h m sec, ~ numeric_parts s [h; m; sec]).

(** DurationParser on text, as section 4.1 words it: the direct reading
    first, then the parts between colons. *)
Inductive parse_text (s : str) : float -> Prop :=
| PT_number f :
    of_str s = Some f -> parse_text s f
| PT_min_sec m sec :
    of_str s = None -> numeric_parts s [m; sec] ->
    parse_text s (add (mul m (of_Z 60)) sec)
| PT_hour_min_sec h m sec :
    of_str s = None -> numeric_parts s [h; m; sec] ->
    parse_text s (add (add (mul h (of_Z 3600)) (mul m (of_Z 60))) sec)
| PT_missing :
    text_fails s -> parse_text s nan.

(** DurationParser.parse, as section 4.1 words it: missing input is
    missing, a number that is not a boolean is cast to float, booleans and
    text are read as text, the text being taken as it is given. *)
Inductive parse_as_worded : PyVal -> outcome -> Prop :=
| W_missing x : isna x = true -> parse_as_worded x (Ret nan)
| W_int z : parse_as_worded (VInt z) (float_of_int z)
| W_float f : isnan f = false -> parse_as_worded (VFloat f) (Ret f)
| W_bool b f :
    parse_text (Duration.py_str (VBool b)) f ->
    parse_as_worded (VBool b) (Ret f)
| W_text s f : parse_text s f -> parse_as_worded (VStr s) (Ret f).

(** The same reading of the text once [str.strip] has taken the blanks
    off its two ends, the separators 0x1c to 0x1f included. *)
Inductive parse : PyVal -> outcome -> Prop :=
| P_missing x : isna x = true -> parse x (Ret nan)
| P_int z : parse (VInt z) (float_of_int z)
| P_float f : isnan f = false -> parse (VFloat f) (Ret f)
| P_bool b f :
    parse_text (strip (Duration.py_str (VBool b))) f -> parse (VBool b) (Ret f)
| P_text s f : parse_text (strip s) f -> parse (VStr s) (Ret f).

(** A parse failure: text (or a boolean) that, once stripped, no reading
    accepts. *)
Definition parse_fails (x : PyVal) : Prop :=
  match x with
  | VBool _ | VStr _ => text_fails (strip (Duration.py_str x))
  | _ => False
  end.

(** NameMatcher.is_member as section 4.4 words it: substring either way,
    or a token of the entry is a token of the name, or the ratio reaches
    0.85; an empty normalised name never matches. *)
Definition is_member_as_worded (raw_name : cell) (roster : list str) : bool :=
  let n := norm_name raw_name in
  negb (is_empty n) &&
  existsb (fun entry =>
             let t := norm_name (Some entry) in
             contains t n || contains n t
             || existsb (fun tok => mem tok (split n)) (split t)
             || geb (Difflib.ratio n t) ratio_cut)
          roster.

(** What one roster entry must satisfy for the loop to answer [True]. *)
Definition entry_matches (n t : str) : Prop :=
  t <> [] /\
  (substring t n \/ substring n t
   \/ (exists tok, In tok (split t) /\ substring tok n)
   \/ geb (Difflib.ratio n t) ratio_cut = true).

(** ColumnResolver as section 4.3 words it: the override counts only when
    it is one of the headers; otherwise the aliases are tried. *)
Definition resolve_as_worded (override : str) (header aliases : list str)
  : option str :=
  if negb (is_empty override) && mem override header then Some override
  else App_v1._coalesce_column header aliases.

(** Two texts are equal up to case. *)
Definition same_lower (x y : str) : Prop := lower x = lower y.


(** The date resolver as worded: of the column parsed day first ([d1])
    and month first ([d2]), the result is the one with the lower number
    of failures. *)
Definition picks_fewer_failures {T : Type} (d1 d2 result : list (option T))
  : Prop :=
  (App_v3_6.failures T d1 < App_v3_6.failures T d2 -> result = d1)
  /\ (App_v3_6.failures T d2 < App_v3_6.failures T d1 -> result = d2).

(** The number of calls among [rs] whose local hour is [h]. *)
Definition calls_at_hour (h : Z) (rs : list Row) : Z :=
  Z.of_nat (List.length
              (filter (fun r => match _hour r with
                                | Some h' => h' =? h
                                | None => false
                                end) rs)).

(** The agent [a] passes the team selection: the base is "All agents", or
    [a] matches the B2C roster, or the MT checkbox is ticked and [a]
    matches the MT roster. *)
Definition passes_team (tm : App_v3_6.TeamMode) (add_mt : bool) (a : str)
  : Prop :=
  tm = App_v3_6.All_agents
  \/ fuzzy_match_any (Some a) B2C_TARGETS = true
  \/ (add_mt = true /\ fuzzy_match_any (Some a) MTTEAM_TARGETS = true).

(** The agent [a] passes the agent selection: it is selected, or nothing
    is (no selection, or an empty one). *)
Definition passes_selection (sel : option (list str)) (a : str) : Prop :=
  match sel with
  | None => True
  | Some [] => True
  | Some s => In a s
  end.

(** The agent selection of the sidebar constrains nothing on the rows
    [rs]: there is none, or it is empty, or it holds every agent present. *)
Definition agents_unrestricted (sel : option (list str)) (rs : list Row)
  : Prop :=
  match sel with
  | None => True
  | Some [] => True
  | Some s => forall r a, In r rs -> get r (lit "Caller") = Some a -> In a s
  end.

End Spec.

(** ** Concrete data used by the statements below *)

Module Samples.
Import Py PyFloat.
Export Pandas.

(** A stand-in for [pd.to_datetime(series, errors="coerce",
    dayfirst=...)] on a column of dates written [DD/MM/YYYY] or
    [MM/DD/YYYY], to run the date code on concrete columns. One format
    serves the whole column: it is taken from the first entry, read in the
    order asked when that makes a date and in the other order when only
    that one does; an entry that is no date in that format is NaT. The
    check of the day stops at 31, and a column whose first entry is no
    date in either order is outside what this stand-in describes. *)
Definition all_digits (s : str) : bool :=
  negb (is_empty s) && forallb isdigit s.

Definition slash_date (dayfirst : bool) (x : cell) : option Date :=
  match x with
  | None => None
  | Some s =>
      match split_on "/" s with
      | [p; q; y] =>
          if all_digits p && all_digits q && all_digits y then
            let d := digits_val (if dayfirst then p else q) in
            let m := digits_val (if dayfirst then q else p) in
            if (1 <=? m) && (m <=? 12) && (1 <=? d) && (d <=? 31)
            then Some (mkDate (digits_val y) m d) else None
          else None
      | _ => None
      end
  end.

Definition is_date (dayfirst : bool) (x : cell) : bool :=
  match slash_date dayfirst x with Some _ => true | None => false end.

(** The order of the format guessed from the first entry. *)
Definition guessed_dayfirst (dayfirst : bool) (series : list cell) : bool :=
  match series with
  | x :: _ =>
      if is_date dayfirst x then dayfirst
      else if is_date (negb dayfirst) x then negb dayfirst
      else dayfirst
  | [] => dayfirst
  end.

Definition slash_to_datetime (dayfirst : bool) (series : list cell)
  : list (option Date) :=
  map (slash_date (guessed_dayfirst dayfirst series)) series.

(** A column that reads whole day first only: its first entry is a date
    in both orders, its second has no month 25. *)
Definition february_then_march : list cell :=
  [Some (lit "01/02/2024"); Some (lit "25/03/2024")].

(** The unit separator (0x1f) followed by "30": [str.strip] removes the
    separator, [float] does not. *)
Definition separator_30 : str := "031"%char :: lit "30".

(** The three records of the end-to-end scenario of section 8. They
    have a date and no time of day; [with_time] adds a "Time" column that
    holds "10:00" on every record. *)
Definition jan1 : Date := mkDate 2024 1 1.







(** Talktime mode with a threshold of 60 seconds, the period 1 January
    2024, every agent and every country selected. *)
Definition scenario_sidebar : App_v3_6.Sidebar :=
  App_v3_6.mkSidebar App_v3_6.All_agents false
    App_v3_6.Only_calls_with_duration_ge_threshold 60
    (Some (jan1, jan1)) true
    (Some [lit "A"; lit "B"]) (Some [lit "IN"; lit "US"]) None None.




(** A frame with one agent and two calls, one of them with a duration
    that did not parse. *)
Definition two_calls_one_unparsed : Frame :=
  mkFrame (map lit ["Caller"; "_duration_sec"]%string)
    [ mkRow [(lit "Caller", Some (lit "A"))] (of_Z 60) None None;
      mkRow [(lit "Caller", Some (lit "A"))] nan None None ].

(** Three calls: one without an agent, one by a member of the B2C roster,
    one by an agent outside every roster. *)
Definition call_of (agent : cell) : Row :=
  mkRow [(lit "Caller", agent)] (of_Z 90) (Some jan1) None.

Definition unattributed : Row := call_of None.
Definition ria : Row := call_of (Some (lit "Ria Arora")).
Definition bob : Row := call_of (Some (lit "Bob")).
Definition ayushman : Row := call_of (Some (lit "Ayushman")).

Definition team_frame : Frame :=
  mkFrame (map lit ["Caller"; "_duration_sec"; "_date_only"]%string)
          [unattributed; ria; bob; ayushman].

(** The B2C roster as base selection, rows without an agent included, no
    other filter. *)
Definition b2c_sidebar (add_mt : bool) : App_v3_6.Sidebar :=
  App_v3_6.mkSidebar App_v3_6.B2C_team_only add_mt App_v3_6.All_calls 60
    None true None None None None.

(** The B2C roster as base selection and the agent "Bob" alone selected. *)
Definition b2c_bob_sidebar : App_v3_6.Sidebar :=
  App_v3_6.mkSidebar App_v3_6.B2C_team_only false App_v3_6.All_calls 60
    None true (Some [lit "Bob"]) None None None.

(** Every call, every agent, no period, no selection. *)
Definition all_calls_sidebar : App_v3_6.Sidebar :=
  App_v3_6.mkSidebar App_v3_6.All_agents false App_v3_6.All_calls 60
    None true None None None None.

End Samples.

(** ** The rest of the v3.6 page: cleaning, pickers, KPI cards *)

Module Page.
Import Py PyFloat.
Export Pandas.

(** [clean_str_col(series)]: [s.where(s.isna(), s.astype(str).str.strip())],
    a missing cell stays missing, text loses the blanks at its ends. *)
Definition clean_cell (x : cell) : cell :=
  match x with
  | None => None
  | Some s => Some (strip s)
  end.

Definition clean_str_col (series : list cell) : list cell :=
  map clean_cell series.

(** [df[col]]: the column as a Series. *)
Definition column (df : Frame) (col : str) : list cell :=
  map (fun r => get r col) (rows df).

(** The cell of column [col] set to [v] in one row. *)
Fixpoint set_cell (col : str) (v : cell) (cs : list (str * cell))
  : list (str * cell) :=
  match cs with
  | [] => [(col, v)]
  | (c, x) :: r =>
      if str_eqb c col then (c, v) :: r else (c, x) :: set_cell col v r
  end.

Definition set_row (col : str) (v : cell) (r : Row) : Row :=
  mkRow (set_cell col v (cells r)) (_duration_sec r) (_date_only r)
        (_dt_local r).

(** [df[col] = series], for a Series over the index of [df]. *)
Fixpoint assign_rows (col : str) (rs : list Row) (series : list cell)
  : list Row :=
  match rs, series with
  | r :: rs', v :: vs => set_row col v r :: assign_rows col rs' vs
  | _, _ => []
  end.

Definition assign (df : Frame) (col : str) (series : list cell) : Frame :=
  mkFrame (if has_column df col then columns df else columns df ++ [col])
          (assign_rows col (rows df) series).

(** The loop "Clean key columns":
    [if col in df.columns: df[col] = clean_str_col(df[col])]. *)
Definition clean_column (df : Frame) (col : str) : Frame :=
  if has_column df col then assign df col (clean_str_col (column df col))
  else df.

Definition key_columns : list str :=
  map lit ["Caller"; "Country Name"; "Call Type"; "Call Status"]%string.

Definition clean_key_columns (df : Frame) : Frame :=
  fold_left clean_column key_columns df.

(** [df[col].dropna().astype(str)]: the texts present in a column. *)
Definition present (df : Frame) (col : str) : list str :=
  flat_map (fun r => match get r col with Some s => [s] | None => [] end)
           (rows df).

(** The options of a picker:
    [sorted(df[col].dropna().astype(str).unique().tolist())]. *)
Definition options (df : Frame) (col : str) : list str :=
  sort_by str_ltb (unique str_eqb (present df col)).

(** What a picker of v3.6 returns while untouched ([default=agents]):
    every option, or [None] without the column. *)
Definition default_selection (df : Frame) (col : str) : option (list str) :=
  if has_column df col then Some (options df col) else None.

(** The sidebar of v3.6 with its four pickers untouched. *)
Definition untouched_pickers (df : Frame) (sb : App_v3_6.Sidebar) : Prop :=
  App_v3_6.sel_agents sb = default_selection df App_v3_6.Caller
  /\ App_v3_6.sel_countries sb = default_selection df App_v3_6.Country_Name
  /\ App_v3_6.sel_types sb = default_selection df App_v3_6.Call_Type
  /\ App_v3_6.sel_status sb = default_selection df App_v3_6.Call_Status.

(** What a picker of v2 and v3 returns while untouched: the first ten
    options ([default=callers[: min(10, len(callers))]]). *)
Definition default_first_ten (df : Frame) (col : str) : option (list str) :=
  if has_column df col then Some (firstn 10 (options df col)) else None.

(** The KPI card "Agents":
    [df_view["Caller"].nunique() if "Caller" in df_view.columns else 0]. *)
Definition kpi_agents (sb : App_v3_6.Sidebar) (df : Frame) : Z :=
  let v := App_v3_6.df_view sb df in
  if has_column v App_v3_6.Caller
  then Z.of_nat (List.length (unique str_eqb (present v App_v3_6.Caller)))
  else 0.



(** Tab 3: the agent x country matrix. *)
Definition agent_country (sb : App_v3_6.Sidebar) (df : Frame)
  : option (list App_v3_6.Summary) :=
  if has_column (App_v3_6.df_view sb df) App_v3_6.Caller
     && has_column (App_v3_6.df_view sb df) App_v3_6.Country_Name
  then Some (App_v3_6.agg_summary (App_v3_6.df_view sb df)
                                  [App_v3_6.Caller; App_v3_6.Country_Name])
  else None.

(** The sidebar as the page first shows it: "All agents", the MT box
    unticked, "All calls", the slider at 60, the period "Today", missing
    values included, every picker at its default. [today] is the date of
    the day in the reporting zone. *)
Definition initial_sidebar (today : Date) (df : Frame) : App_v3_6.Sidebar :=
  App_v3_6.mkSidebar App_v3_6.All_agents false App_v3_6.All_calls 60
    (Some (today, today)) true
    (default_selection df App_v3_6.Caller)
    (default_selection df App_v3_6.Country_Name)
    (default_selection df App_v3_6.Call_Type)
    (default_selection df App_v3_6.Call_Status).

(** The sidebar [sb] with the checkbox "Include rows with missing values"
    set to [b]. *)
Definition set_include_missing (b : bool) (sb : App_v3_6.Sidebar)
  : App_v3_6.Sidebar :=
  App_v3_6.mkSidebar (App_v3_6.team_mode sb) (App_v3_6.add_mt sb)
    (App_v3_6.mode sb) (App_v3_6.threshold sb) (App_v3_6.bounds sb) b
    (App_v3_6.sel_agents sb) (App_v3_6.sel_countries sb)
    (App_v3_6.sel_types sb) (App_v3_6.sel_status sb).

(** The values the slider "Threshold (sec)" can take:
    [st.slider(..., 10, 300, 60, 5)]. *)
Definition slider_values : list Z :=
  map (fun k => 10 + 5 * Z.of_nat k) (seq 0 59).

(** *** The pipeline read row by row *)

(** The entry of the mask of [filter_by_date] for one row, under the
    period of the sidebar. *)
Definition date_keeps (sb : App_v3_6.Sidebar) (r : Row) : bool :=
  match App_v3_6.bounds sb with
  | Some (s, e) =>
      match _date_only r with
      | Some d => date_leb s d && date_leb d e
      | None => false
      end
  | None => true
  end.

(** What the steps up to [df_f] keep, and what [df_view] keeps. *)
Definition f_keeps (sb : App_v3_6.Sidebar) (df : Frame) (r : Row) : bool :=
  date_keeps sb r
  && App_v3_6.team_keeps sb (has_column df App_v3_6.Caller) r
  && App_v3_6.filter_keeps (App_v3_6.include_missing sb)
       (has_column df App_v3_6.Caller) App_v3_6.Caller
       (App_v3_6.sel_agents sb) r
  && App_v3_6.later_keeps sb df r.

Definition view_keeps (sb : App_v3_6.Sidebar) (df : Frame) (r : Row) : bool :=
  f_keeps sb df r && App_v3_6.mode_keeps sb r.

(** *** The order of a summary table *)

(** [a] is a total that may stand above [b] in the table: NaN goes last. *)
Definition total_ge (a b : float) : Prop :=
  isnan b = true \/ (isnan a = false /\ leb b a = true).

(** The line [x] may stand above the line [y]: more calls, or as many
    calls and a total that is not smaller. *)
Definition ranked_before (x y : App_v3_6.Summary) : Prop :=
  App_v3_6.Total_Calls y < App_v3_6.Total_Calls x
  \/ (App_v3_6.Total_Calls x = App_v3_6.Total_Calls y
      /\ total_ge (App_v3_6.Total_Duration x) (App_v3_6.Total_Duration y)).

(** What "Clean key columns" makes of a cell of column [col]. *)
Definition cleaned (df : Frame) (col : str) (x : cell) : cell :=
  if mem col key_columns && has_column df col then clean_cell x else x.

(** The lines of a table by two columns whose first value is [a]. *)
Definition lines_of (a : cell) (tbl : list App_v3_6.Summary)
  : list App_v3_6.Summary :=
  filter (fun line => key_eqb (firstn 1 (App_v3_6.key line)) [a]) tbl.

End Page.

(** ** The date windows of app_talktime_v2.py *)

Module DateWindow.
Import Py PyFloat.
Export Pandas.

Inductive Preset := Today | Yesterday | Custom.

(** [pd.Timedelta(days=1)], in seconds. *)
Definition one_day : Z := 86400.

(** The window [[start, end)] of [filt_date_preset]; [today] is
    [pd.Timestamp.today(tz=TZ).normalize()], and a custom range holds the
    instants at which its first and its last day begin. [None] stands for
    the branch that returns the frame as it is. *)
Definition window (today : Z) (preset : Preset) (custom_range : option (Z * Z))
  : option (Z * Z) :=
  match preset with
  | Today => Some (today, today + one_day)
  | Yesterday => Some (today - one_day, today)
  | Custom =>
      match custom_range with
      | None => None
      | Some (s, e) => Some (s, e + one_day)
      end
  end.

(** [df_dt[(df_dt["_dt_local"] >= start) & (df_dt["_dt_local"] < end)]] *)
Definition in_window (w : Z * Z) (r : Row) : bool :=
  match _dt_local r with
  | Some t => (fst w <=? t) && (t <? snd w)
  | None => false
  end.

Definition filt_date_preset (today : Z) (df_dt : Frame) (preset : Preset)
           (custom_range : option (Z * Z)) : Frame :=
  match window today preset custom_range with
  | None => df_dt
  | Some (start, end_) =>
      loc df_dt
          (series_and
             (map (fun r => match _dt_local r with
                            | Some t => start <=? t
                            | None => false
                            end) (rows df_dt))
             (map (fun r => match _dt_local r with
                            | Some t => t <? end_
                            | None => false
                            end) (rows df_dt)))
  end.

(** [df.dropna(subset=["_dt_local"])] *)
Definition dropna_dt (df : Frame) : Frame :=
  loc df (map (fun r => match _dt_local r with
                        | Some _ => true
                        | None => false
                        end) (rows df)).

(** "Apply date preset filter": the frame the other filters of v2 start
    from. *)
Definition df_windowed (today : Z) (df : Frame) (preset : Preset)
           (custom_range : option (Z * Z)) : Frame :=
  filt_date_preset today (dropna_dt df) preset custom_range.

End DateWindow.

(** ** The period of app_talktime_v3_6.py *)

Module Period.
Export Pandas.

(** What [st.date_input] hands over: nothing yet, one date, or a tuple of
    dates. *)
Inductive Picked :=
| Nothing
| One (d : Date)
| Tuple (ds : list Date).

(** [date_preset_bounds(preset, custom_range)]; [today] is [now.date()]
    and [yday] is [(now - pd.Timedelta(days=1)).date()]. *)
Definition date_preset_bounds (today yday : Date)
           (preset : DateWindow.Preset) (custom_range : Picked)
  : option (Date * Date) :=
  match preset with
  | DateWindow.Today => Some (today, today)
  | DateWindow.Yesterday => Some (yday, yday)
  | DateWindow.Custom =>
      match custom_range with
      | Tuple [start_date; end_date] => Some (start_date, end_date)
      | _ => None
      end
  end.

End Period.

(** ** Normalised names *)

Module NormalForm.
Import Py.

(** A character of a normalised name that is not the space: a digit or a
    lower-case letter. *)
Definition plain (c : ascii) : Prop := isalnum c = true /\ isupper c = false.

(** A word of a normalised name: not empty, made of plain characters. *)
Definition token (tok : str) : Prop := tok <> [] /\ Forall plain tok.

End NormalForm.

(** ** Clock texts *)

Module Clock.
Import Py PyFloat.

(** The number of colons of a text. *)
Definition colons (s : str) : nat := count_occ ascii_dec s ":"%char.

(** Two floats are the same value of [spec_float]. *)
Definition same (a b : float) : bool :=
  match a, b with
  | S754_zero s, S754_zero s' => Bool.eqb s s'
  | S754_infinity s, S754_infinity s' => Bool.eqb s s'
  | S754_nan, S754_nan => true
  | S754_finite s m e, S754_finite s' m' e' =>
      Bool.eqb s s' && Pos.eqb m m' && Z.eqb e e'
  | _, _ => false
  end.

(** A field of a clock text: [n] below 100 written with two digits, or
    without the leading zero when [pad] is off. *)
Definition digit (n : nat) : ascii := ascii_of_nat (48 + n).

Definition field (pad : bool) (n : nat) : str :=
  if (negb pad && (n <? 10))%nat then [digit n]
  else [digit (n / 10); digit (n mod 10)].

(** The texts [H:MM:SS] and [M:SS]. *)
Definition hms (pad : bool) (h m s : nat) : str :=
  field pad h ++ ":"%char :: field true m ++ ":"%char :: field true s.

Definition ms (pad : bool) (m s : nat) : str :=
  field pad m ++ ":"%char :: field true s.

End Clock.

(** ** More concrete data *)

Module Cases.
Import Py PyFloat.
Export Pandas.

(** Agent A with a call of 60 seconds, agent B with a call whose duration
    did not parse. *)
Definition silent_agent_frame : Frame :=
  mkFrame (map lit ["Caller"; "_duration_sec"]%string)
    [ mkRow [(lit "Caller", Some (lit "A"))] (of_Z 60) None None;
      mkRow [(lit "Caller", Some (lit "B"))] nan None None ].

Definition silent_call : Row :=
  mkRow [(lit "Caller", Some (lit "B"))] nan None None.

(** Eleven calls, by the agents "a" to "k". *)
Definition eleven_agents : Frame :=
  mkFrame (map lit ["Caller"; "_duration_sec"; "_date_only"]%string)
    (map (fun n => Samples.call_of (Some [ascii_of_nat (97 + n)])) (seq 0 11)).

(** A call by " Ria " and a call without an agent. *)
Definition padded_frame : Frame :=
  mkFrame [lit "Caller"]
    [Samples.call_of (Some (lit " Ria ")); Samples.call_of None].

(** Agent A with calls to two countries, agent B with a call whose
    duration did not parse. *)
Definition two_country_frame : Frame :=
  mkFrame (map lit ["Caller"; "Country Name"; "_duration_sec"]%string)
    [ mkRow [(lit "Caller", Some (lit "A"));
             (lit "Country Name", Some (lit "IN"))] (of_Z 60) None None;
      mkRow [(lit "Caller", Some (lit "A"));
             (lit "Country Name", Some (lit "US"))] (of_Z 30) None None;
      mkRow [(lit "Caller", Some (lit "B"));
             (lit "Country Name", Some (lit "US"))] nan None None ].

End Cases.

(** * Properties *)

(** ** Text *)

Module StrFacts.
Import Py.

Lemma chr_eqb_eq a b : chr_eqb a b = true <-> a = b.
Proof. unfold chr_eqb. apply Ascii.eqb_eq. Qed.

Lemma str_eqb_eq a : forall b, str_eqb a b = true <-> a = b.
Proof.
  induction a as [|x a IH]; intros [|y b]; simpl; split; intro H;
    try reflexivity; try discriminate.
  - apply andb_true_iff in H. destruct H as [H1 H2].
    apply chr_eqb_eq in H1. apply IH in H2. now subst.
  - injection H as -> ->. apply andb_true_iff. split.
    + now apply chr_eqb_eq.
    + now apply IH.
Qed.

Lemma str_eqb_refl a : str_eqb a a = true.
Proof. now apply str_eqb_eq. Qed.

Lemma mem_In x xs : mem x xs = true <-> In x xs.
Proof.
  unfold mem. rewrite existsb_exists. split.
  - intros (y & Hy & E). apply str_eqb_eq in E. now subst.
  - intro H. exists x. split; [assumption | apply str_eqb_refl].
Qed.

Lemma mem_false x xs : mem x xs = false <-> ~ In x xs.
Proof.
  rewrite <- mem_In. destruct (mem x xs); split; intro H;
    try discriminate; try reflexivity.
  now contradiction H.
Qed.

Lemma startswith_app p : forall s,
  startswith p s = true <-> exists post, s = p ++ post.
Proof.
  induction p as [|x p IH]; intros s; simpl.
  - split; [intros _; now exists s | reflexivity].
  - destruct s as [|y s].
    + split; [discriminate | intros (post & E); discriminate].
    + rewrite andb_true_iff, chr_eqb_eq, IH. split.
      * intros (-> & post & ->). now exists post.
      * intros (post & E). injection E as -> ->.
        split; [reflexivity | now exists post].
Qed.

(** [sub in s] is the substring relation. *)
Lemma contains_substring sub : forall s,
  contains sub s = true <-> exists pre post, s = pre ++ sub ++ post.
Proof.
  induction s as [|y s IH].
  - simpl. rewrite orb_false_r, startswith_app. split.
    + intros (post & E). now exists [], post.
    + intros ([|z pre] & post & E); [now exists post | discriminate].
  - cbn [contains]. rewrite orb_true_iff, startswith_app, IH. split.
    + intros [(post & E) | (pre & post & E)].
      * now exists [], post.
      * exists (y :: pre), post. now rewrite E.
    + intros ([|z pre] & post & E).
      * left. now exists post.
      * right. injection E as -> ->. now exists pre, post.
Qed.

Lemma lstrip_idem s : lstrip (lstrip s) = lstrip s.
Proof.
  induction s as [|c r IH]; simpl; [reflexivity|].
  destruct (isspace c) eqn:E; [assumption|]. simpl. now rewrite E.
Qed.

Lemma lstrip_app l m :
  lstrip (l ++ m) = match lstrip l with [] => lstrip m | u => u ++ m end.
Proof.
  induction l as [|c r IH]; simpl; [reflexivity|].
  destruct (isspace c); [assumption | reflexivity].
Qed.

Lemma rstrip_cons x r :
  rstrip (x :: r) =
  match rstrip r with
  | [] => if isspace x then [] else [x]
  | u => x :: u
  end.
Proof.
  unfold rstrip. simpl rev. rewrite lstrip_app.
  destruct (lstrip (rev r)) as [|a l] eqn:E.
  - simpl. destruct (isspace x); reflexivity.
  - assert (Hne : rev (a :: l) <> []).
    { intro E2. apply (f_equal (@List.length _)) in E2.
      rewrite length_rev in E2. discriminate. }
    replace (rev ((a :: l) ++ [x])) with (x :: rev (a :: l))
      by (now rewrite rev_app_distr).
    destruct (rev (a :: l)); [contradiction | reflexivity].
Qed.

Lemma rstrip_idem s : rstrip (rstrip s) = rstrip s.
Proof. unfold rstrip. now rewrite rev_involutive, lstrip_idem. Qed.

Lemma rstrip_cons_nonspace x r :
  isspace x = false -> rstrip (x :: r) = x :: rstrip r.
Proof. intro H. rewrite rstrip_cons, H. now destruct (rstrip r). Qed.

Lemma strip_lstrip s : strip (lstrip s) = strip s.
Proof. unfold strip. now rewrite lstrip_idem. Qed.

Lemma strip_rstrip s : strip (rstrip s) = strip s.
Proof.
  unfold strip. induction s as [|x r IH]; [reflexivity|].
  destruct (isspace x) eqn:E.
  - rewrite rstrip_cons, E. simpl lstrip at 2. rewrite E.
    destruct (rstrip r) eqn:E2.
    + rewrite <- IH. reflexivity.
    + simpl lstrip. rewrite E. exact IH.
  - rewrite (rstrip_cons_nonspace x r E). simpl. rewrite E.
    rewrite !(rstrip_cons_nonspace x _ E). now rewrite rstrip_idem.
Qed.

Lemma strip_idem s : strip (strip s) = strip s.
Proof. unfold strip at 2. now rewrite strip_rstrip, strip_lstrip. Qed.

(** Splitting on a character that is not a blank commutes with
    stripping: only the first and the last part lose their blanks. *)
Section Split.
Variable sep : ascii.
Hypothesis sep_not_space : isspace sep = false.

Lemma split_on_nonempty s : split_on sep s <> [].
Proof.
  destruct s as [|c r]; simpl; [discriminate|].
  destruct (chr_eqb c sep); [discriminate|].
  destruct (split_on sep r); discriminate.
Qed.

Lemma space_not_sep c : isspace c = true -> chr_eqb c sep = false.
Proof.
  intro H. destruct (chr_eqb c sep) eqn:E; [|reflexivity].
  apply chr_eqb_eq in E. subst. congruence.
Qed.

Lemma split_on_lstrip s :
  split_on sep (lstrip s) = map_head lstrip (split_on sep s).
Proof.
  induction s as [|c r IH]; [reflexivity|].
  simpl lstrip. destruct (isspace c) eqn:E.
  - rewrite IH. simpl split_on. rewrite (space_not_sep c E).
    pose proof (split_on_nonempty r) as Hne.
    destruct (split_on sep r) as [|p ps]; [contradiction|].
    simpl. now rewrite E.
  - simpl split_on. destruct (chr_eqb c sep); [reflexivity|].
    destruct (split_on sep r) as [|p ps]; simpl; now rewrite E.
Qed.

Lemma rstrip_nil_split s : rstrip s = [] -> split_on sep s = [s].
Proof.
  induction s as [|c r IH]; [reflexivity|].
  rewrite rstrip_cons. destruct (rstrip r) eqn:E; [|discriminate].
  destruct (isspace c) eqn:Ec; [|discriminate]. intros _.
  simpl. rewrite (space_not_sep c Ec), (IH eq_refl). reflexivity.
Qed.

Lemma split_on_single s p : split_on sep s = [p] -> s = p.
Proof.
  revert p. induction s as [|c r IH]; intros p; simpl.
  - now intros [= <-].
  - destruct (chr_eqb c sep).
    + intros [= <- E]. now destruct (split_on_nonempty r).
    + pose proof (split_on_nonempty r) as Hne.
      destruct (split_on sep r) as [|q qs]; [contradiction|].
      intros [= <- ->]. now rewrite (IH q eq_refl).
Qed.

Lemma map_last_cons f p ps :
  ps <> [] -> map_last f (p :: ps) = p :: map_last f ps.
Proof. destruct ps; [contradiction | reflexivity]. Qed.

Lemma split_on_rstrip s :
  split_on sep (rstrip s) = map_last rstrip (split_on sep s).
Proof.
  induction s as [|c r IH]; [reflexivity|].
  rewrite rstrip_cons. destruct (rstrip r) as [|u us] eqn:E.
  - pose proof (rstrip_nil_split r E) as Hr.
    destruct (isspace c) eqn:Ec.
    + simpl. rewrite (space_not_sep c Ec), Hr. simpl.
      now rewrite rstrip_cons, E, Ec.
    + simpl. rewrite Hr. destruct (chr_eqb c sep); simpl.
      * now rewrite E.
      * now rewrite rstrip_cons, E, Ec.
  - rewrite <- E in IH |- *. simpl split_on. rewrite IH.
    pose proof (split_on_nonempty r) as Hne.
    destruct (chr_eqb c sep).
    + now rewrite map_last_cons.
    + destruct (split_on sep r) as [|p ps] eqn:Es; [contradiction|].
      destruct ps as [|q qs].
      * simpl. apply split_on_single in Es. subst p.
        rewrite rstrip_cons, E. reflexivity.
      * reflexivity.
Qed.

Lemma split_on_strip s :
  split_on sep (strip s) = map_last rstrip (map_head lstrip (split_on sep s)).
Proof. unfold strip. now rewrite split_on_rstrip, split_on_lstrip. Qed.

End Split.

(** Trimming for any class of blanks. *)
Section Trim.
Variable blank : ascii -> bool.

Lemma lstrip_of_idem s :
  lstrip_of blank (lstrip_of blank s) = lstrip_of blank s.
Proof.
  induction s as [|c r IH]; simpl; [reflexivity|].
  destruct (blank c) eqn:E; [assumption|]. simpl. now rewrite E.
Qed.

Lemma lstrip_of_app l m :
  lstrip_of blank (l ++ m)
  = match lstrip_of blank l with [] => lstrip_of blank m | u => u ++ m end.
Proof.
  induction l as [|c r IH]; simpl; [reflexivity|].
  destruct (blank c); [assumption | reflexivity].
Qed.

Lemma rstrip_of_cons x r :
  rstrip_of blank (x :: r) =
  match rstrip_of blank r with
  | [] => if blank x then [] else [x]
  | u => x :: u
  end.
Proof.
  unfold rstrip_of. simpl rev. rewrite lstrip_of_app.
  destruct (lstrip_of blank (rev r)) as [|a l] eqn:E.
  - simpl. destruct (blank x); reflexivity.
  - assert (Hne : rev (a :: l) <> []).
    { intro E2. apply (f_equal (@List.length _)) in E2.
      rewrite length_rev in E2. discriminate. }
    replace (rev ((a :: l) ++ [x])) with (x :: rev (a :: l))
      by (now rewrite rev_app_distr).
    destruct (rev (a :: l)); [contradiction | reflexivity].
Qed.

Lemma rstrip_of_idem s :
  rstrip_of blank (rstrip_of blank s) = rstrip_of blank s.
Proof. unfold rstrip_of. now rewrite rev_involutive, lstrip_of_idem. Qed.

Lemma rstrip_of_cons_nonspace x r :
  blank x = false -> rstrip_of blank (x :: r) = x :: rstrip_of blank r.
Proof.
  intro H. rewrite rstrip_of_cons, H. now destruct (rstrip_of blank r).
Qed.

Lemma strip_of_lstrip s :
  strip_of blank (lstrip_of blank s) = strip_of blank s.
Proof. unfold strip_of. now rewrite lstrip_of_idem. Qed.

Lemma strip_of_rstrip s :
  strip_of blank (rstrip_of blank s) = strip_of blank s.
Proof.
  unfold strip_of. induction s as [|x r IH]; [reflexivity|].
  destruct (blank x) eqn:E.
  - rewrite rstrip_of_cons, E. simpl lstrip_of at 2. rewrite E.
    destruct (rstrip_of blank r) eqn:E2.
    + rewrite <- IH. reflexivity.
    + simpl lstrip_of. rewrite E. exact IH.
  - rewrite (rstrip_of_cons_nonspace x r E). simpl. rewrite E.
    rewrite !(rstrip_of_cons_nonspace x _ E). now rewrite rstrip_of_idem.
Qed.

Lemma strip_of_idem s :
  strip_of blank (strip_of blank s) = strip_of blank s.
Proof. unfold strip_of at 2. now rewrite strip_of_rstrip, strip_of_lstrip. Qed.

Lemma lstrip_of_head c r :
  blank c = false -> lstrip_of blank (c :: r) = c :: r.
Proof. intro H. simpl. now rewrite H. Qed.

Lemma In_lstrip_of c s :
  blank c = false -> In c s -> In c (lstrip_of blank s).
Proof.
  intros Hc. induction s as [|x r IH]; simpl; [tauto|].
  destruct (blank x) eqn:E; [|intro H; exact H].
  intros [->|H]; [congruence | now apply IH].
Qed.

Lemma In_lstrip_of_inv c s : In c (lstrip_of blank s) -> In c s.
Proof.
  induction s as [|x r IH]; simpl; [tauto|].
  destruct (blank x); [|intro H; exact H]. intro H. right. now apply IH.
Qed.

Lemma In_strip_of c s : blank c = false -> In c s -> In c (strip_of blank s).
Proof.
  intros Hc H. unfold strip_of, rstrip_of. apply in_rev.
  rewrite rev_involutive. apply In_lstrip_of; [assumption|].
  apply -> in_rev. now apply In_lstrip_of.
Qed.

Lemma In_strip_of_inv c s : In c (strip_of blank s) -> In c s.
Proof.
  unfold strip_of, rstrip_of. intro H.
  apply in_rev, In_lstrip_of_inv in H. apply in_rev in H.
  now apply In_lstrip_of_inv.
Qed.

End Trim.
End StrFacts.

(** ** DurationParser *)

Module DurationFacts.
Import Py PyFloat Duration StrFacts.

Lemma colon_not_space : isspace ":" = false.
Proof. reflexivity. Qed.

(** [float] reads its argument and the argument trimmed alike. *)
Lemma of_str_trim s : of_str (trim s) = of_str s.
Proof. unfold of_str, trim. now rewrite strip_of_idem. Qed.

Lemma floats_of_Forall2 parts : forall fs,
  floats_of parts = Some fs <->
  Forall2 (fun p f => of_str p = Some f) parts fs.
Proof.
  induction parts as [|p ps IH]; intros fs; simpl.
  - split.
    + intros [= <-]. constructor.
    + intro H. inversion H. reflexivity.
  - split.
    + destruct (of_str p) as [f|] eqn:Ep; [|discriminate].
      destruct (floats_of ps) as [gs|] eqn:Eps; [|discriminate].
      intros [= <-]. constructor; [assumption | now apply IH].
    + intro H. inversion H as [|p' f ps' gs Hp Hps]; subst.
      rewrite Hp. apply IH in Hps. now rewrite Hps.
Qed.

(** The text branch, its cases told apart. *)
Lemma text_to_seconds_unfold s :
  text_to_seconds s =
  match of_str (strip s) with
  | Some f => f
  | None =>
      match floats_of (split_on ":" (strip s)) with
      | Some [m; sec] => add (mul m (of_Z 60)) sec
      | Some [h; m; sec] =>
          add (add (mul h (of_Z 3600)) (mul m (of_Z 60))) sec
      | _ => nan
      end
  end.
Proof.
  unfold text_to_seconds. destruct (of_str (strip s)); [reflexivity|].
  destruct (floats_of (split_on ":" (strip s)))
    as [[|a [|b [|c [|d l]]]]|]; reflexivity.
Qed.

Lemma numeric_parts_floats_of s fs :
  Spec.numeric_parts s fs <-> floats_of (split_on ":" s) = Some fs.
Proof. unfold Spec.numeric_parts. now rewrite floats_of_Forall2. Qed.

(** The code computes a reading of the stripped text that the
    specification allows. *)
Lemma text_to_seconds_sound s :
  Spec.parse_text (strip s) (text_to_seconds s).
Proof.
  rewrite text_to_seconds_unfold.
  destruct (of_str (strip s)) as [f|] eqn:E; [now apply Spec.PT_number|].
  destruct (floats_of (split_on ":" (strip s))) as [fs|] eqn:Ef.
  - destruct fs as [|a [|b [|c [|d l]]]];
      try (apply Spec.PT_missing; split; [assumption|];
           split; intros; rewrite numeric_parts_floats_of, Ef; discriminate).
    + apply Spec.PT_min_sec; [assumption|]. now apply numeric_parts_floats_of.
    + apply Spec.PT_hour_min_sec; [assumption|].
      now apply numeric_parts_floats_of.
  - apply Spec.PT_missing; split; [assumption|];
      split; intros; rewrite numeric_parts_floats_of, Ef; discriminate.
Qed.

(** The specification allows one reading only. *)
Lemma parse_text_unique t f g :
  Spec.parse_text t f -> Spec.parse_text t g -> f = g.
Proof.
  intros [f' Hf | m sec Hn Hp | h m sec Hn Hp | (Hn & H2 & H3)]
         [g' Hg | m' sec' Hn' Hp' | h' m' sec' Hn' Hp' | (Hn' & H2' & H3')];
    try congruence;
    try (apply numeric_parts_floats_of in Hp);
    try (apply numeric_parts_floats_of in Hp');
    try congruence;
    try (exfalso; apply numeric_parts_floats_of in Hp;
         first [now apply (H2' _ _ Hp) | now apply (H3' _ _ _ Hp)]);
    try (exfalso; apply numeric_parts_floats_of in Hp';
         first [now apply (H2 _ _ Hp') | now apply (H3 _ _ _ Hp')]).
Qed.

Lemma text_to_seconds_complete s f :
  Spec.parse_text (strip s) f -> f = text_to_seconds s.
Proof.
  intro H. apply (parse_text_unique (strip s)); [exact H|].
  apply text_to_seconds_sound.
Qed.

Lemma text_fails_missing s :
  Spec.text_fails (strip s) -> text_to_seconds s = nan.
Proof.
  intro H. symmetry. apply text_to_seconds_complete. now apply Spec.PT_missing.
Qed.

(** The two copies of the parser are the same function. *)
Lemma parse_duration_is_to_seconds x :
  _parse_duration_to_seconds x = to_seconds x.
Proof.
  unfold _parse_duration_to_seconds, to_seconds, text_to_seconds.
  destruct (isna x); [reflexivity|].
  destruct x; try reflexivity;
    (destruct (of_str _); [reflexivity|];
     destruct (floats_of _) as [[|f1 [|f2 [|f3 [|f4 l]]]]|]; reflexivity).
Qed.

Lemma to_seconds_text x :
  match x with VBool _ | VStr _ => True | _ => False end ->
  to_seconds x = Ret (text_to_seconds (py_str x)).
Proof. destruct x; simpl; try contradiction; reflexivity. Qed.

(** C3, as stated, fails on a text that [str.strip] changes and [float]
    does not read: on the unit separator followed by "30" the direct
    reading fails and there is one part only, so the wording gives the
    missing marker and nothing else, while the code, which strips the
    text first, returns 30.0. *)
Lemma C3_counterexample :
  Spec.parse_as_worded (VStr Samples.separator_30) (Ret nan)
  /\ (forall r, Spec.parse_as_worded (VStr Samples.separator_30) r ->
                r = Ret nan)
  /\ _parse_duration_to_seconds (VStr Samples.separator_30)
     = Ret (of_Z 30).
Proof.
  assert (Hn : of_str Samples.separator_30 = None)
    by (vm_compute; reflexivity).
  assert (H2 : forall m sec, ~ Spec.numeric_parts Samples.separator_30 [m; sec])
    by (intros; rewrite numeric_parts_floats_of; vm_compute; discriminate).
  assert (H3 : forall h m sec,
             ~ Spec.numeric_parts Samples.separator_30 [h; m; sec])
    by (intros; rewrite numeric_parts_floats_of; vm_compute; discriminate).
  assert (Hw : Spec.parse_text Samples.separator_30 nan)
    by (apply Spec.PT_missing; repeat split; assumption).
  split; [now apply Spec.W_text|]. split; [|vm_compute; reflexivity].
  intros r H. inversion H as [x Hx | | | | s f Hf]; subst.
  - discriminate Hx.
  - f_equal. exact (parse_text_unique _ _ _ Hf Hw).
Qed.

(** C3, amended. [_parse_duration_to_seconds] returns [float(x)] on a
    number that is not a boolean, the missing marker on missing input, and
    on text (booleans included), once the blanks at the two ends of the
    text are stripped, the direct reading if there is one, else [M*60+S]
    for exactly two numeric parts, [H*3600+M*60+S] for exactly three, else
    the missing marker; so "-5" gives -5.0, "2:30" gives 150.0, "1:02:03"
    gives 3723.0, and "abc", the empty text and the booleans give
    missing. *)
Theorem C3_parse_duration_as_specified :
  (forall x r, Spec.parse x r <-> _parse_duration_to_seconds x = r)
  /\ (forall z, _parse_duration_to_seconds (VInt z) = float_of_int z)
  /\ (forall f, _parse_duration_to_seconds (VFloat f) = Ret f)
  /\ _parse_duration_to_seconds VNone = Ret nan
  /\ _parse_duration_to_seconds (VStr (lit "")) = Ret nan
  /\ _parse_duration_to_seconds (VStr (lit "-5")) = Ret (of_Z (-5))
  /\ _parse_duration_to_seconds (VStr (lit "2:30")) = Ret (of_Z 150)
  /\ _parse_duration_to_seconds (VStr (lit "1:02:03")) = Ret (of_Z 3723)
  /\ _parse_duration_to_seconds (VStr (lit "abc")) = Ret nan
  /\ (forall b, _parse_duration_to_seconds (VBool b) = Ret nan).
Proof.
  split; [|split; [|split; [|split; [|split; [|split; [|split; [|split;
    [|split]]]]]]]].
  - intros x r. rewrite parse_duration_is_to_seconds. split.
    + intros [y Hy | z | f Hf | b f Hf | s f Hf].
      * unfold to_seconds. now rewrite Hy.
      * reflexivity.
      * unfold to_seconds. simpl. now rewrite Hf.
      * rewrite to_seconds_text by exact I.
        now rewrite (text_to_seconds_complete _ _ Hf).
      * rewrite to_seconds_text by exact I.
        now rewrite (text_to_seconds_complete _ _ Hf).
    + intros <-. destruct (isna x) eqn:Ex.
      * unfold to_seconds. rewrite Ex. now apply Spec.P_missing.
      * destruct x as [|z|f|b|s]; try discriminate.
        -- apply Spec.P_int.
        -- unfold to_seconds. rewrite Ex. now apply Spec.P_float.
        -- rewrite to_seconds_text by exact I. apply Spec.P_bool.
           apply text_to_seconds_sound.
        -- rewrite to_seconds_text by exact I. apply Spec.P_text.
           apply text_to_seconds_sound.
  - intro z. reflexivity.
  - intro f. unfold _parse_duration_to_seconds. simpl.
    destruct f; reflexivity.
  - vm_compute. reflexivity.
  - vm_compute. reflexivity.
  - vm_compute. reflexivity.
  - vm_compute. reflexivity.
  - vm_compute. reflexivity.
  - vm_compute. reflexivity.
  - intros [|]; vm_compute; reflexivity.
Qed.

(** The reading of "2:30", obtained from the code through C3. *)
Lemma C3_witness :
  Spec.parse (VStr (lit "2:30")) (Ret (of_Z 150)).
Proof.
  apply (proj1 C3_parse_duration_as_specified). vm_compute. reflexivity.
Defined.

(** C2, as stated, fails: the parser of v3.6 returns -5.0 on the text
    "-5", a negative duration. *)
Lemma C2_counterexample :
  to_seconds (VStr (lit "-5")) = Ret (of_Z (-5))
  /\ ltb (of_Z (-5)) (of_Z 0) = true.
Proof. split; vm_compute; reflexivity. Qed.

(** C2, amended. A negative number passes through the parser unchanged
    ("-5" gives -5.0); a parse failure (text that reads neither as a
    number nor as [M:S] nor as [H:M:S]) yields the missing marker, which
    is not a zero. *)
Theorem C2_failure_is_missing_not_zero :
  to_seconds (VStr (lit "-5")) = Ret (of_Z (-5))
  /\ forall x,
       Spec.parse_fails x ->
       to_seconds x = Ret nan
       /\ forall s, to_seconds x <> Ret (S754_zero s).
Proof.
  split; [vm_compute; reflexivity|].
  intros x Hx.
  assert (E : to_seconds x = Ret nan).
  { destruct x; simpl in Hx; try contradiction.
    - rewrite to_seconds_text by exact I. now rewrite text_fails_missing.
    - rewrite to_seconds_text by exact I. now rewrite text_fails_missing. }
  split; [exact E|]. intros s. rewrite E. discriminate.
Qed.

Lemma abc_fails : Spec.text_fails (strip (lit "abc")).
Proof.
  split; [vm_compute; reflexivity|].
  split; intros; rewrite numeric_parts_floats_of; vm_compute; discriminate.
Qed.

(** The text "abc" is a parse failure, and C2 applies to it. *)
Lemma C2_witness :
  to_seconds (VStr (lit "abc")) = Ret nan
  /\ forall s, to_seconds (VStr (lit "abc")) <> Ret (S754_zero s).
Proof.
  apply (proj2 C2_failure_is_missing_not_zero (VStr (lit "abc"))).
  exact abc_fails.
Defined.

End DurationFacts.

(** ** Frames and masks *)

Module PandasFacts.
Import Py PyFloat StrFacts.
Export Pandas.

Lemma select_map {A : Type} (p : A -> bool) (xs : list A) :
  select (map p xs) xs = filter p xs.
Proof.
  induction xs as [|x r IH]; simpl; [reflexivity|].
  destruct (p x); now rewrite IH.
Qed.

Lemma series_or_map {A : Type} (p q : A -> bool) (xs : list A) :
  series_or (map p xs) (map q xs) = map (fun x => p x || q x) xs.
Proof. induction xs as [|x r IH]; simpl; [reflexivity | now rewrite IH]. Qed.

Lemma series_and_map {A : Type} (p q : A -> bool) (xs : list A) :
  series_and (map p xs) (map q xs) = map (fun x => p x && q x) xs.
Proof. induction xs as [|x r IH]; simpl; [reflexivity | now rewrite IH]. Qed.

Lemma rows_loc_map df (p : Row -> bool) :
  rows (loc df (map p (rows df))) = filter p (rows df).
Proof. unfold loc. simpl. apply select_map. Qed.

Lemma columns_loc df m : columns (loc df m) = columns df.
Proof. reflexivity. Qed.

Lemma has_column_loc df m col : has_column (loc df m) col = has_column df col.
Proof. reflexivity. Qed.

Lemma filter_filter {A : Type} (p q : A -> bool) (xs : list A) :
  filter q (filter p xs) = filter (fun x => p x && q x) xs.
Proof.
  induction xs as [|x r IH]; simpl; [reflexivity|].
  destruct (p x); simpl; [destruct (q x)|]; now rewrite IH.
Qed.

Lemma filter_all {A : Type} (xs : list A) : filter (fun _ => true) xs = xs.
Proof. induction xs as [|x r IH]; simpl; [reflexivity | now rewrite IH]. Qed.

Lemma frame_eta df : mkFrame (columns df) (rows df) = df.
Proof. now destruct df. Qed.

End PandasFacts.

(** ** FilterEngine (app_talktime_v3_6.py) *)

Module FilterFacts.
Import Py PyFloat StrFacts PandasFacts.
Export App_v3_6.

Lemma mask_for_targets_map frame col ts :
  mask_for_targets frame col ts =
  map (fun r => has_column frame col && fuzzy_match_any (get r col) ts)
      (rows frame).
Proof.
  unfold mask_for_targets. destruct (has_column frame col); reflexivity.
Qed.

Lemma team_mask_map sb d :
  team_mask sb d = map (team_keeps sb (has_column d Caller)) (rows d).
Proof.
  unfold team_mask, team_keeps. rewrite !mask_for_targets_map.
  destruct (team_mode sb), (add_mt sb), (include_missing sb),
    (has_column d Caller); cbn [andb orb];
    rewrite ?series_or_map; apply map_ext; intro r;
    rewrite ?orb_false_r, ?orb_true_r, ?andb_true_r; reflexivity.
Qed.

Lemma rows_df_team sb df :
  rows (df_team sb df) =
  filter (team_keeps sb (has_column df Caller)) (rows (df_dated sb df)).
Proof.
  unfold df_team. rewrite team_mask_map, rows_loc_map.
  replace (has_column (df_dated sb df) Caller) with (has_column df Caller).
  - reflexivity.
  - unfold df_dated. destruct (bounds sb) as [[s e]|]; reflexivity.
Qed.

Lemma has_column_df_dated sb df col :
  has_column (df_dated sb df) col = has_column df col.
Proof. unfold df_dated. destruct (bounds sb) as [[s e]|]; reflexivity. Qed.

Lemma has_column_df_team sb df col :
  has_column (df_team sb df) col = has_column df col.
Proof. unfold df_team. rewrite has_column_loc. apply has_column_df_dated. Qed.

Lemma columns_apply_filter im frame col sel :
  columns (_apply_filter im frame col sel) = columns frame.
Proof.
  unfold _apply_filter. destruct sel as [s|]; [|reflexivity].
  destruct (has_column frame col); simpl; [|reflexivity].
  destruct (List.length s =? 0)%nat; [reflexivity|].
  destruct im; reflexivity.
Qed.

Lemma has_column_apply_filter im frame col sel c :
  has_column (_apply_filter im frame col sel) c = has_column frame c.
Proof. unfold has_column. now rewrite columns_apply_filter. Qed.

Lemma rows_apply_filter im frame col sel :
  rows (_apply_filter im frame col sel) =
  filter (filter_keeps im (has_column frame col) col sel) (rows frame).
Proof.
  unfold _apply_filter, filter_keeps. destruct sel as [s|].
  - destruct (has_column frame col); simpl negb; cbv iota.
    + destruct (List.length s =? 0)%nat.
      * simpl. now rewrite filter_all.
      * destruct im.
        -- rewrite series_or_map, rows_loc_map. apply filter_ext.
           intro r. reflexivity.
        -- rewrite rows_loc_map. apply filter_ext. intro r. simpl.
           now rewrite orb_false_r.
    + simpl. now rewrite filter_all.
  - now rewrite filter_all.
Qed.

Lemma rows_df_agents sb df :
  rows (df_agents sb df) =
  filter (fun r => team_keeps sb (has_column df Caller) r
                   && filter_keeps (include_missing sb) (has_column df Caller)
                                   Caller (sel_agents sb) r)
         (rows (df_dated sb df)).
Proof.
  unfold df_agents. rewrite rows_apply_filter, has_column_df_team, rows_df_team.
  apply filter_filter.
Qed.

End FilterFacts.

Module Filters.
Import Py PyFloat StrFacts PandasFacts FilterFacts.

Lemma has_column_df_agents sb df col :
  has_column (df_agents sb df) col = has_column df col.
Proof.
  unfold df_agents. now rewrite has_column_apply_filter, has_column_df_team.
Qed.

Lemma rows_df_f sb df :
  rows (df_f sb df) = filter (later_keeps sb df) (rows (df_agents sb df)).
Proof.
  unfold df_f, later_keeps.
  rewrite !rows_apply_filter, !has_column_apply_filter, !has_column_df_agents.
  rewrite !filter_filter. apply filter_ext. intro r.
  now rewrite andb_assoc.
Qed.

Lemma rows_df_view sb df :
  rows (df_view sb df) = filter (mode_keeps sb) (rows (df_f sb df)).
Proof.
  unfold df_view, mode_keeps. destruct (mode sb).
  - now rewrite filter_all.
  - now rewrite rows_loc_map.
Qed.

Lemma df_dated_set_add_mt b sb df :
  df_dated (set_add_mt b sb) df = df_dated sb df.
Proof. reflexivity. Qed.

(** C10. An empty selection is no constraint: [_apply_filter] returns the
    frame it was given, for the agent, country, call type and call status
    columns alike, so with the four selections empty [df_f] is the frame
    left by the team mask; the filter steps of v2 behave the same. *)
Theorem C10_empty_selection_keeps_every_record :
  (forall im frame col, _apply_filter im frame col (Some []) = frame)
  /\ (forall tm am md th bd im df,
        let sb := mkSidebar tm am md th bd im
                            (Some []) (Some []) (Some []) (Some []) in
        df_f sb df = df_team sb df)
  /\ (forall df col, App_v2.apply_selection df col (Some []) = df).
Proof.
  assert (H : forall im frame col,
             _apply_filter im frame col (Some []) = frame).
  { intros im frame col. unfold _apply_filter.
    destruct (has_column frame col); reflexivity. }
  split; [exact H|]. split.
  - intros tm am md th bd im df sb. unfold df_f, df_agents, sb.
    cbn [include_missing sel_agents sel_countries sel_types sel_status].
    now rewrite !H.
  - intros df col. reflexivity.
Qed.

(** C8. Ticking the additive MT checkbox turns the team mask into the
    mask without it OR-ed with the mask of the MT roster: no record leaves
    the team-filtered frame nor the final view, every record that enters
    matches the MT roster, and with "All agents" as base the team mask
    passes every record. *)
Theorem C8_additive_flag_only_adds (sb : Sidebar) (df : Frame) :
  let off := set_add_mt false sb in
  let on := set_add_mt true sb in
  let d := df_dated sb df in
  team_mask on d =
    series_or (team_mask off d) (mask_for_targets d Caller MTTEAM_TARGETS)
  /\ (forall r, In r (rows (df_team off df)) -> In r (rows (df_team on df)))
  /\ (forall r, In r (rows (df_view off df)) -> In r (rows (df_view on df)))
  /\ (forall r, In r (rows (df_team on df)) ->
                In r (rows (df_team off df))
                \/ fuzzy_match_any (get r Caller) MTTEAM_TARGETS = true)
  /\ (forall am md th bd im sa sc st ss,
        let all := mkSidebar All_agents am md th bd im sa sc st ss in
        df_team all df = df_dated all df).
Proof.
  intros off on d.
  assert (Hmono : forall r, team_keeps off (has_column df Caller) r = true ->
                            team_keeps on (has_column df Caller) r = true).
  { intro r. unfold team_keeps, on, off. simpl.
    destruct (team_mode sb), (has_column df Caller),
      (fuzzy_match_any (get r Caller) B2C_TARGETS),
      (include_missing sb), (cell_isna (get r Caller));
      simpl; try reflexivity; try discriminate;
      rewrite ?orb_true_r; reflexivity. }
  assert (Hteam : forall r, In r (rows (df_team off df)) ->
                            In r (rows (df_team on df))).
  { intro r. rewrite !rows_df_team, !filter_In.
    intros [Hin Hk]. split; [exact Hin | now apply Hmono]. }
  split; [|split; [exact Hteam|split; [|split]]].
  - rewrite !team_mask_map, mask_for_targets_map, series_or_map.
    apply map_ext. intro r. unfold team_keeps, on, off. simpl.
    destruct (team_mode sb), (has_column d Caller),
      (fuzzy_match_any (get r Caller) B2C_TARGETS),
      (fuzzy_match_any (get r Caller) MTTEAM_TARGETS),
      (include_missing sb), (cell_isna (get r Caller)); reflexivity.
  - intro r. rewrite !rows_df_view, !rows_df_f, !rows_df_agents, !filter_In.
    intros [[[Hin Hk] Hl] Hm]. repeat split; try assumption.
    apply andb_true_iff in Hk. destruct Hk as [Hk1 Hk2].
    apply andb_true_iff. split; [now apply Hmono | exact Hk2].
  - intro r. rewrite !rows_df_team, !filter_In. intros [Hin Hk].
    unfold team_keeps, on, off in Hk |- *. simpl in Hk |- *.
    destruct (fuzzy_match_any (get r Caller) MTTEAM_TARGETS);
      [now right|]. left. split; [exact Hin|].
    rewrite andb_false_r in Hk. exact Hk.
  - intros am md th bd im sa sc st ss all.
    unfold df_team. rewrite team_mask_map.
    unfold loc. rewrite select_map.
    rewrite (filter_ext _ (fun _ => true)) by reflexivity.
    rewrite filter_all. apply frame_eta.
Qed.

(** A member of the B2C roster stays in the frame when the MT checkbox is
    ticked. *)
Lemma C8_witness :
  In Samples.ria (rows (df_team (Samples.b2c_sidebar true) Samples.team_frame)).
Proof.
  apply (proj1 (proj2 (C8_additive_flag_only_adds
                         (Samples.b2c_sidebar false) Samples.team_frame))).
  vm_compute. right. left. reflexivity.
Defined.

Lemma filter_keeps_present im col sel r a :
  get r col = Some a ->
  filter_keeps im true col (Some sel) r =
  ((List.length sel =? 0)%nat || mem a sel).
Proof.
  intro Hr. unfold filter_keeps. rewrite Hr.
  cbn [negb orb cell_isna astype_str]. now rewrite andb_false_r, orb_false_r.
Qed.

Lemma filter_keeps_missing col sel r :
  get r col = None -> filter_keeps true true col sel r = true.
Proof.
  intro Hr. unfold filter_keeps. rewrite Hr. destruct sel; [|reflexivity].
  cbn [cell_isna andb]. now rewrite orb_true_r.
Qed.

Lemma team_keeps_missing sb r :
  include_missing sb = true -> get r Caller = None ->
  team_keeps sb true r = true.
Proof.
  intros Him Hr. unfold team_keeps. rewrite Him, Hr.
  cbn [cell_isna andb]. now rewrite orb_true_r.
Qed.

Lemma team_keeps_all sb hc r :
  team_mode sb = All_agents -> team_keeps sb hc r = true.
Proof. intro H. unfold team_keeps. now rewrite H. Qed.

Lemma team_keeps_present_b2c sb r a :
  team_mode sb = B2C_team_only -> add_mt sb = false ->
  get r Caller = Some a ->
  team_keeps sb true r = fuzzy_match_any (Some a) B2C_TARGETS.
Proof.
  intros Htm Hmt Hr. unfold team_keeps. rewrite Htm, Hmt, Hr.
  cbn [cell_isna andb]. now rewrite andb_false_r, !orb_false_r.
Qed.

Lemma length_eqb_nonempty {A : Type} (l : list A) :
  l <> [] -> (List.length l =? 0)%nat = false.
Proof. destruct l; [contradiction | reflexivity]. Qed.

(** With one restriction at a time and [include_missing] on: a record
    without an agent passes the team mask and the agent filter; when the
    agent selection is the restriction (base "All agents", a non-empty
    selection) the records with an agent that stay are those whose agent
    is selected; when the team roster is the restriction (base "B2C team
    only", no MT flag, the selection constraining nothing) they are those
    whose agent matches the roster; a record whose agent is present and
    not selected, or present and outside the roster, is dropped. *)
Lemma agent_filter_one_restriction (sb : Sidebar) (df : Frame) :
  include_missing sb = true ->
  has_column df Caller = true ->
  let d := rows (df_dated sb df) in
  let out := rows (df_agents sb df) in
  (forall r, In r d -> get r Caller = None -> In r out)
  /\ (team_mode sb = All_agents ->
      forall sel, sel_agents sb = Some sel -> sel <> [] ->
      forall r a, get r Caller = Some a ->
                  (In r out <-> In r d /\ In a sel))
  /\ (team_mode sb = B2C_team_only -> add_mt sb = false ->
      Spec.agents_unrestricted (sel_agents sb) d ->
      forall r a, get r Caller = Some a ->
                  (In r out <->
                   In r d /\ fuzzy_match_any (Some a) B2C_TARGETS = true))
  /\ (forall sel, sel_agents sb = Some sel -> sel <> [] ->
      forall r a, get r Caller = Some a -> ~ In a sel -> ~ In r out)
  /\ (team_mode sb = B2C_team_only -> add_mt sb = false ->
      forall r a, get r Caller = Some a ->
                  fuzzy_match_any (Some a) B2C_TARGETS = false -> ~ In r out).
Proof.
  intros Him Hc d out. unfold out, d. clear out d.
  split; [|split; [|split; [|split]]].
  - intros r Hin Hr. rewrite rows_df_agents, filter_In. split; [exact Hin|].
    rewrite Hc, Him, (team_keeps_missing sb r Him Hr).
    now rewrite filter_keeps_missing.
  - intros Htm sel Hsel Hne r a Hr.
    rewrite rows_df_agents, filter_In, Hc, Hsel.
    rewrite (team_keeps_all sb true r Htm), (filter_keeps_present _ _ _ _ _ Hr).
    rewrite (length_eqb_nonempty sel Hne). simpl. now rewrite mem_In.
  - intros Htm Hmt Hun r a Hr.
    rewrite rows_df_agents, filter_In, Hc.
    rewrite (team_keeps_present_b2c sb r a Htm Hmt Hr). split.
    + intros [Hin Hk]. apply andb_true_iff in Hk. tauto.
    + intros [Hin Hk]. split; [exact Hin|]. rewrite Hk. simpl.
      destruct (sel_agents sb) as [sel|]; [|reflexivity].
      rewrite (filter_keeps_present _ _ _ _ _ Hr).
      destruct sel as [|x sel']; [reflexivity|].
      change (mem a (x :: sel') = true). apply mem_In.
      exact (Hun r a Hin Hr).
  - intros sel Hsel Hne r a Hr Hna.
    rewrite rows_df_agents, filter_In, Hc, Hsel.
    rewrite (filter_keeps_present _ _ _ _ _ Hr).
    rewrite (length_eqb_nonempty sel Hne). simpl.
    apply mem_false in Hna. rewrite Hna, andb_false_r. intros [_ H].
    discriminate.
  - intros Htm Hmt r a Hr Hna.
    rewrite rows_df_agents, filter_In, Hc.
    rewrite (team_keeps_present_b2c sb r a Htm Hmt Hr), Hna. simpl.
    intros [_ H]. discriminate.
Qed.

Lemma team_keeps_present sb r a :
  get r Caller = Some a ->
  team_keeps sb true r = true
  <-> Spec.passes_team (team_mode sb) (add_mt sb) a.
Proof.
  intro Hr. unfold team_keeps, Spec.passes_team. rewrite Hr.
  cbn [cell_isna andb]. rewrite andb_false_r, orb_false_r.
  destruct (team_mode sb), (add_mt sb),
    (fuzzy_match_any (Some a) B2C_TARGETS),
    (fuzzy_match_any (Some a) MTTEAM_TARGETS); cbn [orb andb];
    split; intro H; try reflexivity; try discriminate; try tauto;
    destruct H as [H | [H | [H1 H2]]]; discriminate.
Qed.

Lemma filter_keeps_present_iff im col sel r a :
  get r col = Some a ->
  filter_keeps im true col sel r = true <-> Spec.passes_selection sel a.
Proof.
  intro Hr. destruct sel as [s|]; [|simpl; tauto].
  rewrite (filter_keeps_present _ _ _ _ _ Hr).
  destruct s as [|x s']; [simpl; tauto|].
  change (mem a (x :: s') = true <-> In a (x :: s')). apply mem_In.
Qed.

(** C5, as stated, fails: under "B2C team only" with "Bob" selected, the
    call of Bob has a selected agent and is dropped all the same, because
    Bob matches no entry of the roster. *)
Lemma C5_counterexample :
  include_missing Samples.b2c_bob_sidebar = true
  /\ sel_agents Samples.b2c_bob_sidebar = Some [lit "Bob"]
  /\ In Samples.bob (rows (df_dated Samples.b2c_bob_sidebar Samples.team_frame))
  /\ get Samples.bob Caller = Some (lit "Bob")
  /\ ~ In Samples.bob
          (rows (df_agents Samples.b2c_bob_sidebar Samples.team_frame)).
Proof.
  split; [reflexivity|]. split; [reflexivity|].
  split; [right; right; left; reflexivity|].
  split; [reflexivity|]. vm_compute. intros [H | []]. discriminate.
Qed.

(** C5, amended. With [include_missing] on, the team mask followed by the
    agent filter keeps every record without an agent, and keeps a record
    with an agent exactly when the agent passes both: the team selection
    (base "All agents", or a match with the B2C roster, or with the MT
    roster when its checkbox is ticked) and the agent selection (the
    agent is selected, or the selection is empty or absent). A record
    whose agent is present and fails either of the two is dropped. *)
Theorem C5_include_missing_keeps_unattributed (sb : Sidebar) (df : Frame) :
  include_missing sb = true ->
  has_column df Caller = true ->
  let d := rows (df_dated sb df) in
  let out := rows (df_agents sb df) in
  (forall r, In r d -> get r Caller = None -> In r out)
  /\ (forall r a,
        get r Caller = Some a ->
        (In r out <->
         In r d
         /\ Spec.passes_team (team_mode sb) (add_mt sb) a
         /\ Spec.passes_selection (sel_agents sb) a)).
Proof.
  intros Him Hc d out. unfold out, d. clear out d. split.
  - intros r Hin Hr. rewrite rows_df_agents, filter_In. split; [exact Hin|].
    rewrite Hc, Him, (team_keeps_missing sb r Him Hr).
    now rewrite filter_keeps_missing.
  - intros r a Hr. rewrite rows_df_agents, filter_In, Hc, andb_true_iff.
    rewrite (team_keeps_present sb r a Hr).
    rewrite (filter_keeps_present_iff _ _ _ _ _ Hr). tauto.
Qed.

(** The call without an agent stays under "B2C team only" with "Bob"
    selected. *)
Lemma C5_witness :
  In Samples.unattributed
     (rows (df_agents Samples.b2c_bob_sidebar Samples.team_frame)).
Proof.
  apply (proj1 (C5_include_missing_keeps_unattributed
                  Samples.b2c_bob_sidebar Samples.team_frame
                  eq_refl eq_refl)).
  - left. reflexivity.
  - reflexivity.
Defined.

End Filters.

(** ** ColumnResolver (app_talktime.py) *)

Module ColumnFacts.
Import Py PyFloat StrFacts.
Import App_v1.

Lemma sdict_get_set d k v q :
  sdict_get (sdict_set d k v) q =
  if str_eqb q k then Some v else sdict_get d q.
Proof.
  induction d as [|[k' v'] r IH]; simpl.
  - reflexivity.
  - destruct (str_eqb k k') eqn:E; simpl.
    + apply str_eqb_eq in E. subst k'.
      destruct (str_eqb q k); reflexivity.
    + rewrite IH. destruct (str_eqb q k') eqn:E1; [|reflexivity].
      destruct (str_eqb q k) eqn:E2; [|reflexivity].
      apply str_eqb_eq in E1, E2. subst. now rewrite str_eqb_refl in E.
Qed.

(** An entry of the dict comes from a column with that lower-case name, or
    was there before. *)
Lemma lower_dict_sound columns : forall d q h,
  sdict_get (fold_left add_lower columns d) q = Some h ->
  (In h columns /\ lower h = q) \/ sdict_get d q = Some h.
Proof.
  induction columns as [|c r IH]; intros d q h H; simpl in H.
  - now right.
  - apply IH in H. destruct H as [[Hin Hl] | H].
    + left. split; [now right | exact Hl].
    + unfold add_lower in H. rewrite sdict_get_set in H.
      destruct (str_eqb q (lower c)) eqn:E.
      * injection H as <-. apply str_eqb_eq in E. left.
        split; [now left | now symmetry].
      * now right.
Qed.

Lemma lower_dict_keeps columns : forall d q,
  sdict_get d q <> None -> sdict_get (fold_left add_lower columns d) q <> None.
Proof.
  induction columns as [|c r IH]; intros d q H; simpl; [exact H|].
  apply IH. unfold add_lower. rewrite sdict_get_set.
  destruct (str_eqb q (lower c)); [discriminate | exact H].
Qed.

Lemma lower_dict_complete columns : forall d q h,
  In h columns -> lower h = q ->
  sdict_get (fold_left add_lower columns d) q <> None.
Proof.
  induction columns as [|c r IH]; intros d q h Hin Hl; [contradiction|].
  simpl. destruct Hin as [-> | Hin].
  - apply lower_dict_keeps. unfold add_lower. rewrite sdict_get_set.
    rewrite <- Hl, str_eqb_refl. discriminate.
  - now apply (IH _ q h).
Qed.

Lemma lower_dict_get columns q h :
  sdict_get (lower_dict columns) q = Some h -> In h columns /\ lower h = q.
Proof.
  intro H. apply lower_dict_sound in H. destruct H as [H | H];
    [exact H | discriminate].
Qed.

Lemma first_exact_skip columns pre : forall rest,
  (forall x, In x pre -> ~ In x columns) ->
  first_exact columns (pre ++ rest) = first_exact columns rest.
Proof.
  induction pre as [|p ps IH]; intros rest H; simpl; [reflexivity|].
  assert (E : mem p columns = false) by (apply mem_false, H; now left).
  rewrite E. apply IH. intros x Hx. apply H. now right.
Qed.

Lemma first_exact_none columns candidates :
  (forall x, In x candidates -> ~ In x columns) ->
  first_exact columns candidates = None.
Proof.
  intro H. rewrite <- (app_nil_r candidates). now rewrite first_exact_skip.
Qed.

Lemma first_lower_skip d pre : forall rest,
  (forall x, In x pre -> sdict_get d (lower x) = None) ->
  first_lower d (pre ++ rest) = first_lower d rest.
Proof.
  induction pre as [|p ps IH]; intros rest H; simpl; [reflexivity|].
  rewrite (H p) by now left. apply IH. intros x Hx. apply H. now right.
Qed.

Lemma lower_dict_none columns q :
  (forall h, In h columns -> lower h <> q) ->
  sdict_get (lower_dict columns) q = None.
Proof.
  intro H. destruct (sdict_get (lower_dict columns) q) as [h|] eqn:E;
    [|reflexivity].
  apply lower_dict_get in E. destruct E as [Hin Hl]. now destruct (H h Hin).
Qed.

(** C7, as stated, fails: an override that is not among the headers is
    used all the same, where the wording falls back to the aliases. *)
Lemma C7_counterexample :
  mem (lit "Foo") [lit "Owner"] = false
  /\ agent_col (lit "Foo") [lit "Owner"] = Some (lit "Foo")
  /\ Spec.resolve_as_worded (lit "Foo") [lit "Owner"] agent_aliases
     = Some (lit "Owner").
Proof. repeat split; vm_compute; reflexivity. Qed.

(** C7, amended. Each role resolves like this: an override that is
    supplied (not empty) is used as the column, whether or not it is a
    header; without an override the first alias that is a header is used;
    failing that, the first alias that equals a header up to case gives
    that header; failing that, the role is unresolved. *)
Theorem C7_resolve_override_then_aliases (override : str)
        (header aliases : list str) :
  (override <> [] -> resolve override header aliases = Some override)
  /\ (override = [] ->
      resolve override header aliases = _coalesce_column header aliases)
  /\ (forall pre c post,
        aliases = pre ++ c :: post ->
        (forall x, In x pre -> ~ In x header) ->
        In c header ->
        _coalesce_column header aliases = Some c)
  /\ ((forall x, In x aliases -> ~ In x header) ->
      forall pre c post,
        aliases = pre ++ c :: post ->
        (forall x h, In x pre -> In h header -> ~ Spec.same_lower h x) ->
        (exists h, In h header /\ Spec.same_lower h c) ->
        exists h, _coalesce_column header aliases = Some h
                  /\ In h header /\ Spec.same_lower h c)
  /\ ((forall x h, In x aliases -> In h header -> ~ Spec.same_lower h x) ->
      _coalesce_column header aliases = None).
Proof.
  split; [|split; [|split; [|split]]].
  - intro H. unfold resolve. destruct override; [contradiction | reflexivity].
  - intros ->. reflexivity.
  - intros pre c post -> Hpre Hc. unfold _coalesce_column.
    rewrite first_exact_skip by exact Hpre. simpl.
    apply mem_In in Hc. now rewrite Hc.
  - intros Hex pre c post E Hpre (h & Hh & Hl). unfold _coalesce_column.
    rewrite (first_exact_none _ _ Hex). rewrite E.
    rewrite first_lower_skip.
    2:{ intros x Hx. apply lower_dict_none. intros h' Hh'.
        exact (Hpre x h' Hx Hh'). }
    simpl. destruct (sdict_get (lower_dict header) (lower c)) as [h'|] eqn:Eg.
    + exists h'. split; [reflexivity|]. now apply lower_dict_get.
    + exfalso. exact (lower_dict_complete header [] (lower c) h Hh Hl Eg).
  - intro Hno. unfold _coalesce_column.
    rewrite first_exact_none.
    2:{ intros x Hx Hin. exact (Hno x x Hx Hin eq_refl). }
    rewrite <- (app_nil_r aliases). rewrite first_lower_skip; [reflexivity|].
    intros x Hx. apply lower_dict_none. intros h Hh. exact (Hno x h Hx Hh).
Qed.

(** The header "owner" resolves the agent role through the second,
    case-insensitive pass. *)
Lemma C7_witness :
  exists h, _coalesce_column [lit "Notes"; lit "owner"] agent_aliases = Some h
            /\ In h [lit "Notes"; lit "owner"]
            /\ Spec.same_lower h (lit "Owner").
Proof.
  apply (proj1 (proj2 (proj2 (proj2
           (C7_resolve_override_then_aliases [] [lit "Notes"; lit "owner"]
                                             agent_aliases))))
         ) with (pre := []) (post := tl agent_aliases).
  - intros x Hx Hin. vm_compute in Hx, Hin.
    repeat (destruct Hx as [<- | Hx];
            [now repeat destruct Hin as [Hin | Hin] |]).
    exact Hx.
  - reflexivity.
  - intros x h [].
  - exists (lit "owner"). split; [right; left; reflexivity | reflexivity].
Defined.

End ColumnFacts.

(** ** TemporalResolver: the day-first / month-first decision *)

Module DateFacts.
Import Py PyFloat.
Import App_v3_6.

Section Column.
Variable T : Type.
Variable to_datetime : bool -> list cell -> list (option T).

(** [pd.to_datetime] returns a Series over the index of its argument. *)
Hypothesis to_datetime_length :
  forall dayfirst series,
    List.length (to_datetime dayfirst series) = List.length series.

Lemma notna_plus_failures (d : list (option T)) :
  notna_sum T d + failures T d = Z.of_nat (List.length d).
Proof.
  unfold notna_sum, failures. induction d as [|x r IH]; [reflexivity|].
  cbn [filter List.length]. destruct (notna T x); cbn [negb List.length]; lia.
Qed.

(** C9, amended. [parse_date_best] of v3.6 parses the column day first
    and month first and returns one of the two parsed columns whole: the
    one with fewer failures when the counts differ, the day-first one on
    a tie. [combine_date_time] of v2 does not choose: its date column is
    the month-first parse, whatever the failures. *)
Theorem C9_parse_date_best_is_column_level (series : list cell) :
  let d1 := to_datetime true series in
  let d2 := to_datetime false series in
  (parse_date_best T to_datetime series = d1
   \/ parse_date_best T to_datetime series = d2)
  /\ (failures T d1 < failures T d2 ->
      parse_date_best T to_datetime series = d1)
  /\ (failures T d2 < failures T d1 ->
      parse_date_best T to_datetime series = d2)
  /\ (failures T d1 = failures T d2 ->
      parse_date_best T to_datetime series = d1)
  /\ App_v2.dt_date to_datetime series = d2.
Proof.
  intros d1 d2.
  pose proof (notna_plus_failures d1) as H1.
  pose proof (notna_plus_failures d2) as H2.
  unfold d1 in H1 at 3. unfold d2 in H2 at 3.
  rewrite to_datetime_length in H1, H2.
  unfold parse_date_best. fold d1 d2.
  destruct (Z.leb_spec (notna_sum T d2) (notna_sum T d1)) as [Hle | Hlt].
  - repeat split; try (now left); try reflexivity. intro. lia.
  - repeat split; try (now right); try reflexivity; intro; lia.
Qed.

End Column.

Lemma slash_to_datetime_length dayfirst series :
  List.length (Samples.slash_to_datetime dayfirst series) = List.length series.
Proof. apply length_map. Qed.

(** C9, as stated, fails for [combine_date_time] of v2: on the column
    ["01/02/2024"; "25/03/2024"] the day-first parse has no failure and
    the month-first parse has one, and the date column of v2 is the
    month-first parse, with its missing date. *)
Lemma C9_counterexample :
  failures Date (Samples.slash_to_datetime true Samples.february_then_march)
  = 0
  /\ failures Date
       (Samples.slash_to_datetime false Samples.february_then_march) = 1
  /\ App_v2.dt_date Samples.slash_to_datetime Samples.february_then_march
     = [Some (mkDate 2024 1 2); None]
  /\ ~ Spec.picks_fewer_failures
         (Samples.slash_to_datetime true Samples.february_then_march)
         (Samples.slash_to_datetime false Samples.february_then_march)
         (App_v2.dt_date Samples.slash_to_datetime
                         Samples.february_then_march).
Proof.
  split; [vm_compute; reflexivity|]. split; [vm_compute; reflexivity|].
  split; [vm_compute; reflexivity|].
  intros [H _].
  assert (E : failures Date
                (Samples.slash_to_datetime true Samples.february_then_march)
              < failures Date
                  (Samples.slash_to_datetime false
                     Samples.february_then_march))
    by (vm_compute; reflexivity).
  specialize (H E). vm_compute in H. discriminate H.
Qed.

(** On the column ["01/02/2024"; "25/03/2024"] month first fails once and
    day first never: v3.6 chooses the day-first column. *)
Lemma C9_witness :
  parse_date_best Date Samples.slash_to_datetime Samples.february_then_march
  = [Some (mkDate 2024 2 1); Some (mkDate 2024 3 25)].
Proof.
  rewrite (proj1 (proj2 (C9_parse_date_best_is_column_level
                           Date Samples.slash_to_datetime
                           slash_to_datetime_length
                           Samples.february_then_march))).
  - vm_compute. reflexivity.
  - vm_compute. reflexivity.
Defined.

End DateFacts.

(** ** Sorting and grouping *)

Module GroupFacts.
Import Py PyFloat StrFacts PandasFacts.

Lemma insert_by_perm {A : Type} (lt : A -> A -> bool) (x : A) (l : list A) :
  Permutation (insert_by lt x l) (x :: l).
Proof.
  induction l as [|y r IH]; simpl; [apply Permutation_refl|].
  destruct (lt y x); [|apply Permutation_refl].
  apply perm_trans with (y :: x :: r); [now apply perm_skip | apply perm_swap].
Qed.

Lemma sort_by_perm {A : Type} (lt : A -> A -> bool) (l : list A) :
  Permutation (sort_by lt l) l.
Proof.
  induction l as [|x r IH]; simpl; [apply perm_nil|].
  apply perm_trans with (x :: sort_by lt r);
    [apply insert_by_perm | now apply perm_skip].
Qed.

Lemma In_sort_by {A : Type} (lt : A -> A -> bool) (l : list A) (x : A) :
  In x (sort_by lt l) <-> In x l.
Proof.
  split; apply Permutation_in;
    [apply sort_by_perm | apply Permutation_sym, sort_by_perm].
Qed.

Section Unique.
Variable A : Type.
Variable eqb : A -> A -> bool.
Hypothesis eqb_eq : forall a b, eqb a b = true <-> a = b.

Lemma In_unique (l : list A) (x : A) : In x (unique eqb l) <-> In x l.
Proof.
  induction l as [|y r IH]; simpl; [tauto|].
  rewrite filter_In, IH. split.
  - intros [-> | [H _]]; [now left | now right].
  - intros [-> | H]; [now left|].
    destruct (eqb y x) eqn:E.
    + apply eqb_eq in E. now left.
    + right. now split.
Qed.

Lemma NoDup_unique (l : list A) : NoDup (unique eqb l).
Proof.
  induction l as [|y r IH]; simpl; constructor.
  - rewrite filter_In. intros [_ H].
    assert (E : eqb y y = true) by now apply eqb_eq.
    rewrite E in H. discriminate.
  - now apply NoDup_filter.
Qed.

End Unique.

Lemma NoDup_sort_by {A : Type} (lt : A -> A -> bool) (l : list A) :
  NoDup l -> NoDup (sort_by lt l).
Proof.
  intro H. apply (Permutation_NoDup (l := l)); [|exact H].
  apply Permutation_sym, sort_by_perm.
Qed.

Lemma sumZ_ext {K : Type} (f g : K -> Z) ks :
  (forall k, f k = g k) -> sumZ f ks = sumZ g ks.
Proof.
  intro H. induction ks as [|k ks IH]; [reflexivity|].
  change (f k + sumZ f ks = g k + sumZ g ks). now rewrite H, IH.
Qed.

Lemma sumZ_add {K : Type} (f g : K -> Z) ks :
  sumZ (fun k => f k + g k) ks = sumZ f ks + sumZ g ks.
Proof.
  induction ks as [|k ks IH]; [reflexivity|].
  change (f k + g k + sumZ (fun k => f k + g k) ks
          = f k + sumZ f ks + (g k + sumZ g ks)).
  rewrite IH. lia.
Qed.


(** Elements sorted into classes by a key: the classes of a list of keys
    without repetition that holds every key split the elements. *)
Section Partition.
Variables A K : Type.
Variable eqb : K -> K -> bool.
Hypothesis eqb_eq : forall a b, eqb a b = true <-> a = b.
Variable kf : A -> K.

Lemma indicator_out k0 (c : bool) ks :
  ~ In k0 ks -> sumZ (fun k => if eqb k0 k && c then 1 else 0) ks = 0.
Proof.
  induction ks as [|k ks IH]; intro H; [reflexivity|].
  change (sumZ ?f (k :: ks)) with (f k + sumZ f ks). cbv beta.
  rewrite IH by (intro; apply H; now right).
  destruct (eqb k0 k) eqn:E; [|reflexivity].
  apply eqb_eq in E. exfalso. apply H. now left.
Qed.

Lemma indicator_in k0 (c : bool) ks :
  NoDup ks -> In k0 ks ->
  sumZ (fun k => if eqb k0 k && c then 1 else 0) ks = if c then 1 else 0.
Proof.
  induction 1 as [|k ks Hk Hnd IH]; intro Hin; [contradiction|].
  change (sumZ ?f (k :: ks)) with (f k + sumZ f ks). cbv beta.
  destruct (eqb k0 k) eqn:E.
  - apply eqb_eq in E. subst k. rewrite (indicator_out k0 c ks Hk).
    simpl. destruct c; reflexivity.
  - destruct Hin as [-> | Hin].
    + rewrite (proj2 (eqb_eq _ _) eq_refl) in E. discriminate.
    + rewrite (IH Hin). reflexivity.
Qed.

Lemma partition_count (P : A -> bool) ks xs :
  NoDup ks ->
  (forall x, In x xs -> In (kf x) ks) ->
  sumZ (fun k => Z.of_nat (List.length
                   (filter (fun x => eqb (kf x) k && P x) xs))) ks
  = Z.of_nat (List.length (filter P xs)).
Proof.
  intros Hnd. induction xs as [|x xs IH]; intro Hin.
  - clear. induction ks as [|k ks IH]; [reflexivity|].
    change (sumZ ?f (k :: ks)) with (f k + sumZ f ks). now rewrite IH.
  - rewrite (sumZ_ext _
               (fun k => (if eqb (kf x) k && P x then 1 else 0)
                         + Z.of_nat (List.length
                             (filter (fun y => eqb (kf y) k && P y) xs)))).
    + rewrite sumZ_add, IH by (intros y Hy; apply Hin; now right).
      rewrite (indicator_in _ _ _ Hnd (Hin x (or_introl eq_refl))).
      cbn [filter]. destruct (P x); cbn [List.length]; lia.
    + intro k. cbn [filter].
      destruct (eqb (kf x) k && P x); cbn [List.length]; lia.
Qed.

End Partition.

Lemma In_hours_of rs h :
  In h (hours_of rs) <-> exists r, In r rs /\ _hour r = Some h.
Proof.
  unfold hours_of. rewrite in_flat_map. split.
  - intros (r & Hr & Hh). exists r. split; [exact Hr|].
    destruct (_hour r) as [h'|]; [|contradiction].
    destruct Hh as [-> | []]. reflexivity.
  - intros (r & Hr & Hh). exists r. split; [exact Hr|]. rewrite Hh. now left.
Qed.

Lemma In_dropna_hour rs r :
  In r (dropna_hour rs) <-> In r rs /\ _hour r <> None.
Proof.
  unfold dropna_hour. rewrite filter_In.
  destruct (_hour r); split; intros [H1 H2]; split;
    try assumption; try discriminate; try reflexivity. now contradiction H2.
Qed.

Lemma calls_at_hour_dropna h rs :
  Spec.calls_at_hour h (dropna_hour rs) = Spec.calls_at_hour h rs.
Proof.
  unfold Spec.calls_at_hour, dropna_hour. rewrite filter_filter.
  f_equal. f_equal. apply filter_ext. intro r.
  destruct (_hour r); reflexivity.
Qed.

Lemma Z_eqb_eq a b : (a =? b) = true <-> a = b.
Proof. apply Z.eqb_eq. Qed.

(** The attempts table has one line per hour present, and the line of
    hour [h] counts the rows at hour [h]. *)
Lemma size_by_hour_spec rs h :
  (forall n, In (h, n) (size_by_hour rs) -> n = Spec.calls_at_hour h rs)
  /\ (forall r, In r rs -> _hour r = Some h ->
                In (h, Spec.calls_at_hour h rs) (size_by_hour rs)).
Proof.
  unfold size_by_hour. split.
  - intros n H. apply in_map_iff in H. destruct H as (h' & E & _).
    injection E as -> <-. unfold agg_size.
    now rewrite <- calls_at_hour_dropna.
  - intros r Hr Hh. apply in_map_iff. exists h. split.
    + unfold agg_size. now rewrite <- calls_at_hour_dropna.
    + apply In_sort_by. apply (In_unique _ _ Z_eqb_eq).
      apply In_hours_of. exists r. split; [|exact Hh].
      apply In_dropna_hour. split; [exact Hr|]. now rewrite Hh.
Qed.

Lemma size_by_hour_hours_nodup rs : NoDup (map fst (size_by_hour rs)).
Proof.
  unfold size_by_hour. rewrite map_map. simpl. rewrite map_id.
  apply NoDup_sort_by. apply (NoDup_unique _ _ Z_eqb_eq).
Qed.


End GroupFacts.

(** ** Attempts against talktime *)

Module AttemptsFacts.
Import Py PyFloat StrFacts PandasFacts GroupFacts.

Lemma filter_id {A : Type} (p : A -> bool) (l : list A) :
  (forall x, In x l -> p x = true) -> filter p l = l.
Proof.
  induction l as [|x r IH]; intro H; [reflexivity|].
  simpl. rewrite (H x (or_introl eq_refl)). f_equal.
  apply IH. intros y Hy. apply H. now right.
Qed.






End AttemptsFacts.

(** ** NameMatcher *)

Module NameFacts.
Import Py PyFloat StrFacts.
Import Names.

Lemma is_empty_nil s : is_empty s = true <-> s = [].
Proof. destruct s; simpl; split; intro H; try reflexivity; discriminate. Qed.

Lemma is_empty_false s : is_empty s = false <-> s <> [].
Proof.
  destruct s; simpl; split; intro H; try reflexivity; try discriminate.
  now contradiction H.
Qed.

(** [s.split()] never yields an empty token. *)
Lemma split_go_tokens s : forall cur tok,
  In tok (split_go cur s) -> tok <> [].
Proof.
  assert (Hrev : forall (c : ascii) cur, rev (c :: cur) <> []).
  { intros c cur E. apply (f_equal (@List.length _)) in E.
    rewrite length_rev in E. discriminate. }
  induction s as [|c r IH]; intros cur tok H; simpl in H.
  - destruct cur as [|x cur]; [contradiction|].
    destruct H as [<- | []]. apply Hrev.
  - destruct (isspace c).
    + destruct cur as [|x cur]; [now apply (IH [])|].
      destruct H as [<- | H]; [apply Hrev | now apply (IH [])].
    + now apply (IH (c :: cur)).
Qed.

Lemma split_tokens s tok : In tok (split s) -> tok <> [].
Proof. apply split_go_tokens. Qed.

Lemma token_test n t :
  existsb (fun tok => negb (is_empty tok) && contains tok n) (split t) = true
  <-> exists tok, In tok (split t) /\ Spec.substring tok n.
Proof.
  rewrite existsb_exists. split.
  - intros (tok & Hin & H). apply andb_true_iff in H. destruct H as [_ H].
    exists tok. split; [exact Hin | now apply contains_substring].
  - intros (tok & Hin & H). exists tok. split; [exact Hin|].
    apply andb_true_iff. split.
    + apply negb_true_iff, is_empty_false. now apply (split_tokens t).
    + now apply contains_substring.
Qed.

Lemma match_targets_spec n targets_norm :
  match_targets n targets_norm = true
  <-> exists t, In t targets_norm /\ Spec.entry_matches n t.
Proof.
  induction targets_norm as [|t rest IH]; simpl.
  - split; [discriminate | intros (t & [] & _)].
  - destruct (is_empty t) eqn:Et.
    + rewrite IH. apply is_empty_nil in Et. split.
      * intros (u & Hu & Hm). exists u. split; [now right | exact Hm].
      * intros (u & [<- | Hu] & Hm); [now destruct Hm | now exists u].
    + apply is_empty_false in Et.
      destruct (contains t n || contains n t) eqn:E1.
      { split; [intros _ | reflexivity]. exists t. split; [now left|].
        split; [exact Et|]. apply orb_true_iff in E1.
        destruct E1 as [E1 | E1]; apply contains_substring in E1; tauto. }
      destruct (existsb _ (split t)) eqn:E2.
      { split; [intros _ | reflexivity]. exists t. split; [now left|].
        split; [exact Et|]. apply token_test in E2. tauto. }
      destruct (geb (Difflib.ratio n t) ratio_cut) eqn:E3.
      { split; [intros _ | reflexivity]. exists t. split; [now left|].
        split; [exact Et|]. tauto. }
      rewrite IH. split.
      * intros (u & Hu & Hm). exists u. split; [now right | exact Hm].
      * intros (u & [<- | Hu] & Hm); [|now exists u]. exfalso.
        apply orb_false_iff in E1. destruct E1 as [E1a E1b].
        destruct Hm as (_ & [H | [H | [H | H]]]).
        -- apply contains_substring in H. congruence.
        -- apply contains_substring in H. congruence.
        -- apply token_test in H. congruence.
        -- congruence.
Qed.

(** C4, as stated, fails: "jay" is a token of the roster entry "jay
    nayak" and occurs inside the name "Jayant" without being one of its
    tokens; the code matches, the wording does not. *)
Lemma C4_counterexample :
  is_member (Some (lit "Jayant")) [lit "jay nayak"] = true
  /\ Spec.is_member_as_worded (Some (lit "Jayant")) [lit "jay nayak"] = false.
Proof. split; vm_compute; reflexivity. Qed.

(** C4, amended. [is_member] answers true exactly when the normalised
    name is not empty and some roster entry with a non-empty normalised
    form [t] has [t] as a substring of the name or the name as a
    substring of [t], or a whitespace-delimited token of [t] occurring as
    a substring of the name, or a similarity ratio of at least 0.85; a
    name whose normalisation is empty matches no roster; and the three
    examples hold. *)
Theorem C4_is_member_substring_token_or_ratio :
  (forall raw_name roster,
     is_member raw_name roster = true
     <-> norm_name raw_name <> []
         /\ exists entry,
              In entry roster
              /\ Spec.entry_matches (norm_name raw_name)
                                    (norm_name (Some entry)))
  /\ (forall raw_name roster,
        norm_name raw_name = [] -> is_member raw_name roster = false)
  /\ is_member (Some (lit "Ayushman Jetlearn")) [lit "ayushman jetlearn"] = true
  /\ is_member (Some (lit "Ayushman J")) [lit "ayushman jetlearn"] = true
  /\ (forall roster, is_member (Some (lit "")) roster = false)
  /\ (forall roster, is_member None roster = false).
Proof.
  split; [|split; [|split; [|split; [|split]]]].
  - intros raw_name roster. unfold is_member, fuzzy_match_any.
    destruct (is_empty (norm_name raw_name)) eqn:En.
    + apply is_empty_nil in En. split; [discriminate | now intros [H _]].
    + apply is_empty_false in En. rewrite match_targets_spec. split.
      * intros (t & Ht & Hm). split; [exact En|].
        apply in_map_iff in Ht. destruct Ht as (entry & <- & Hin).
        now exists entry.
      * intros (_ & entry & Hin & Hm). exists (norm_name (Some entry)).
        split; [|exact Hm]. apply in_map_iff. now exists entry.
  - intros raw_name roster H. unfold is_member, fuzzy_match_any.
    now rewrite H.
  - vm_compute. reflexivity.
  - vm_compute. reflexivity.
  - intro roster. reflexivity.
  - intro roster. reflexivity.
Qed.

(** The name "Jayant" is a member of the roster ["jay nayak"], through
    the token "jay". *)
Lemma C4_witness :
  norm_name (Some (lit "Jayant")) <> []
  /\ exists entry,
       In entry [lit "jay nayak"]
       /\ Spec.entry_matches (norm_name (Some (lit "Jayant")))
                        (norm_name (Some entry)).
Proof.
  apply (proj1 (proj1 C4_is_member_substring_token_or_ratio
                      (Some (lit "Jayant")) [lit "jay nayak"])).
  vm_compute. reflexivity.
Defined.

End NameFacts.

(** ** AggregationEngine *)

Module AggregationFacts.
Import Py PyFloat StrFacts PandasFacts GroupFacts.
Import App_v3_6.

Lemma cell_eqb_eq x y : cell_eqb x y = true <-> x = y.
Proof.
  destruct x as [s|], y as [t|]; simpl; split; intro H;
    try reflexivity; try discriminate.
  - apply str_eqb_eq in H. now subst.
  - injection H as ->. apply str_eqb_refl.
Qed.

Lemma key_eqb_eq k1 : forall k2, key_eqb k1 k2 = true <-> k1 = k2.
Proof.
  induction k1 as [|x r IH]; intros [|y r']; simpl; split; intro H;
    try reflexivity; try discriminate.
  - apply andb_true_iff in H. destruct H as [H1 H2].
    apply cell_eqb_eq in H1. apply IH in H2. now subst.
  - injection H as -> ->. apply andb_true_iff. split.
    + now apply cell_eqb_eq.
    + now apply IH.
Qed.

Lemma In_group_keys dims rs k :
  In k (group_keys dims rs) <-> exists r, In r rs /\ key_of dims r = k.
Proof.
  unfold group_keys. rewrite In_sort_by, (In_unique _ _ key_eqb_eq), in_map_iff.
  split; intros (r & H1 & H2); exists r; tauto.
Qed.

Lemma NoDup_group_keys dims rs : NoDup (group_keys dims rs).
Proof. apply NoDup_sort_by, (NoDup_unique _ _ key_eqb_eq). Qed.

Lemma key_summarize dims rs k : key (summarize dims rs k) = k.
Proof. reflexivity. Qed.

Lemma agg_summary_perm df dims :
  Permutation (agg_summary df dims)
              (map (summarize dims (rows df)) (group_keys dims (rows df))).
Proof. apply sort_by_perm. Qed.

Lemma keys_agg_summary_perm df dims :
  Permutation (map key (agg_summary df dims)) (group_keys dims (rows df)).
Proof.
  apply perm_trans with
    (map key (map (summarize dims (rows df)) (group_keys dims (rows df)))).
  - apply Permutation_map, agg_summary_perm.
  - rewrite map_map. rewrite (map_ext _ (fun k => k)) by reflexivity.
    rewrite map_id. apply Permutation_refl.
Qed.

(** The summary has one line per distinct key of the input, a missing
    value included, and no key twice. *)
Lemma agg_summary_one_line_per_group df dims :
  NoDup (map key (agg_summary df dims))
  /\ forall k, In k (map key (agg_summary df dims))
               <-> exists r, In r (rows df) /\ key_of dims r = k.
Proof.
  split.
  - apply (Permutation_NoDup (l := group_keys dims (rows df))).
    + apply Permutation_sym, keys_agg_summary_perm.
    + apply NoDup_group_keys.
  - intro k. rewrite <- In_group_keys. split; apply Permutation_in.
    + apply keys_agg_summary_perm.
    + apply Permutation_sym, keys_agg_summary_perm.
Qed.

Lemma total_calls_perm l l' :
  Permutation l l' -> total_calls l = total_calls l'.
Proof. induction 1; simpl; lia. Qed.

Lemma agg_count_rows rs :
  agg_count (map _duration_sec rs)
  = Z.of_nat (List.length (filter has_duration rs)).
Proof.
  unfold agg_count, dropna. f_equal. induction rs as [|r rs IH]; [reflexivity|].
  simpl. unfold has_duration at 1. destruct (isnan (_duration_sec r)); simpl;
    now rewrite IH.
Qed.

(** The groups of a list of keys without repetition that holds every key
    of [rs] split the rows that satisfy [P]. *)
Lemma groups_partition dims (P : Row -> bool) ks rs :
  NoDup ks ->
  (forall r, In r rs -> In (key_of dims r) ks) ->
  sumZ (group_count dims P rs) ks = Z.of_nat (List.length (filter P rs)).
Proof.
  intros Hnd Hin.
  rewrite <- (partition_count _ _ key_eqb key_eqb_eq (key_of dims) P ks rs
                              Hnd Hin).
  apply sumZ_ext. intro k. unfold group_count, group_rows.
  now rewrite filter_filter.
Qed.

(** The column ["Total Calls"] adds up to the number of rows with a
    duration, not to the number of rows. *)
Lemma agg_summary_counts_add_up df dims :
  total_calls (agg_summary df dims)
  = Z.of_nat (List.length (filter has_duration (rows df))).
Proof.
  rewrite (total_calls_perm _ _ (agg_summary_perm df dims)).
  rewrite <- (groups_partition dims has_duration (group_keys dims (rows df))).
  - induction (group_keys dims (rows df)) as [|k ks IH]; [reflexivity|].
    change (sumZ ?f (k :: ks)) with (f k + sumZ f ks). rewrite <- IH.
    cbn [map total_calls fold_right]. f_equal. apply agg_count_rows.
  - apply NoDup_group_keys.
  - intros r Hr. apply In_group_keys. now exists r.
Qed.

(** The sizes of the groups do add up to the number of rows. *)
Lemma group_sizes_add_up df dims :
  sumZ (fun k => agg_size (group_rows dims (rows df) k))
       (group_keys dims (rows df))
  = Z.of_nat (nrows df).
Proof.
  unfold nrows.
  replace (List.length (rows df))
    with (List.length (filter (fun _ => true) (rows df)))
    by now rewrite filter_all.
  rewrite <- (groups_partition dims (fun _ => true)
                               (group_keys dims (rows df))).
  - apply sumZ_ext. intro k. unfold group_count, agg_size.
    now rewrite filter_all.
  - apply NoDup_group_keys.
  - intros r Hr. apply In_group_keys. now exists r.
Qed.

(** C1 on the code: agent A has two calls, one of them with a duration
    that did not parse, and every call is asked for. The agent-wise table
    has the single line of A, with sum, mean and median 60 over the one
    parsed duration, and its "Total Calls" is 1: the call without a
    duration is not counted, so the counts add up to 1 while the frame has
    2 rows and the KPI card "Total Calls" shows 2. *)
Theorem C1_count_leaves_out_rows_without_duration :
  nrows Samples.two_calls_one_unparsed = 2%nat
  /\ kpi_total_calls Samples.all_calls_sidebar Samples.two_calls_one_unparsed
     = 2
  /\ agent_wise Samples.all_calls_sidebar Samples.two_calls_one_unparsed
     = Some [mkSummary [Some (lit "A")] 1 (of_Z 60) (of_Z 60) (of_Z 60)]
  /\ total_calls (agg_summary Samples.two_calls_one_unparsed [Caller]) = 1.
Proof. repeat split; vm_compute; reflexivity. Qed.

End AggregationFacts.

(** ** SequenceMatcher: the loop of [get_matching_blocks] ends *)

Module DifflibFacts.
Import Py PyFloat.
Import Difflib.

Section Bounds.
Variables a b : str.

Lemma fits_weaken alo hi hi' m : hi <= hi' -> fits alo hi m -> fits alo hi' m.
Proof. destruct m as [[i j] k]. unfold fits. lia. Qed.

Lemma scan_row_inv i alo blo bhi j2len :
  lengths_upto j2len (i - alo) ->
  forall js newj2len best,
    lengths_upto newj2len (i - alo + 1) ->
    fits alo (i + 1) best ->
    lengths_upto (fst (scan_row i blo bhi js j2len newj2len best))
                 (i - alo + 1)
    /\ fits alo (i + 1) (snd (scan_row i blo bhi js j2len newj2len best)).
Proof.
  intros Hd. induction js as [|j r IH]; intros new best Hn Hb; simpl.
  - now split.
  - destruct (j <? blo); [now apply IH|].
    destruct (bhi <=? j); [now split|].
    pose proof (Hd (j - 1)) as Hk.
    apply IH.
    + intro q. unfold dict_set. simpl.
      destruct (q =? j); [lia | apply Hn].
    + destruct (size best <? dict_get j2len (j - 1) 0 + 1); [|exact Hb].
      unfold fits. lia.
Qed.

Lemma scan_rows_inv alo blo bhi n : forall i j2len best,
  alo <= i ->
  lengths_upto j2len (i - alo) ->
  fits alo i best ->
  fits alo (i + Z.of_nat n) (scan_rows a b n i blo bhi j2len best).
Proof.
  induction n as [|n IH]; intros i j2len best Hi Hd Hb.
  - simpl. now rewrite Z.add_0_r.
  - cbn [scan_rows].
    pose proof (scan_row_inv i alo blo bhi j2len Hd
                  (b2j b (at_ a i)) [] best) as H.
    destruct (scan_row i blo bhi (b2j b (at_ a i)) j2len [] best)
      as [new best'].
    destruct H as [Hn Hb'].
    + intro q. simpl. lia.
    + apply (fits_weaken alo i); [lia | exact Hb].
    + replace (i + Z.of_nat (S n)) with ((i + 1) + Z.of_nat n) by lia.
      apply IH; [lia | | exact Hb'].
      replace (i + 1 - alo) with (i - alo + 1) by lia. exact Hn.
Qed.

Lemma extend_left_inv alo blo hi n : forall best,
  fits alo hi best -> fits alo hi (extend_left a b n alo blo best).
Proof.
  induction n as [|n IH]; intros [[i j] k] H; [exact H|].
  cbn [extend_left].
  destruct ((alo <? i) && (blo <? j)
            && chr_eqb (at_ a (i - 1)) (at_ b (j - 1))) eqn:E; [|exact H].
  apply IH. apply andb_true_iff in E. destruct E as [E _].
  apply andb_true_iff in E. destruct E as [E _]. apply Z.ltb_lt in E.
  unfold fits in *. lia.
Qed.

Lemma extend_right_inv alo ahi bhi n : forall best,
  fits alo ahi best -> fits alo ahi (extend_right a b n ahi bhi best).
Proof.
  induction n as [|n IH]; intros [[i j] k] H; [exact H|].
  cbn [extend_right].
  destruct ((i + k <? ahi) && (j + k <? bhi)
            && chr_eqb (at_ a (i + k)) (at_ b (j + k))) eqn:E; [|exact H].
  apply IH. apply andb_true_iff in E. destruct E as [E _].
  apply andb_true_iff in E. destruct E as [E _]. apply Z.ltb_lt in E.
  unfold fits in *. lia.
Qed.

(** The two extension loops have left their [while] when the rounds
    granted to them are over. *)
Lemma extend_left_exit alo blo n : forall best,
  (Z.to_nat (fst (fst best) - alo) <= n)%nat ->
  extend_left a b 1 alo blo (extend_left a b n alo blo best)
  = extend_left a b n alo blo best.
Proof.
  induction n as [|n IH]; intros [[i j] k] H; cbn [fst] in H.
  - cbn [extend_left]. destruct (alo <? i) eqn:E; [|reflexivity].
    apply Z.ltb_lt in E. lia.
  - cbn [extend_left].
    destruct ((alo <? i) && (blo <? j)
              && chr_eqb (at_ a (i - 1)) (at_ b (j - 1))) eqn:E.
    + apply (IH (i - 1, j - 1, k + 1)). cbn [fst]. lia.
    + rewrite E. reflexivity.
Qed.

Lemma extend_right_exit ahi bhi n : forall best,
  (Z.to_nat (ahi - (fst (fst best) + snd best)) <= n)%nat ->
  extend_right a b 1 ahi bhi (extend_right a b n ahi bhi best)
  = extend_right a b n ahi bhi best.
Proof.
  induction n as [|n IH]; intros [[i j] k] H; cbn [fst snd] in H.
  - cbn [extend_right]. destruct (i + k <? ahi) eqn:E; [|reflexivity].
    apply Z.ltb_lt in E. lia.
  - cbn [extend_right].
    destruct ((i + k <? ahi) && (j + k <? bhi)
              && chr_eqb (at_ a (i + k)) (at_ b (j + k))) eqn:E.
    + apply (IH (i, j, k + 1)). cbn [fst snd]. lia.
    + rewrite E. reflexivity.
Qed.

(** The longest match lies inside the window of [a] it was asked for. *)
Lemma find_longest_match_fits alo ahi blo bhi :
  alo <= ahi -> fits alo ahi (find_longest_match a b alo ahi blo bhi).
Proof.
  intro H. unfold find_longest_match.
  assert (H0 : fits alo ahi
                 (scan_rows a b (Z.to_nat (ahi - alo)) alo blo bhi []
                            (alo, blo, 0))).
  { replace ahi with (alo + Z.of_nat (Z.to_nat (ahi - alo))) at 1 by lia.
    apply scan_rows_inv; [lia | intro q; simpl; lia | unfold fits; lia]. }
  set (best := scan_rows a b (Z.to_nat (ahi - alo)) alo blo bhi []
                         (alo, blo, 0)) in *.
  pose proof (extend_left_inv alo blo ahi (Z.to_nat (fst (fst best) - alo))
                best H0) as H1.
  destruct (extend_left a b (Z.to_nat (fst (fst best) - alo)) alo blo best)
    as [[i1 j1] k1].
  now apply extend_right_inv.
Qed.

Lemma step_decreases w q blocks :
  window_ok w -> Forall window_ok q ->
  Forall window_ok (fst (step a b (w :: q, blocks)))
  /\ (work (fst (step a b (w :: q, blocks))) < work (w :: q))%nat.
Proof.
  destruct w as [[[alo ahi] blo] bhi]. intros Hw Hq. simpl in Hw.
  cbn [step].
  pose proof (find_longest_match_fits alo ahi blo bhi Hw) as Hf.
  destruct (find_longest_match a b alo ahi blo bhi) as [[i j] k].
  unfold fits in Hf.
  assert (Hcons : forall w' q', work (w' :: q') = (weight w' + work q')%nat)
    by reflexivity.
  destruct (k =? 0) eqn:Ek.
  - cbn [fst]. split; [exact Hq|]. rewrite Hcons. cbn [weight]. lia.
  - apply Z.eqb_neq in Ek. cbn [fst].
    destruct ((alo <? i) && (blo <? j)) eqn:E1;
      destruct ((i + k <? ahi) && (j + k <? bhi)) eqn:E2;
      repeat match goal with
             | H : _ && _ = true |- _ =>
                 apply andb_true_iff in H; destruct H as [H _];
                 apply Z.ltb_lt in H
             end;
      (split; [repeat (constructor; [simpl; lia|]); exact Hq
              | rewrite !Hcons; cbn [weight]; lia]).
Qed.

Lemma run_done n blocks : run a b n ([], blocks) = ([], blocks).
Proof. induction n as [|n IH]; [reflexivity | exact IH]. Qed.

Lemma run_empties n : forall q blocks,
  Forall window_ok q -> (work q <= n)%nat ->
  fst (run a b n (q, blocks)) = [].
Proof.
  induction n as [|n IH]; intros q blocks Hq Hn.
  - destruct q as [|w q]; [reflexivity|]. exfalso.
    destruct w as [[[alo ahi] blo] bhi].
    change (work ((alo, ahi, blo, bhi) :: q))
      with (weight (alo, ahi, blo, bhi) + work q)%nat in Hn.
    cbn [weight] in Hn. lia.
  - destruct q as [|w q].
    + now rewrite run_done.
    + cbn [run]. inversion Hq as [|w' q' Hw Hq']; subst.
      destruct (step_decreases w q blocks Hw Hq') as [Hok Hlt].
      destruct (step a b (w :: q, blocks)) as [q1 blocks1].
      cbn [fst] in Hok, Hlt. apply IH; [exact Hok | lia].
Qed.

(** [len a + 1] rounds empty the queue: [matching_blocks] holds all the
    blocks that the loop of [get_matching_blocks] appends. *)
Lemma run_empties_queue :
  fst (run a b (S (List.length a)) ([(0, len a, 0, len b)], [])) = [].
Proof.
  apply run_empties.
  - constructor; [unfold window_ok, len; lia | constructor].
  - change (work [(0, len a, 0, len b)])
      with (weight (0%Z, len a, 0%Z, len b) + O)%nat.
    cbn [weight]. unfold len. lia.
Qed.

Lemma run_add n : forall m st, run a b (n + m) st = run a b m (run a b n st).
Proof. induction n as [|n IH]; intros m st; [reflexivity | apply IH]. Qed.

(** More rounds change nothing. *)
Lemma run_stable n :
  (S (List.length a) <= n)%nat ->
  snd (run a b n ([(0, len a, 0, len b)], [])) = matching_blocks a b.
Proof.
  intro H. unfold matching_blocks.
  replace n with (S (List.length a) + (n - S (List.length a)))%nat by lia.
  rewrite run_add. pose proof run_empties_queue as He.
  destruct (run a b (S (List.length a)) ([(0, len a, 0, len b)], []))
    as [q blocks].
  simpl in He. subst q. now rewrite run_done.
Qed.

End Bounds.
End DifflibFacts.

(** ** The duration parser on text with colons *)

Module ParserFacts.
Import Py PyFloat Duration StrFacts DurationFacts Clock.

(** *** A colon is never part of a number *)

Lemma In_lstrip c s : isspace c = false -> In c s -> In c (lstrip s).
Proof.
  intros Hc. induction s as [|x r IH]; simpl; [tauto|].
  destruct (isspace x) eqn:E; [|intro H; exact H].
  intros [->|H]; [congruence | now apply IH].
Qed.

Lemma In_strip c s : isspace c = false -> In c s -> In c (strip s).
Proof.
  intros Hc H. unfold strip, rstrip.
  apply in_rev. rewrite rev_involutive.
  apply In_lstrip; [assumption|]. apply -> in_rev. now apply In_lstrip.
Qed.

Lemma colon_after_sign s : In ":"%char s -> In ":"%char (snd (take_sign s)).
Proof.
  destruct s as [|c r]; simpl; [tauto|].
  destruct (chr_eqb c "-") eqn:E1.
  - apply chr_eqb_eq in E1. subst. intros [H|H]; [discriminate | exact H].
  - destruct (chr_eqb c "+") eqn:E2; [|intro H; exact H].
    apply chr_eqb_eq in E2. subst. intros [H|H]; [discriminate | exact H].
Qed.

Lemma colon_after_digits s :
  In ":"%char s -> In ":"%char (snd (take_digits s)).
Proof.
  induction s as [|c r IH]; simpl; [tauto|].
  destruct (isdigit c) eqn:E; [|intro H; exact H].
  intros [H|H]; [subst; discriminate|].
  specialize (IH H). now destruct (take_digits r).
Qed.

Lemma parse_number_colon s : In ":"%char s -> parse_number s = None.
Proof.
  intro H. unfold parse_number.
  apply colon_after_sign in H. destruct (take_sign s) as [neg s1].
  cbn [snd] in H.
  apply colon_after_digits in H. destruct (take_digits s1) as [ip s2].
  cbn [snd] in H.
  assert (Hfp : In ":"%char
            (snd (match s2 with
                  | c :: r => if chr_eqb c "." then take_digits r else ([], s2)
                  | [] => ([], s2)
                  end))).
  { destruct s2 as [|c r]; [simpl in H; contradiction|].
    destruct (chr_eqb c ".") eqn:E; [|exact H].
    apply chr_eqb_eq in E. subst. destruct H as [H|H]; [discriminate|].
    now apply colon_after_digits. }
  destruct (match s2 with
            | c :: r => if chr_eqb c "." then take_digits r else ([], s2)
            | [] => ([], s2)
            end) as [fp s3].
  cbn [snd] in Hfp.
  destruct (ip ++ fp); [reflexivity|].
  destruct s3 as [|c r]; [simpl in Hfp; contradiction|].
  destruct (is_e c) eqn:E; [|reflexivity].
  destruct Hfp as [Hc|Hr]; [subst; discriminate|].
  apply colon_after_sign in Hr. destruct (take_sign r) as [eneg r1].
  cbn [snd] in Hr.
  apply colon_after_digits in Hr. destruct (take_digits r1) as [ed r2].
  cbn [snd] in Hr. destruct ed; [reflexivity|].
  destruct r2; [simpl in Hr; contradiction | reflexivity].
Qed.

Lemma parse_inf_or_nan_colon s : In ":"%char s -> parse_inf_or_nan s = None.
Proof.
  intro H. unfold parse_inf_or_nan.
  apply colon_after_sign in H. destruct (take_sign s) as [neg s1].
  cbn [snd] in H.
  assert (Hw : In ":"%char (lower s1)).
  { unfold lower. change ":"%char with (lower_chr ":"). now apply in_map. }
  assert (Hno : forall t, ~ In ":"%char t -> str_eqb (lower s1) t = false).
  { intros t Ht. destruct (str_eqb (lower s1) t) eqn:E; [|reflexivity].
    apply str_eqb_eq in E. now rewrite E in Hw. }
  rewrite !Hno; [reflexivity | | |];
    (intro Hc; vm_compute in Hc; intuition discriminate).
Qed.

Lemma of_str_colon s : In ":"%char s -> of_str s = None.
Proof.
  intro H. unfold of_str.
  destruct (underscores_ok _ (trim s)); [|reflexivity].
  assert (Hu : In ":"%char (drop_underscores (trim s))).
  { unfold drop_underscores. apply filter_In. split; [|reflexivity].
    unfold trim. now apply In_strip_of. }
  now rewrite parse_number_colon, parse_inf_or_nan_colon.
Qed.

(** *** Fields and colons *)

Lemma length_split_on s :
  List.length (split_on ":" s) = S (colons s).
Proof.
  unfold colons. induction s as [|c r IH]; [reflexivity|].
  simpl split_on. simpl count_occ.
  destruct (ascii_dec c ":") as [->|Hne].
  - simpl. now rewrite IH.
  - assert (E : chr_eqb c ":" = false).
    { destruct (chr_eqb c ":") eqn:E; [|reflexivity].
      apply chr_eqb_eq in E. contradiction. }
    rewrite E. destruct (split_on ":" r); simpl in *; [discriminate | exact IH].
Qed.

Lemma colons_In s : (0 < colons s)%nat <-> In ":"%char s.
Proof. unfold colons. symmetry. apply count_occ_In. Qed.

Lemma split_on_no_colon s : ~ In ":"%char s -> split_on ":" s = [s].
Proof.
  intro H. pose proof (length_split_on s) as L.
  assert (colons s = 0)%nat as E.
  { destruct (colons s) eqn:E; [reflexivity|].
    exfalso. apply H, colons_In. lia. }
  rewrite E in L.
  destruct (split_on ":" s) as [|p [|q l]] eqn:Es; try discriminate.
  apply (split_on_single ":") in Es. now subst.
Qed.

Lemma floats_of_trim l : floats_of (map trim l) = floats_of l.
Proof.
  induction l as [|p ps IH]; [reflexivity|].
  simpl. now rewrite of_str_trim, IH.
Qed.

Lemma to_seconds_VStr s : to_seconds (VStr s) = Ret (text_to_seconds s).
Proof. reflexivity. Qed.

Lemma colon_or_single s :
  (In ":"%char s /\ (2 <= List.length (split_on ":" s))%nat)
  \/ (~ In ":"%char s /\ split_on ":" s = [s]).
Proof.
  destruct (in_dec ascii_dec ":"%char s) as [H|H].
  - left. split; [assumption|]. rewrite length_split_on.
    apply colons_In in H. lia.
  - right. split; [assumption | now apply split_on_no_colon].
Qed.

(** Stripping the text leaves its colons where they are. *)
Lemma length_map_head (f : str -> str) l :
  List.length (map_head f l) = List.length l.
Proof. now destruct l. Qed.

Lemma length_map_last (f : str -> str) l :
  List.length (map_last f l) = List.length l.
Proof.
  induction l as [|p ps IH]; [reflexivity|].
  destruct ps as [|q qs]; [reflexivity|].
  rewrite map_last_cons by discriminate.
  cbn [List.length]. now rewrite IH.
Qed.

Lemma colons_strip s : colons (strip s) = colons s.
Proof.
  pose proof (length_split_on (strip s)) as H1.
  pose proof (length_split_on s) as H2.
  rewrite (split_on_strip ":" colon_not_space), length_map_last,
    length_map_head in H1.
  lia.
Qed.

(** X1. Blanks around a duration text do not change what the parser
    returns, nor do spaces, tabs and line ends around each of its fields:
    two texts whose colon-separated fields, once the text is stripped,
    agree up to the blanks that [float] skips are read alike, so
    " 1 : 30 " is read as "1:30". *)
Theorem X1_blanks_around_fields_are_ignored (s s' : str) :
  map trim (split_on ":" (strip s)) = map trim (split_on ":" (strip s')) ->
  to_seconds (VStr s) = to_seconds (VStr s').
Proof.
  intro H. rewrite !to_seconds_VStr, !text_to_seconds_unfold.
  set (t := strip s) in *. set (t' := strip s') in *.
  assert (Hf : floats_of (split_on ":" t) = floats_of (split_on ":" t')).
  { now rewrite <- (floats_of_trim (split_on ":" t)), H, floats_of_trim. }
  assert (Hl : List.length (split_on ":" t) = List.length (split_on ":" t')).
  { now rewrite <- (length_map trim (split_on ":" t)), H, length_map. }
  assert (Ho : of_str t = of_str t').
  { destruct (colon_or_single t) as [[Hc L]|[Hc E]];
      destruct (colon_or_single t') as [[Hc' L']|[Hc' E']].
    - now rewrite !of_str_colon.
    - rewrite E' in Hl. simpl in Hl. lia.
    - rewrite E in Hl. simpl in Hl. lia.
    - rewrite E, E' in H. simpl in H. injection H as H.
      now rewrite <- (of_str_trim t), H, of_str_trim. }
  now rewrite Ho, Hf.
Qed.

Lemma X1_witness :
  to_seconds (VStr (lit " 1 : 30 ")) = to_seconds (VStr (lit "1:30")).
Proof.
  apply X1_blanks_around_fields_are_ignored. vm_compute. reflexivity.
Defined.

(** X2. A text with three colons or more (four fields or more) has no
    duration: the parser returns the missing marker, whatever the fields
    hold. *)
Theorem X2_four_fields_or_more_are_missing (s : str) :
  (3 <= colons s)%nat -> to_seconds (VStr s) = Ret nan.
Proof.
  intro H. rewrite to_seconds_VStr, text_to_seconds_unfold.
  rewrite <- colons_strip in H.
  rewrite of_str_colon by (apply colons_In; lia).
  pose proof (length_split_on (strip s)) as L.
  destruct (floats_of (split_on ":" (strip s))) as [fs|] eqn:E;
    [|reflexivity].
  apply floats_of_Forall2, Forall2_length in E.
  destruct fs as [|a [|b [|c [|d l]]]]; try reflexivity;
    simpl in E; lia.
Qed.

Lemma X2_witness : to_seconds (VStr (lit "1:02:03:04")) = Ret nan.
Proof.
  apply X2_four_fields_or_more_are_missing. vm_compute. lia.
Defined.

(** *** Fields made of blanks *)

Lemma In_lstrip_inv c s : In c (lstrip s) -> In c s.
Proof.
  induction s as [|x r IH]; simpl; [tauto|].
  destruct (isspace x); [|intro H; exact H]. intro H. right. now apply IH.
Qed.

Lemma In_rstrip_inv c s : In c (rstrip s) -> In c s.
Proof.
  unfold rstrip. intro H. apply in_rev, In_lstrip_inv in H.
  now apply in_rev in H.
Qed.

Lemma In_strip_inv c s : In c (strip s) -> In c s.
Proof.
  unfold strip. intro H. now apply In_rstrip_inv, In_lstrip_inv in H.
Qed.

(** A text that [str.strip] empties is made of blanks. *)
Lemma strip_nil_blank p c : strip p = [] -> In c p -> isspace c = true.
Proof.
  unfold strip. intros H Hc.
  assert (Hl : lstrip p = []).
  { destruct (lstrip p) as [|x r] eqn:E; [reflexivity|]. exfalso.
    assert (Hx : isspace x = false).
    { clear H Hc. induction p as [|y q IH]; [discriminate|].
      simpl in E. destruct (isspace y) eqn:Ey; [now apply IH|].
      now injection E as <- _. }
    rewrite (rstrip_cons_nonspace x r Hx) in H. discriminate. }
  clear H. induction p as [|y q IH]; [contradiction|].
  simpl in Hl. destruct (isspace y) eqn:Ey; [|discriminate].
  destruct Hc as [<-|Hc]; [exact Ey | now apply IH].
Qed.

(** A blank is no sign, no digit, no point and no letter. *)
Lemma blank_is_no_numeral c :
  isspace c = true ->
  chr_eqb c "-" = false /\ chr_eqb c "+" = false /\ isdigit c = false
  /\ chr_eqb c "." = false /\ chr_eqb c "_" = false
  /\ chr_eqb (lower_chr c) "i" = false /\ chr_eqb (lower_chr c) "n" = false.
Proof.
  destruct c as [[] [] [] [] [] [] [] []]; vm_compute; intro H;
    try discriminate H; repeat split; reflexivity.
Qed.

Lemma of_str_blanks p :
  (forall c, In c p -> isspace c = true) -> of_str p = None.
Proof.
  intro H. unfold of_str.
  destruct (underscores_ok _ (trim p)); [|reflexivity].
  assert (Hu : forall c, In c (drop_underscores (trim p)) ->
                         isspace c = true).
  { intros c Hc. unfold drop_underscores in Hc. apply filter_In in Hc.
    destruct Hc as [Hc _]. unfold trim in Hc.
    apply In_strip_of_inv in Hc. now apply H. }
  destruct (drop_underscores (trim p)) as [|c r]; [reflexivity|].
  destruct (blank_is_no_numeral c (Hu c (or_introl eq_refl)))
    as (H1 & H2 & H3 & H4 & _ & H6 & H7).
  assert (Hn : parse_number (c :: r) = None).
  { unfold parse_number, take_sign. rewrite H1, H2.
    cbn [take_digits]. rewrite H3, H4. reflexivity. }
  assert (Hi : parse_inf_or_nan (c :: r) = None).
  { unfold parse_inf_or_nan, take_sign. rewrite H1, H2.
    cbn [lower map lit list_ascii_of_string str_eqb].
    rewrite H6, H7. reflexivity. }
  now rewrite Hn, Hi.
Qed.

Lemma In_map_head (f : str -> str) l p :
  In p l -> In p (map_head f l) \/ In (f p) (map_head f l).
Proof.
  destruct l as [|q qs]; [contradiction|].
  intros [->|H]; [right; now left | left; now right].
Qed.

Lemma In_map_last (f : str -> str) l p :
  In p l -> In p (map_last f l) \/ In (f p) (map_last f l).
Proof.
  induction l as [|q qs IH]; [contradiction|].
  destruct qs as [|q' qs'].
  - intros [->|[]]. right. now left.
  - rewrite map_last_cons by discriminate.
    intros [->|H]; [left; now left|].
    destruct (IH H) as [H'|H']; [left | right]; now right.
Qed.

(** A blank field of the text is a blank field of the stripped text. *)
Lemma blank_field_strip s p :
  In p (split_on ":" s) -> (forall c, In c p -> isspace c = true) ->
  exists q, In q (split_on ":" (strip s))
            /\ forall c, In c q -> isspace c = true.
Proof.
  intros Hin Hp. rewrite (split_on_strip ":" colon_not_space).
  destruct (In_map_head lstrip _ p Hin) as [H1|H1].
  - destruct (In_map_last rstrip _ p H1) as [H2|H2].
    + now exists p.
    + exists (rstrip p). split; [exact H2|].
      intros c Hc. now apply Hp, In_rstrip_inv.
  - destruct (In_map_last rstrip _ (lstrip p) H1) as [H2|H2].
    + exists (lstrip p). split; [exact H2|].
      intros c Hc. now apply Hp, In_lstrip_inv.
    + exists (rstrip (lstrip p)). split; [exact H2|].
      intros c Hc. now apply Hp, In_lstrip_inv, In_rstrip_inv.
Qed.

Lemma floats_of_None l p :
  In p l -> of_str p = None -> floats_of l = None.
Proof.
  intros Hin Hp. induction l as [|q qs IH]; [contradiction|].
  simpl. destruct Hin as [->|Hin].
  - now rewrite Hp.
  - destruct (of_str q); [|reflexivity]. now rewrite (IH Hin).
Qed.

(** X3. A text with a field that is empty or blank has no duration:
    "1:", ":30", "1::30" and the blank text all give the missing marker;
    an empty field is not read as zero. *)
Theorem X3_an_empty_field_is_missing (s p : str) :
  In p (split_on ":" s) -> strip p = [] ->
  to_seconds (VStr s) = Ret nan.
Proof.
  intros Hin Hp. rewrite to_seconds_VStr, text_to_seconds_unfold.
  destruct (blank_field_strip s p Hin (fun c => strip_nil_blank p c Hp))
    as (q & Hq & Hb).
  assert (Ho : of_str (strip s) = None).
  { destruct (colon_or_single (strip s)) as [[Hc _]|[_ E]].
    - now apply of_str_colon.
    - rewrite E in Hq. destruct Hq as [->|[]]. now apply of_str_blanks. }
  rewrite Ho, (floats_of_None _ q Hq (of_str_blanks q Hb)). reflexivity.
Qed.

Lemma X3_witness : to_seconds (VStr (lit "1: ")) = Ret nan.
Proof.
  apply (X3_an_empty_field_is_missing (lit "1: ") (lit " "));
    [vm_compute; tauto | reflexivity].
Defined.

End ParserFacts.

(** ** Clock texts read back *)

Module ClockFacts.
Import Py PyFloat Duration StrFacts DurationFacts ParserFacts Clock.

Lemma same_eq a b : same a b = true -> a = b.
Proof.
  destruct a as [sa|sa| |sa ma ea], b as [sb|sb| |sb mb eb]; simpl;
    try discriminate; try reflexivity.
  - intro H. apply Bool.eqb_prop in H. now subst.
  - intro H. apply Bool.eqb_prop in H. now subst.
  - intro H. apply andb_true_iff in H. destruct H as [H He].
    apply andb_true_iff in H. destruct H as [Hs Hm].
    apply Bool.eqb_prop in Hs. apply Pos.eqb_eq in Hm. apply Z.eqb_eq in He.
    now subst.
Qed.

Lemma In_zs n k : (k < n)%nat -> In (Z.of_nat k) (map Z.of_nat (seq 0 n)).
Proof. intro H. apply in_map, in_seq. lia. Qed.

(** A field of two digits, or of one, reads as its number. *)
Lemma fields_checked :
  forallb (fun n =>
    forallb (fun pad =>
      negb (existsb (chr_eqb ":") (field pad n))
      && match of_str (field pad n) with
         | Some f => same f (of_Z (Z.of_nat n))
         | None => false
         end) [true; false]) (seq 0 100) = true.
Proof. vm_compute. reflexivity. Qed.

Lemma field_reads_back pad n :
  (n < 100)%nat ->
  ~ In ":"%char (field pad n)
  /\ of_str (field pad n) = Some (of_Z (Z.of_nat n)).
Proof.
  intro Hn. pose proof fields_checked as H.
  rewrite forallb_forall in H. specialize (H n).
  rewrite forallb_forall in H.
  assert (Hin : In n (seq 0 100)) by (apply in_seq; lia).
  specialize (H Hin pad). 
  assert (Hp : In pad [true; false]) by (destruct pad; simpl; tauto).
  apply H in Hp. apply andb_true_iff in Hp. destruct Hp as [H1 H2]. split.
  - apply negb_true_iff in H1. intro Hc.
    assert (E : existsb (chr_eqb ":") (field pad n) = true).
    { apply existsb_exists. exists ":"%char. split; [exact Hc | reflexivity]. }
    congruence.
  - destruct (of_str (field pad n)) as [f|]; [|discriminate].
    now rewrite (same_eq _ _ H2).
Qed.

Lemma split_on_field p rest :
  ~ In ":"%char p ->
  split_on ":" (p ++ ":"%char :: rest) = p :: split_on ":" rest.
Proof.
  induction p as [|c r IH]; intro H; [reflexivity|].
  simpl. destruct (chr_eqb c ":") eqn:E.
  - apply chr_eqb_eq in E. subst. exfalso. apply H. now left.
  - rewrite IH; [reflexivity|]. intro Hr. apply H. now right.
Qed.

(** A clock text begins and ends with a digit: stripping leaves it as it
    is. *)
Lemma strip_ends s a b :
  hd_error s = Some a -> isspace a = false ->
  hd_error (rev s) = Some b -> isspace b = false -> strip s = s.
Proof.
  intros Ha Na Hb Nb. unfold strip, rstrip.
  destruct s as [|x r]; [discriminate|].
  injection Ha as ->. cbn [lstrip]. rewrite Na.
  destruct (rev (a :: r)) as [|y t] eqn:E; [discriminate|].
  injection Hb as ->. cbn [lstrip]. rewrite Nb, <- E.
  apply rev_involutive.
Qed.

Lemma digit_not_blank n : (n < 10)%nat -> isspace (digit n) = false.
Proof. intro H. do 10 (destruct n as [|n]; [reflexivity|]). lia. Qed.

Lemma field_first pad n rest :
  (n < 100)%nat ->
  exists a, hd_error (field pad n ++ rest) = Some a /\ isspace a = false.
Proof.
  intro H. unfold field. destruct (negb pad && (n <? 10)%nat) eqn:E.
  - exists (digit n). split; [reflexivity|]. apply digit_not_blank.
    apply andb_true_iff in E. destruct E as [_ E].
    now apply Nat.ltb_lt in E.
  - exists (digit (n / 10)). split; [reflexivity|]. apply digit_not_blank.
    apply Nat.Div0.div_lt_upper_bound. lia.
Qed.

Lemma field_last front n :
  exists b, hd_error (rev (front ++ ":"%char :: field true n)) = Some b
            /\ isspace b = false.
Proof.
  exists (digit (n mod 10)). split.
  - rewrite rev_app_distr. reflexivity.
  - apply digit_not_blank. apply Nat.mod_upper_bound. lia.
Qed.

Lemma strip_hms pad h m s :
  (h < 100)%nat -> strip (hms pad h m s) = hms pad h m s.
Proof.
  intro H. unfold hms.
  destruct (field_first pad h
              (":"%char :: field true m ++ ":"%char :: field true s) H)
    as (a & Ha & Na).
  destruct (field_last (field pad h ++ ":"%char :: field true m) s)
    as (b & Hb & Nb).
  rewrite <- app_assoc in Hb.
  exact (strip_ends _ a b Ha Na Hb Nb).
Qed.

Lemma strip_ms pad m s :
  (m < 100)%nat -> strip (ms pad m s) = ms pad m s.
Proof.
  intro H. unfold ms.
  destruct (field_first pad m (":"%char :: field true s) H) as (a & Ha & Na).
  destruct (field_last (field pad m) s) as (b & Hb & Nb).
  exact (strip_ends _ a b Ha Na Hb Nb).
Qed.

(** The sums of a clock reading are exact: hours and minutes first, then
    the seconds. *)
Lemma minutes_checked :
  forallb (fun m => same (mul (of_Z m) (of_Z 60)) (of_Z (60 * m)))
          (map Z.of_nat (seq 0 100)) = true.
Proof. vm_compute. reflexivity. Qed.

Lemma hours_minutes_checked :
  forallb (fun h =>
    forallb (fun m =>
      same (add (mul (of_Z h) (of_Z 3600)) (mul (of_Z m) (of_Z 60)))
           (of_Z (60 * (60 * h + m))))
      (map Z.of_nat (seq 0 60))) (map Z.of_nat (seq 0 24)) = true.
Proof. vm_compute. reflexivity. Qed.

Lemma seconds_checked :
  forallb (fun k =>
    forallb (fun s => same (add (of_Z (60 * k)) (of_Z s)) (of_Z (60 * k + s)))
            (map Z.of_nat (seq 0 60))) (map Z.of_nat (seq 0 1440)) = true.
Proof. vm_compute. reflexivity. Qed.

Lemma seconds_add_up k s :
  (k < 1440)%nat -> (s < 60)%nat ->
  add (of_Z (60 * Z.of_nat k)) (of_Z (Z.of_nat s))
  = of_Z (60 * Z.of_nat k + Z.of_nat s).
Proof.
  intros Hk Hs. pose proof seconds_checked as H.
  rewrite forallb_forall in H. specialize (H _ (In_zs 1440 k Hk)).
  rewrite forallb_forall in H. specialize (H _ (In_zs 60 s Hs)).
  now apply same_eq.
Qed.

(** X4. A clock text reads back as its number of seconds, exactly: for
    every hour below 24, minute and second below 60, "H:MM:SS" (the hour
    with one or two digits) gives 3600 H + 60 M + S, and for every minute
    count below 100 "M:SS" gives 60 M + S. *)
Theorem X4_clock_texts_read_back (pad : bool) (h m s : nat) :
  (s < 60)%nat ->
  ((h < 24)%nat -> (m < 60)%nat ->
   to_seconds (VStr (hms pad h m s))
   = Ret (of_Z (3600 * Z.of_nat h + 60 * Z.of_nat m + Z.of_nat s)))
  /\ ((m < 100)%nat ->
      to_seconds (VStr (ms pad m s))
      = Ret (of_Z (60 * Z.of_nat m + Z.of_nat s))).
Proof.
  intros Hs.
  destruct (field_reads_back true s ltac:(lia)) as [Cs Fs].
  assert (Es : split_on ":" (field true s) = [field true s])
    by now apply split_on_no_colon.
  split.
  - intros Hh Hm.
    destruct (field_reads_back pad h ltac:(lia)) as [Ch Fh].
    destruct (field_reads_back true m ltac:(lia)) as [Cm Fm].
    rewrite to_seconds_VStr, text_to_seconds_unfold, strip_hms by lia.
    unfold hms. rewrite of_str_colon by (apply in_or_app; right; now left).
    rewrite split_on_field, split_on_field, Es by assumption.
    cbn [floats_of]. rewrite Fh, Fm, Fs. f_equal.
    pose proof hours_minutes_checked as H.
    rewrite forallb_forall in H. specialize (H _ (In_zs 24 h Hh)).
    rewrite forallb_forall in H. specialize (H _ (In_zs 60 m Hm)).
    apply same_eq in H. rewrite H.
    replace (60 * (60 * Z.of_nat h + Z.of_nat m))
      with (60 * Z.of_nat (60 * h + m)) by lia.
    rewrite seconds_add_up by lia. f_equal. lia.
  - intros Hm.
    destruct (field_reads_back pad m ltac:(lia)) as [Cm Fm].
    rewrite to_seconds_VStr, text_to_seconds_unfold, strip_ms by lia.
    unfold ms. rewrite of_str_colon by (apply in_or_app; right; now left).
    rewrite split_on_field, Es by assumption.
    cbn [floats_of]. rewrite Fm, Fs. f_equal.
    pose proof minutes_checked as H.
    rewrite forallb_forall in H. specialize (H _ (In_zs 100 m Hm)).
    apply same_eq in H. rewrite H.
    now rewrite seconds_add_up by lia.
Qed.

Lemma X4_witness :
  to_seconds (VStr (lit "1:02:03")) = Ret (of_Z 3723).
Proof.
  assert (Hs : (3 < 60)%nat) by lia.
  apply (proj1 (X4_clock_texts_read_back false 1 2 3 Hs)); lia.
Defined.

End ClockFacts.

(** ** The filter pipeline of v3.6 as a whole *)

Module PipelineFacts.
Import Py PyFloat StrFacts PandasFacts FilterFacts Filters GroupFacts
       AggregationFacts Page.

Lemma frame_ext (a b : Frame) :
  columns a = columns b -> rows a = rows b -> a = b.
Proof. destruct a, b. simpl. now intros -> ->. Qed.

Lemma filter_twice {A : Type} (p : A -> bool) (xs : list A) :
  filter p (filter p xs) = filter p xs.
Proof.
  rewrite filter_filter. apply filter_ext. intro x. now destruct (p x).
Qed.

Lemma filter_none {A : Type} (p : A -> bool) (l : list A) :
  (forall x, In x l -> p x = false) -> filter p l = [].
Proof.
  induction l as [|x r IH]; intro H; [reflexivity|].
  simpl. rewrite (H x (or_introl eq_refl)). apply IH.
  intros y Hy. apply H. now right.
Qed.

(** X5. The generic filters can be applied in any order, and applying one
    of them twice changes nothing more: [_apply_filter] on one column
    commutes with [_apply_filter] on another and is idempotent. *)
Theorem X5_generic_filters_commute_and_are_idempotent
        (im : bool) (frame : Frame) (c1 c2 : str)
        (s1 s2 : option (list str)) :
  _apply_filter im (_apply_filter im frame c1 s1) c2 s2
  = _apply_filter im (_apply_filter im frame c2 s2) c1 s1
  /\ _apply_filter im (_apply_filter im frame c1 s1) c1 s1
     = _apply_filter im frame c1 s1.
Proof.
  split; apply frame_ext;
    rewrite ?columns_apply_filter, ?rows_apply_filter,
            ?has_column_apply_filter; try reflexivity.
  - rewrite !filter_filter. apply filter_ext. intro r. apply andb_comm.
  - apply filter_twice.
Qed.

Lemma columns_df_dated sb df : columns (df_dated sb df) = columns df.
Proof. unfold df_dated. destruct (bounds sb) as [[s e]|]; reflexivity. Qed.

Lemma columns_df_f sb df : columns (df_f sb df) = columns df.
Proof.
  unfold df_f, df_agents, df_team.
  now rewrite !columns_apply_filter, columns_loc, columns_df_dated.
Qed.

Lemma columns_df_view sb df : columns (df_view sb df) = columns df.
Proof.
  unfold df_view. destruct (mode sb); rewrite ?columns_loc; apply columns_df_f.
Qed.

Lemma rows_df_dated sb df :
  rows (df_dated sb df) = filter (date_keeps sb) (rows df).
Proof.
  unfold df_dated, date_keeps. destruct (bounds sb) as [[s e]|].
  - unfold filter_by_date, date_mask. apply rows_loc_map.
  - now rewrite filter_all.
Qed.


Lemma rows_df_f_all sb df :
  rows (df_f sb df) = filter (f_keeps sb df) (rows df).
Proof.
  rewrite rows_df_f, rows_df_agents, rows_df_dated, !filter_filter.
  apply filter_ext. intro r. unfold f_keeps, date_keeps.
  now rewrite !andb_assoc.
Qed.

Lemma rows_df_view_all sb df :
  rows (df_view sb df) = filter (view_keeps sb df) (rows df).
Proof. now rewrite rows_df_view, rows_df_f_all, filter_filter. Qed.


Lemma In_df_view sb df r :
  In r (rows (df_view sb df)) ->
  In r (rows (df_dated sb df)) /\ mode_keeps sb r = true.
Proof.
  rewrite rows_df_view, filter_In, rows_df_f, filter_In, rows_df_agents,
    filter_In. tauto.
Qed.

(** X7. Under a period, every call that reaches the tables has a date,
    and the date lies between the two ends of the period, both included;
    a call without a date is dropped even when "include missing" is on. *)
Theorem X7_every_kept_call_is_dated_within_the_period
        (sb : Sidebar) (df : Frame) (s e : Date) (r : Row) :
  bounds sb = Some (s, e) ->
  In r (rows (df_view sb df)) ->
  exists d, _date_only r = Some d
            /\ date_leb s d = true /\ date_leb d e = true.
Proof.
  intros Hb Hr. apply In_df_view in Hr. destruct Hr as [Hr _].
  rewrite rows_df_dated in Hr. apply filter_In in Hr.
  destruct Hr as [_ Hr]. unfold date_keeps in Hr. rewrite Hb in Hr.
  destruct (_date_only r) as [d|]; [|discriminate].
  apply andb_true_iff in Hr. exists d. tauto.
Qed.

Lemma X7_witness :
  exists d, _date_only Samples.unattributed = Some d
            /\ date_leb Samples.jan1 d = true
            /\ date_leb d Samples.jan1 = true.
Proof.
  apply (X7_every_kept_call_is_dated_within_the_period
           Samples.scenario_sidebar Samples.team_frame).
  - reflexivity.
  - vm_compute. left. reflexivity.
Defined.

Lemma geb_nan x : geb nan x = false.
Proof. unfold geb, SFleb. now destruct x as [| [] | |[]]. Qed.

(** X8. In the mode "Only calls with duration >= threshold" every call
    that reaches the tables has a duration, at least the threshold; the
    column "Total Calls" of a summary table then adds up to the KPI
    "Total Calls", whatever the grouping columns. *)
Theorem X8_threshold_mode_counts_agree
        (sb : Sidebar) (df : Frame) (dims : list str) :
  mode sb = Only_calls_with_duration_ge_threshold ->
  (forall r, In r (rows (df_view sb df)) ->
             isnan (_duration_sec r) = false
             /\ geb (_duration_sec r) (of_Z (threshold sb)) = true)
  /\ total_calls (agg_summary (df_view sb df) dims) = kpi_total_calls sb df.
Proof.
  intro Hm.
  assert (H : forall r, In r (rows (df_view sb df)) ->
                isnan (_duration_sec r) = false
                /\ geb (_duration_sec r) (of_Z (threshold sb)) = true).
  { intros r Hr. apply In_df_view in Hr. destruct Hr as [_ Hr].
    unfold mode_keeps in Hr. rewrite Hm in Hr. split; [|exact Hr].
    destruct (_duration_sec r); try reflexivity.
    now rewrite geb_nan in Hr. }
  split; [exact H|].
  rewrite agg_summary_counts_add_up. unfold kpi_total_calls, nrows.
  f_equal. f_equal. apply AttemptsFacts.filter_id. intros r Hr.
  unfold has_duration. now rewrite (proj1 (H r Hr)).
Qed.

Lemma X8_witness :
  (forall r,
     In r (rows (df_view Samples.scenario_sidebar Samples.team_frame)) ->
     isnan (_duration_sec r) = false
     /\ geb (_duration_sec r) (of_Z (threshold Samples.scenario_sidebar))
        = true)
  /\ total_calls (agg_summary
                    (df_view Samples.scenario_sidebar Samples.team_frame)
                    [Caller])
     = kpi_total_calls Samples.scenario_sidebar Samples.team_frame.
Proof.
  apply (X8_threshold_mode_counts_agree Samples.scenario_sidebar
                                        Samples.team_frame [Caller]).
  reflexivity.
Defined.

(** *** The pickers left as they are *)

Lemma In_options df col s :
  In s (options df col) <-> exists r, In r (rows df) /\ get r col = Some s.
Proof.
  unfold options, present.
  rewrite In_sort_by, (In_unique _ _ str_eqb_eq), in_flat_map.
  split; intros (r & Hr & H); exists r; split; try assumption.
  - destruct (get r col) as [t|]; [|contradiction].
    destruct H as [->|[]]. reflexivity.
  - rewrite H. now left.
Qed.

Lemma default_keeps df col r :
  In r (rows df) ->
  filter_keeps true (has_column df col) col (default_selection df col) r
  = true.
Proof.
  intro Hr. unfold default_selection, filter_keeps.
  destruct (has_column df col); [|reflexivity]. cbn [negb orb].
  destruct (get r col) as [s|] eqn:E; cbn [cell_isna astype_str andb].
  - assert (Hm : mem s (options df col) = true).
    { apply mem_In, In_options. now exists r. }
    rewrite Hm. now rewrite orb_true_r.
  - now rewrite orb_true_r.
Qed.

(** X9. With the four pickers left at their default (every option
    selected) and "include missing" ticked, the generic filters remove
    nothing: [df_f] is the frame left by the date filter and the team
    mask. *)
Theorem X9_untouched_pickers_filter_nothing (sb : Sidebar) (df : Frame) :
  untouched_pickers df sb -> include_missing sb = true ->
  df_f sb df = df_team sb df.
Proof.
  intros (Ha & Hc & Ht & Hs) Him. apply frame_ext.
  - rewrite columns_df_f. unfold df_team.
    now rewrite columns_loc, columns_df_dated.
  - rewrite rows_df_f_all, rows_df_team, rows_df_dated, filter_filter.
    apply filter_ext_in. intros r Hr. unfold f_keeps, later_keeps.
    rewrite Ha, Hc, Ht, Hs, Him, !default_keeps by assumption.
    now rewrite !andb_true_r.
Qed.

Lemma X9_witness :
  df_f (initial_sidebar Samples.jan1 Samples.team_frame) Samples.team_frame
  = df_team (initial_sidebar Samples.jan1 Samples.team_frame)
            Samples.team_frame.
Proof.
  apply X9_untouched_pickers_filter_nothing.
  - unfold untouched_pickers. repeat split; reflexivity.
  - reflexivity.
Defined.

(** X10. With "include missing" unticked the default selection is a
    filter all the same: a call whose value in one of the four key
    columns is missing reaches no table, as soon as the column holds some
    value and none of its values is the text "nan". *)
Theorem X10_untouched_pickers_drop_missing_values
        (sb : Sidebar) (df : Frame) (col : str) (r : Row) :
  untouched_pickers df sb -> include_missing sb = false ->
  In col key_columns -> has_column df col = true ->
  options df col <> [] -> ~ In (lit "nan") (options df col) ->
  get r col = None ->
  ~ In r (rows (df_view sb df)).
Proof.
  intros (Ha & Hc & Ht & Hs) Him Hcol Hhas Hne Hnan Hget Hr.
  rewrite rows_df_view_all in Hr. apply filter_In in Hr.
  destruct Hr as [_ Hr]. unfold view_keeps, f_keeps, later_keeps in Hr.
  rewrite Ha, Hc, Ht, Hs, Him in Hr.
  assert (Hk : filter_keeps false (has_column df col) col
                 (default_selection df col) r = false).
  { unfold filter_keeps, default_selection. rewrite Hhas, Hget.
    cbn [negb orb andb astype_str].
    apply mem_false in Hnan. rewrite Hnan.
    destruct (options df col); [contradiction | reflexivity]. }
  destruct Hcol as [<-|[<-|[<-|[<-|[]]]]];
    [ change (lit "Caller") with Caller in Hk
    | change (lit "Country Name") with Country_Name in Hk
    | change (lit "Call Type") with Call_Type in Hk
    | change (lit "Call Status") with Call_Status in Hk ];
    rewrite Hk in Hr; rewrite ?andb_false_r in Hr; discriminate.
Qed.

Lemma X10_witness :
  ~ In Samples.unattributed
       (rows (df_view (set_include_missing false
                         (initial_sidebar Samples.jan1 Samples.team_frame))
                      Samples.team_frame)).
Proof.
  apply (X10_untouched_pickers_drop_missing_values _ _ Caller).
  - unfold untouched_pickers. repeat split; reflexivity.
  - reflexivity.
  - left. reflexivity.
  - reflexivity.
  - vm_compute. discriminate.
  - vm_compute. intuition discriminate.
  - reflexivity.
Defined.

End PipelineFacts.

(** ** Floats and sorted tables *)

Module OrderFacts.
Import Py PyFloat StrFacts PandasFacts GroupFacts.

Lemma leb_trans a b c : leb a b = true -> leb b c = true -> leb a c = true.
Proof.
  unfold leb, SFleb, SFcompare.
  destruct a as [sa|sa| |sa ma ea], b as [sb|sb| |sb mb eb],
           c as [sc|sc| |sc mc ec];
    try destruct sa; try destruct sb; try destruct sc;
    try discriminate; try reflexivity;
    destruct (Z.compare_spec ea eb), (Z.compare_spec eb ec),
             (Z.compare_spec ea ec);
    try discriminate; try reflexivity; try lia; subst;
    change (PosDef.Pos.compare_cont Eq ma mb) with (Pos.compare ma mb);
    change (PosDef.Pos.compare_cont Eq mb mc) with (Pos.compare mb mc);
    change (PosDef.Pos.compare_cont Eq ma mc) with (Pos.compare ma mc);
    destruct (Pos.compare_spec ma mb), (Pos.compare_spec mb mc),
             (Pos.compare_spec ma mc);
    simpl; try discriminate; try reflexivity; try lia.
Qed.

Lemma ltb_leb a b : ltb a b = true -> leb a b = true.
Proof.
  unfold ltb, leb, SFltb, SFleb.
  now destruct (SFcompare a b) as [[]|].
Qed.

(** Two floats that are not NaN compare one way or the other. *)
Lemma not_ltb_leb a b :
  isnan a = false -> isnan b = false -> ltb a b = false -> leb b a = true.
Proof.
  unfold ltb, leb, SFltb, SFleb, SFcompare.
  destruct a as [sa|sa| |sa ma ea], b as [sb|sb| |sb mb eb];
    try destruct sa; try destruct sb;
    try discriminate; try reflexivity; intros _ _;
    destruct (Z.compare_spec ea eb), (Z.compare_spec eb ea);
    try discriminate; try reflexivity; try lia; subst;
    change (PosDef.Pos.compare_cont Eq ma mb) with (Pos.compare ma mb);
    change (PosDef.Pos.compare_cont Eq mb ma) with (Pos.compare mb ma);
    destruct (Pos.compare_spec ma mb), (Pos.compare_spec mb ma);
    simpl; try discriminate; try reflexivity; try lia.
Qed.

Lemma leb_not_nan a b : leb a b = true -> isnan a = false /\ isnan b = false.
Proof.
  unfold leb, SFleb, SFcompare.
  destruct a as [sa|sa| |sa ma ea], b as [sb|sb| |sb mb eb];
    try discriminate; now split.
Qed.

(** The insertion sort puts its input in order, for every order that the
    test [lt] decides. *)
Section Sorted.
Variable A : Type.
Variable lt : A -> A -> bool.
Variable R : A -> A -> Prop.
Hypothesis R_trans : forall x y z, R x y -> R y z -> R x z.
Hypothesis lt_R : forall x y, lt y x = true -> R y x.
Hypothesis not_lt_R : forall x y, lt y x = false -> R x y.

Lemma insert_by_sorted x l :
  StronglySorted R l -> StronglySorted R (insert_by lt x l).
Proof.
  induction l as [|y r IH]; simpl; intro H.
  - constructor; constructor.
  - apply StronglySorted_inv in H. destruct H as [Hr Hy].
    destruct (lt y x) eqn:E.
    + constructor; [now apply IH|].
      apply Forall_forall. intros z Hz.
      apply (Permutation_in _ (insert_by_perm lt x r)) in Hz.
      destruct Hz as [<-|Hz]; [now apply lt_R|].
      rewrite Forall_forall in Hy. now apply Hy.
    + constructor; [now constructor|].
      constructor; [now apply not_lt_R|].
      apply Forall_forall. intros z Hz. rewrite Forall_forall in Hy.
      apply R_trans with y; [now apply not_lt_R | now apply Hy].
Qed.

Lemma sort_by_sorted l : StronglySorted R (sort_by lt l).
Proof.
  induction l as [|x r IH]; simpl; [constructor|].
  now apply insert_by_sorted.
Qed.

End Sorted.

Lemma sorted_nodup_strict (l : list Z) :
  StronglySorted Z.le l -> NoDup l -> StronglySorted Z.lt l.
Proof.
  induction l as [|x r IH]; intros Hs Hn; [constructor|].
  apply StronglySorted_inv in Hs. destruct Hs as [Hr Hx].
  inversion Hn as [|x' r' Hnotin Hn']; subst.
  constructor; [now apply IH|].
  rewrite Forall_forall in *. intros z Hz.
  assert (x <> z) by (intros ->; contradiction).
  specialize (Hx z Hz). lia.
Qed.

End OrderFacts.

(** ** The summary and attempts tables *)

Module TableFacts.
Import Py PyFloat StrFacts PandasFacts GroupFacts AggregationFacts OrderFacts.
Import App_v3_6 Page.

Lemma total_ge_trans a b c : total_ge a b -> total_ge b c -> total_ge a c.
Proof.
  unfold total_ge. intros [H1|[H1 H2]] [H3|[H3 H4]]; try (now left).
  - congruence.
  - right. split; [assumption|]. now apply leb_trans with b.
Qed.

Lemma ranked_before_trans x y z :
  ranked_before x y -> ranked_before y z -> ranked_before x z.
Proof.
  unfold ranked_before. intros [H1|[H1 H2]] [H3|[H3 H4]];
    try (left; lia).
  right. split; [lia|]. now apply total_ge_trans with (Total_Duration y).
Qed.

Lemma summary_before_ranked x y :
  summary_before y x = true -> ranked_before y x.
Proof.
  unfold summary_before, ranked_before, total_ge. intro H.
  apply orb_true_iff in H. destruct H as [H|H]; [left; lia|].
  apply andb_true_iff in H. destruct H as [H1 H2]. right.
  split; [lia|].
  destruct (isnan (Total_Duration y)) eqn:Ey; [discriminate|].
  destruct (isnan (Total_Duration x)) eqn:Ex; [now left|].
  right. split; [reflexivity | now apply ltb_leb].
Qed.

Lemma not_summary_before_ranked x y :
  summary_before y x = false -> ranked_before x y.
Proof.
  unfold summary_before, ranked_before, total_ge. intro H.
  apply orb_false_iff in H. destruct H as [H1 H2].
  destruct (Z.eq_dec (Total_Calls x) (Total_Calls y)) as [E|E];
    [|left; lia].
  right. split; [exact E|].
  rewrite E, Z.eqb_refl in H2. cbn [andb] in H2.
  destruct (isnan (Total_Duration y)) eqn:Ey; [now left|].
  destruct (isnan (Total_Duration x)) eqn:Ex; [discriminate|].
  right. split; [reflexivity | now apply not_ltb_leb].
Qed.

(** X11. The summary table comes out in the order the page promises:
    "Total Calls" never increases down the table, and among lines with
    the same count "Total Duration (sec)" never increases, a total that
    is NaN coming last. *)
Theorem X11_summary_sorted_by_calls_then_duration
        (df : Frame) (dims : list str) :
  StronglySorted ranked_before (agg_summary df dims)
  /\ StronglySorted (fun x y => Total_Calls y <= Total_Calls x)
                    (agg_summary df dims).
Proof.
  assert (H : StronglySorted ranked_before (agg_summary df dims)).
  { unfold agg_summary.
    apply sort_by_sorted with (R := ranked_before).
    - exact ranked_before_trans.
    - exact summary_before_ranked.
    - exact not_summary_before_ranked. }
  split; [exact H|].
  induction H as [|x l Hl IH Hx]; constructor; [exact IH|].
  eapply Forall_impl; [|exact Hx].
  intros y [Hy|[Hy _]]; lia.
Qed.

Lemma hour_of_range t : 0 <= hour_of t < 24.
Proof. unfold hour_of. apply Z.mod_pos_bound. lia. Qed.

(** X12. The attempts table lists the hours in increasing order, each
    hour once and between 0 and 23, and no line has a count of zero: an
    hour without a call has no line. *)
Theorem X12_attempts_hours_increase_and_counts_are_positive
        (sb : Sidebar) (df : Frame) :
  StronglySorted Z.lt (map fst (attempts sb df))
  /\ Forall (fun line => 0 <= fst line < 24 /\ 1 <= snd line)
            (attempts sb df).
Proof.
  unfold attempts. set (rs := rows (df_f sb df)). split.
  - apply sorted_nodup_strict; [|apply size_by_hour_hours_nodup].
    unfold size_by_hour. rewrite map_map. cbn [fst]. rewrite map_id.
    apply sort_by_sorted with (R := Z.le); intros; lia.
  - apply Forall_forall. intros [h n] Hin. cbn [fst snd].
    assert (Hh : In h (hours_of (dropna_hour rs))).
    { unfold size_by_hour in Hin. apply in_map_iff in Hin.
      destruct Hin as (h' & E & Hh'). injection E as -> _.
      now rewrite In_sort_by, (In_unique _ _ Z_eqb_eq) in Hh'. }
    apply In_hours_of in Hh. destruct Hh as (r & Hr & Hhr).
    apply In_dropna_hour in Hr. destruct Hr as [Hr _].
    split.
    + unfold _hour in Hhr. destruct (_dt_local r) as [t|]; [|discriminate].
      injection Hhr as <-. apply hour_of_range.
    + rewrite (proj1 (size_by_hour_spec rs h) n Hin).
      unfold Spec.calls_at_hour.
      assert (Hf : In r (filter (fun r0 => match _hour r0 with
                                           | Some h' => h' =? h
                                           | None => false
                                           end) rs)).
      { apply filter_In. split; [exact Hr|]. rewrite Hhr. apply Z.eqb_refl. }
      destruct (filter _ rs); [contradiction|]. simpl. lia.
Qed.

(** X13. Every line of a summary table is the summary of the rows that
    share its key: a key has a line if and only if some row carries it
    (a missing value is a key like another), no key has two lines, the
    "Total Calls" of a line is the number of rows of its group that have
    a duration, and the column adds up to the number of rows of the
    frame that have a duration. *)
Theorem X13_summary_has_one_line_per_key (df : Frame) (dims : list str) :
  NoDup (map key (agg_summary df dims))
  /\ (forall k, In k (map key (agg_summary df dims))
                <-> exists r, In r (rows df) /\ key_of dims r = k)
  /\ (forall line, In line (agg_summary df dims) ->
        line = summarize dims (rows df) (key line)
        /\ Total_Calls line
           = Z.of_nat (List.length
                         (filter has_duration
                                 (group_rows dims (rows df) (key line)))))
  /\ total_calls (agg_summary df dims)
     = Z.of_nat (List.length (filter has_duration (rows df))).
Proof.
  destruct (agg_summary_one_line_per_group df dims) as [H1 H2].
  split; [exact H1|]. split; [exact H2|].
  split; [|apply agg_summary_counts_add_up].
  intros line Hl.
  apply (Permutation_in _ (agg_summary_perm df dims)) in Hl.
  apply in_map_iff in Hl. destruct Hl as (k & <- & _).
  split; [reflexivity|]. cbn [Total_Calls summarize key].
  apply agg_count_rows.
Qed.

Lemma dropna_all_nan rs :
  (forall r, In r rs -> isnan (_duration_sec r) = true) ->
  dropna (map _duration_sec rs) = [].
Proof.
  intro H. induction rs as [|r rs IH]; [reflexivity|].
  simpl. rewrite (H r (or_introl eq_refl)). simpl.
  apply IH. intros r' Hr'. apply H. now right.
Qed.

(** X14. A group none of whose calls has a duration keeps its line in
    the summary table: 0 calls, a total of 0.0, and NaN for the average
    and the median. *)
Theorem X14_group_without_durations_has_an_empty_line
        (df : Frame) (dims : list str) (r : Row) :
  In r (rows df) ->
  (forall r', In r' (rows df) -> key_of dims r' = key_of dims r ->
              isnan (_duration_sec r') = true) ->
  In (mkSummary (key_of dims r) 0 (of_Z 0) nan nan) (agg_summary df dims).
Proof.
  intros Hr Hnan.
  apply (Permutation_in _ (Permutation_sym (agg_summary_perm df dims))).
  apply in_map_iff. exists (key_of dims r). split.
  - unfold summarize, agg_count, agg_sum, agg_mean, agg_median.
    rewrite dropna_all_nan; [reflexivity|].
    intros r' Hr'. unfold group_rows in Hr'. apply filter_In in Hr'.
    destruct Hr' as [Hin Hk]. apply key_eqb_eq in Hk. now apply Hnan.
  - apply In_group_keys. now exists r.
Qed.

Lemma X14_witness :
  In (mkSummary [Some (lit "B")] 0 (of_Z 0) nan nan)
     (agg_summary Cases.silent_agent_frame [Caller]).
Proof.
  apply (X14_group_without_durations_has_an_empty_line
           Cases.silent_agent_frame [Caller] Cases.silent_call).
  - right. left. reflexivity.
  - intros r' [<-|[<-|[]]] E; [vm_compute in E; discriminate | reflexivity].
Defined.

Lemma In_present df col s :
  In s (present df col) <-> exists r, In r (rows df) /\ get r col = Some s.
Proof.
  unfold present. rewrite in_flat_map.
  split; intros (r & Hr & H); exists r; split; try assumption.
  - destruct (get r col) as [t|]; [|contradiction].
    destruct H as [->|[]]. reflexivity.
  - rewrite H. now left.
Qed.

Lemma NoDup_singletons (l : list str) :
  NoDup l -> NoDup (map (fun s => [Some s]) l).
Proof.
  induction 1 as [|s l Hs Hl IH]; simpl; constructor; [|exact IH].
  rewrite in_map_iff. intros (t & E & Ht). injection E as ->.
  contradiction.
Qed.

(** X15. The agent-wise table has one line per agent counted by the KPI
    "Agents", and one line more when some call that reaches the tables
    has no agent: the KPI leaves the missing agent out, the table does
    not. *)
Theorem X15_agent_lines_are_the_agents_plus_the_missing_one
        (sb : Sidebar) (df : Frame) (tbl : list Summary) :
  agent_wise sb df = Some tbl ->
  Z.of_nat (List.length tbl)
  = kpi_agents sb df
    + (if existsb (fun r => cell_isna (get r Caller)) (rows (df_view sb df))
       then 1 else 0).
Proof.
  unfold agent_wise, kpi_agents.
  destruct (has_column (df_view sb df) Caller); [|discriminate].
  intros [= <-]. set (v := df_view sb df).
  set (names := unique str_eqb (present v Caller)).
  set (gap := if existsb (fun r => cell_isna (get r Caller)) (rows v)
              then [[None]] else @nil Key).
  assert (Hp : Permutation (group_keys [Caller] (rows v))
                           (map (fun s => [Some s]) names ++ gap)).
  { apply NoDup_Permutation.
    - apply NoDup_group_keys.
    - apply NoDup_app.
      + apply NoDup_singletons, (NoDup_unique _ _ str_eqb_eq).
      + unfold gap. destruct (existsb _ _); repeat constructor. intros [].
      + intros k Hk Hg. apply in_map_iff in Hk. destruct Hk as (s & <- & _).
        unfold gap in Hg. destruct (existsb _ _); [|contradiction].
        destruct Hg as [Hg|[]]. discriminate.
    - intro k. rewrite In_group_keys, in_app_iff, in_map_iff. split.
      + intros (r & Hr & <-). unfold key_of. cbn [map].
        destruct (get r Caller) as [s|] eqn:E.
        * left. exists s. split; [reflexivity|].
          apply (In_unique _ _ str_eqb_eq), In_present. now exists r.
        * right. unfold gap.
          assert (Hx : existsb (fun r => cell_isna (get r Caller)) (rows v)
                       = true).
          { apply existsb_exists. exists r. split; [exact Hr|]. now rewrite E. }
          rewrite Hx. now left.
      + intros [(s & <- & Hs)|Hg].
        * apply (In_unique _ _ str_eqb_eq), In_present in Hs.
          destruct Hs as (r & Hr & E). exists r. split; [exact Hr|].
          unfold key_of. cbn [map]. now rewrite E.
        * unfold gap in Hg.
          destruct (existsb _ _) eqn:Hx; [|contradiction].
          destruct Hg as [<-|[]]. apply existsb_exists in Hx.
          destruct Hx as (r & Hr & E). exists r. split; [exact Hr|].
          unfold key_of. cbn [map].
          now destruct (get r Caller). }
  rewrite (Permutation_length (agg_summary_perm v [Caller])), length_map.
  rewrite (Permutation_length Hp), length_app, length_map.
  unfold gap, names. destruct (existsb _ _); simpl; lia.
Qed.

Lemma X15_witness :
  Z.of_nat (List.length
              (agg_summary (df_view Samples.all_calls_sidebar
                                    Samples.team_frame) [Caller]))
  = kpi_agents Samples.all_calls_sidebar Samples.team_frame
    + (if existsb (fun r => cell_isna (get r Caller))
                  (rows (df_view Samples.all_calls_sidebar
                                 Samples.team_frame))
       then 1 else 0).
Proof.
  apply X15_agent_lines_are_the_agents_plus_the_missing_one.
  reflexivity.
Defined.

End TableFacts.

(** ** The threshold and the first page *)

Module ThresholdFacts.
Import Py PyFloat StrFacts PandasFacts FilterFacts Filters GroupFacts
       AggregationFacts Page PipelineFacts OrderFacts.

Lemma slider_checked :
  forallb (fun t =>
    forallb (fun t' => implb (t <=? t') (leb (of_Z t) (of_Z t')))
            slider_values) slider_values = true.
Proof. vm_compute. reflexivity. Qed.

Lemma slider_in_order t t' :
  In t slider_values -> In t' slider_values -> t <= t' ->
  leb (of_Z t) (of_Z t') = true.
Proof.
  intros Ht Ht' Hle. pose proof slider_checked as H.
  rewrite forallb_forall in H. specialize (H t Ht).
  rewrite forallb_forall in H. specialize (H t' Ht').
  apply Z.leb_le in Hle. now rewrite Hle in H.
Qed.

Lemma df_f_set_mode m t sb df : df_f (set_mode m t sb) df = df_f sb df.
Proof. reflexivity. Qed.

Lemma length_filter_impl {A : Type} (p q : A -> bool) (xs : list A) :
  (forall x, p x = true -> q x = true) ->
  (List.length (filter p xs) <= List.length (filter q xs))%nat.
Proof.
  intro H. induction xs as [|x r IH]; simpl; [lia|].
  destruct (p x) eqn:E.
  - rewrite (H x E). simpl. lia.
  - destruct (q x); simpl; lia.
Qed.

(** X16. Raising the threshold of the mode "Only calls with duration >=
    threshold" never brings a call back: for two values of the slider,
    the calls kept under the higher one are kept under the lower one, and
    the KPI "Total Calls" does not increase. *)
Theorem X16_raising_the_threshold_only_removes_calls
        (sb : Sidebar) (df : Frame) (t t' : Z) :
  In t slider_values -> In t' slider_values -> t <= t' ->
  let low := set_mode Only_calls_with_duration_ge_threshold t sb in
  let high := set_mode Only_calls_with_duration_ge_threshold t' sb in
  (forall r, In r (rows (df_view high df)) -> In r (rows (df_view low df)))
  /\ kpi_total_calls high df <= kpi_total_calls low df.
Proof.
  intros Ht Ht' Hle low high.
  assert (Hk : forall r, mode_keeps high r = true -> mode_keeps low r = true).
  { intros r. unfold mode_keeps. cbn. unfold geb. intro H.
    apply leb_trans with (of_Z t'); [|exact H].
    now apply slider_in_order. }
  split.
  - intros r. rewrite !rows_df_view, !filter_In.
    unfold low, high. rewrite !df_f_set_mode. intros [H1 H2].
    split; [exact H1 | now apply Hk].
  - unfold kpi_total_calls, nrows. rewrite !rows_df_view.
    unfold low, high. rewrite !df_f_set_mode.
    apply inj_le. now apply length_filter_impl.
Qed.

Lemma X16_witness :
  let low := set_mode Only_calls_with_duration_ge_threshold 60
                      Samples.all_calls_sidebar in
  let high := set_mode Only_calls_with_duration_ge_threshold 120
                       Samples.all_calls_sidebar in
  (forall r, In r (rows (df_view high Samples.team_frame)) ->
             In r (rows (df_view low Samples.team_frame)))
  /\ kpi_total_calls high Samples.team_frame
     <= kpi_total_calls low Samples.team_frame.
Proof.
  apply (X16_raising_the_threshold_only_removes_calls
           Samples.all_calls_sidebar Samples.team_frame 60 120).
  - vm_compute. tauto.
  - vm_compute. tauto.
  - lia.
Defined.

(** X17. The page as it first shows, with the sidebar untouched ("All
    agents", "All calls", the period "Today", missing values included,
    every option of the four pickers selected), lists exactly the calls
    dated today. *)
Theorem X17_the_first_page_shows_the_calls_of_today
        (today : Date) (df : Frame) :
  df_view (initial_sidebar today df) df = filter_by_date df today today.
Proof.
  apply frame_ext; [now rewrite columns_df_view|].
  rewrite rows_df_view_all.
  change (rows (filter_by_date df today today))
    with (rows (df_dated (initial_sidebar today df) df)).
  rewrite rows_df_dated. apply filter_ext_in. intros r Hr.
  unfold view_keeps, f_keeps, later_keeps, team_keeps, mode_keeps.
  cbn [team_mode add_mt include_missing mode initial_sidebar sel_agents
       sel_countries sel_types sel_status orb andb].
  rewrite !default_keeps by assumption. now rewrite !andb_true_r.
Qed.

End ThresholdFacts.

(** ** Rosters *)

Module RosterFacts.
Import Py PyFloat StrFacts NameFacts.
Import Names.

Lemma contains_refl t : contains t t = true.
Proof. apply contains_substring. exists [], []. now rewrite app_nil_r. Qed.

Lemma fuzzy_match_any_spec name ts :
  fuzzy_match_any name ts = true
  <-> norm_name name <> []
      /\ exists t, In t ts /\ Spec.entry_matches (norm_name name) t.
Proof.
  unfold fuzzy_match_any. destruct (is_empty (norm_name name)) eqn:E.
  - apply is_empty_nil in E. split; [discriminate | now intros [H _]].
  - apply is_empty_false in E. rewrite match_targets_spec. tauto.
Qed.

(** X18. Membership in a roster depends on the entries of the roster
    only, not on their order or on repetitions, and a longer roster has
    more members: whoever matches a roster matches every roster that
    holds its entries. An entry is a member of its own roster as soon as
    its normal form is not empty. *)
Theorem X18_a_larger_roster_has_more_members
        (name : cell) (roster roster' : list str) :
  (incl roster roster' ->
   is_member name roster = true -> is_member name roster' = true)
  /\ (forall entry, In entry roster -> norm_name (Some entry) <> [] ->
                    is_member (Some entry) roster = true).
Proof.
  split.
  - intros Hincl. unfold is_member. rewrite !fuzzy_match_any_spec.
    intros (Hn & t & Ht & Hm). split; [exact Hn|]. exists t.
    split; [|exact Hm]. apply in_map_iff in Ht.
    destruct Ht as (e & <- & He). apply in_map_iff. exists e.
    split; [reflexivity | now apply Hincl].
  - intros entry Hin Hne. unfold is_member. apply fuzzy_match_any_spec.
    split; [exact Hne|]. exists (norm_name (Some entry)). split.
    + apply in_map_iff. now exists entry.
    + split; [exact Hne|]. left. exists [], []. now rewrite app_nil_r.
Qed.

Lemma X18_witness :
  is_member (Some (lit "Ria Arora")) B2C_TARGETS_RAW = true.
Proof.
  apply (proj1 (X18_a_larger_roster_has_more_members
                  (Some (lit "Ria Arora")) [lit "Ria Arora"]
                  B2C_TARGETS_RAW)).
  - intros e [<-|[]]. right. left. reflexivity.
  - vm_compute. reflexivity.
Defined.

End RosterFacts.

(** ** [norm_name] returns a normal form *)

Module NormFacts.
Import Py PyFloat StrFacts NameFacts ParserFacts.
Import Names NormalForm.

Lemma lower_chr_not_upper c : isupper (lower_chr c) = false.
Proof.
  destruct c as [[] [] [] [] [] [] [] []]; vm_compute; reflexivity.
Qed.

Lemma alnum_not_space c : isalnum c = true -> isspace c = false.
Proof.
  destruct c as [[] [] [] [] [] [] [] []]; vm_compute; intro H;
    try reflexivity; discriminate.
Qed.

Lemma In_keep c s :
  In c (keep_alnum_space s) ->
  c = " "%char \/ (In c s /\ isalnum c = true).
Proof.
  induction s as [|x r IH]; simpl; [tauto|].
  destruct (isalnum x) eqn:E.
  - intros [<-|H]; [right; split; [now left | exact E]|].
    destruct (IH H) as [->|[H1 H2]]; [now left | right; split; tauto].
  - destruct (isspace x).
    + intros [<-|H]; [now left|].
      destruct (IH H) as [->|[H1 H2]]; [now left | right; split; tauto].
    + intro H.
      destruct (IH H) as [->|[H1 H2]]; [now left | right; split; tauto].
Qed.

Lemma split_go_chars s : forall cur tok c,
  In tok (split_go cur s) -> In c tok ->
  In c cur \/ (In c s /\ isspace c = false).
Proof.
  induction s as [|x r IH]; intros cur tok c Ht Hc; simpl in Ht.
  - destruct cur as [|y cur]; [contradiction|].
    destruct Ht as [<-|[]]. left. now apply in_rev.
  - destruct (isspace x) eqn:E.
    + destruct cur as [|y cur].
      * destruct (IH [] tok c Ht Hc) as [[]|[H1 H2]]. right.
        split; [now right | exact H2].
      * destruct Ht as [<-|Ht]; [left; now apply in_rev|].
        destruct (IH [] tok c Ht Hc) as [[]|[H1 H2]]. right.
        split; [now right | exact H2].
    + destruct (IH (x :: cur) tok c Ht Hc) as [[<-|H]|[H1 H2]].
      * right. split; [now left | exact E].
      * now left.
      * right. split; [now right | exact H2].
Qed.

Lemma tokens_of_norm x :
  Forall token (split (keep_alnum_space (strip (lower x)))).
Proof.
  apply Forall_forall. intros tok Ht. split; [now apply (split_tokens _ _ Ht)|].
  apply Forall_forall. intros c Hc.
  destruct (split_go_chars _ [] tok c Ht Hc) as [[]|[H1 H2]].
  apply In_keep in H1. destruct H1 as [->|[H1 H3]]; [discriminate|].
  split; [exact H3|]. apply In_strip_inv in H1. unfold lower in H1.
  apply in_map_iff in H1. destruct H1 as (c0 & <- & _).
  apply lower_chr_not_upper.
Qed.

Lemma split_go_token tok : forall cur rest,
  Forall plain tok ->
  split_go cur (tok ++ rest) = split_go (rev tok ++ cur) rest.
Proof.
  induction tok as [|c r IH]; intros cur rest H; [reflexivity|].
  inversion H as [|c' r' [Hc _] Hr]; subst. simpl.
  rewrite (alnum_not_space c Hc), IH by assumption.
  now rewrite <- app_assoc.
Qed.

Lemma rev_not_nil (tok : str) : tok <> [] -> rev tok <> [].
Proof.
  intros H E. apply H. rewrite <- (rev_involutive tok), E. reflexivity.
Qed.

Lemma split_join toks :
  Forall token toks -> split (join (lit " ") toks) = toks.
Proof.
  unfold split. induction toks as [|tok rest IH]; intro H; [reflexivity|].
  inversion H as [|t r [Hne Hp] Hr]; subst.
  destruct rest as [|tok' rest'].
  - simpl. rewrite <- (app_nil_r tok) at 1.
    rewrite split_go_token by assumption. simpl. rewrite app_nil_r.
    pose proof (rev_not_nil tok Hne) as Hrev.
    destruct (rev tok) eqn:E; [contradiction|].
    now rewrite <- E, rev_involutive.
  - change (join (lit " ") (tok :: tok' :: rest'))
      with (tok ++ " "%char :: join (lit " ") (tok' :: rest')).
    rewrite split_go_token by assumption. rewrite app_nil_r.
    pose proof (rev_not_nil tok Hne) as Hrev.
    simpl split_go. destruct (rev tok) eqn:E; [contradiction|].
    rewrite <- E, rev_involutive. f_equal. now apply IH.
Qed.

Lemma join_chars toks c :
  Forall token toks -> In c (join (lit " ") toks) ->
  plain c \/ c = " "%char.
Proof.
  induction toks as [|tok rest IH]; intros H Hc; [contradiction|].
  inversion H as [|t r [Hne Hp] Hr]; subst.
  destruct rest as [|tok' rest'].
  - simpl in Hc. left. rewrite Forall_forall in Hp. now apply Hp.
  - change (join (lit " ") (tok :: tok' :: rest'))
      with (tok ++ " "%char :: join (lit " ") (tok' :: rest')) in Hc.
    apply in_app_or in Hc. destruct Hc as [Hc|[<-|Hc]].
    + left. rewrite Forall_forall in Hp. now apply Hp.
    + now right.
    + now apply IH.
Qed.

(** The joined tokens begin and end with a plain character. *)
Lemma join_ends toks :
  Forall token toks ->
  join (lit " ") toks = []
  \/ ((exists c s, join (lit " ") toks = c :: s /\ isspace c = false)
      /\ (exists s c, join (lit " ") toks = s ++ [c] /\ isspace c = false)).
Proof.
  induction toks as [|tok rest IH]; intro H; [now left|]. right.
  inversion H as [|t r [Hne Hp] Hr]; subst.
  assert (Hhead : exists c s, tok = c :: s /\ isspace c = false).
  { destruct tok as [|c s]; [contradiction|]. exists c, s.
    split; [reflexivity|]. inversion Hp as [|c' s' [Hc _] _]; subst.
    now apply alnum_not_space. }
  assert (Hlast : exists s c, tok = s ++ [c] /\ isspace c = false).
  { destruct (exists_last Hne) as (s & c & E). exists s, c.
    split; [exact E|]. rewrite Forall_forall in Hp.
    destruct (Hp c) as [Hc _]; [rewrite E; apply in_or_app; right; now left|].
    now apply alnum_not_space. }
  destruct rest as [|tok' rest']; [simpl; split; assumption|].
  change (join (lit " ") (tok :: tok' :: rest'))
    with (tok ++ " "%char :: join (lit " ") (tok' :: rest')).
  split.
  - destruct Hhead as (c & s & -> & Hc).
    now exists c, (s ++ " "%char :: join (lit " ") (tok' :: rest')).
  - destruct (IH Hr) as [E|[_ (s & c & E & Hc)]].
    + exfalso. inversion Hr as [|t r [Hne' _] _]; subst.
      destruct tok'; [contradiction|]. destruct rest'; discriminate.
    + exists (tok ++ " "%char :: s), c. split; [|exact Hc].
      rewrite E. now rewrite <- app_assoc.
Qed.

Lemma strip_join toks :
  Forall token toks -> strip (join (lit " ") toks) = join (lit " ") toks.
Proof.
  intro H.
  destruct (join_ends toks H)
    as [->|[(c & s & E & Hc) (s' & c' & E' & Hc')]]; [reflexivity|].
  unfold strip.
  assert (Hl : lstrip (join (lit " ") toks) = join (lit " ") toks).
  { rewrite E. simpl. now rewrite Hc. }
  rewrite Hl, E'. unfold rstrip. rewrite rev_app_distr. simpl.
  rewrite Hc'. simpl. now rewrite rev_involutive.
Qed.

Lemma lower_plain s :
  Forall (fun c => plain c \/ c = " "%char) s -> lower s = s.
Proof.
  induction 1 as [|c r Hc Hr IH]; [reflexivity|].
  simpl. rewrite IH. f_equal. unfold lower_chr.
  destruct Hc as [[_ Hc]| ->]; [now rewrite Hc | reflexivity].
Qed.

Lemma keep_plain s :
  Forall (fun c => plain c \/ c = " "%char) s -> keep_alnum_space s = s.
Proof.
  induction 1 as [|c r Hc Hr IH]; [reflexivity|].
  simpl. rewrite IH.
  destruct Hc as [[Hc _]| ->]; [now rewrite Hc | reflexivity].
Qed.

(** X19. [norm_name] returns a normal form: lower case, letters and
    digits in words separated by one space, no blank at either end; and
    normalising twice is normalising once. *)
Theorem X19_norm_name_is_idempotent (x : cell) :
  let n := norm_name x in
  lower n = n
  /\ strip n = n
  /\ keep_alnum_space n = n
  /\ join (lit " ") (split n) = n
  /\ norm_name (Some n) = n.
Proof.
  destruct x as [s|]; [|now repeat split].
  cbn zeta. unfold norm_name.
  set (toks := split (keep_alnum_space (strip (lower s)))).
  pose proof (tokens_of_norm s) as Ht. fold toks in Ht.
  assert (Hc : Forall (fun c => plain c \/ c = " "%char)
                      (join (lit " ") toks)).
  { apply Forall_forall. intros c. now apply join_chars. }
  assert (H1 := lower_plain _ Hc). assert (H2 := strip_join _ Ht).
  assert (H3 := keep_plain _ Hc). assert (H4 := split_join _ Ht).
  split; [exact H1|]. split; [exact H2|]. split; [exact H3|].
  split; [now rewrite H4|]. now rewrite H1, H2, H3, H4.
Qed.

End NormFacts.

(** ** Resolved columns are headers *)

Module HeaderFacts.
Import Py PyFloat StrFacts PandasFacts ColumnFacts GroupFacts.
Import App_v1.

Lemma first_exact_sound columns candidates c :
  first_exact columns candidates = Some c ->
  In c columns /\ In c candidates.
Proof.
  induction candidates as [|a r IH]; simpl; [discriminate|].
  destruct (mem a columns) eqn:E.
  - intros [= <-]. apply mem_In in E. split; [exact E | now left].
  - intro H. destruct (IH H). split; [assumption | now right].
Qed.

Lemma first_lower_sound d candidates h :
  first_lower d candidates = Some h ->
  exists a, In a candidates /\ sdict_get d (lower a) = Some h.
Proof.
  induction candidates as [|a r IH]; simpl; [discriminate|].
  destruct (sdict_get d (lower a)) as [col|] eqn:E.
  - intros [= <-]. exists a. split; [now left | exact E].
  - intro H. destruct (IH H) as (b & Hb & Hg). exists b.
    split; [now right | exact Hg].
Qed.

(** X20. A role that resolves through the aliases resolves to a column
    of the uploaded table, equal to one of the aliases up to case; and it
    fails to resolve only when no column equals an alias up to case. *)
Theorem X20_a_resolved_column_is_a_header
        (header aliases : list str) :
  (forall h, _coalesce_column header aliases = Some h ->
             In h header
             /\ exists a, In a aliases /\ Spec.same_lower h a)
  /\ (_coalesce_column header aliases = None <->
      forall a h, In a aliases -> In h header -> ~ Spec.same_lower h a).
Proof.
  split.
  - intros h. unfold _coalesce_column.
    destruct (first_exact header aliases) as [c|] eqn:E.
    + intros [= <-]. apply first_exact_sound in E. destruct E as [H1 H2].
      split; [exact H1|]. exists c. split; [exact H2 | reflexivity].
    + intro H. apply first_lower_sound in H. destruct H as (a & Ha & Hg).
      apply lower_dict_get in Hg. destruct Hg as [Hin Hl].
      split; [exact Hin|]. now exists a.
  - split.
    + intros Hnone a h Ha Hh Hs. unfold _coalesce_column in Hnone.
      destruct (first_exact header aliases) eqn:E; [discriminate|].
      assert (Hd : sdict_get (lower_dict header) (lower a) = None).
      { clear E. induction aliases as [|b r IH]; [contradiction|].
        simpl in Hnone.
        destruct (sdict_get (lower_dict header) (lower b)) eqn:Eb;
          [discriminate|].
        destruct Ha as [->|Ha]; [exact Eb | now apply IH]. }
      exact (lower_dict_complete header [] (lower a) h Hh Hs Hd).
    + intro Hno. unfold _coalesce_column.
      rewrite first_exact_none.
      2:{ intros x Hx Hin. exact (Hno x x Hx Hin eq_refl). }
      rewrite <- (app_nil_r aliases).
      rewrite first_lower_skip; [reflexivity|].
      intros x Hx. apply lower_dict_none. intros h Hh. exact (Hno x h Hx Hh).
Qed.

Lemma X20_witness :
  In (lit "owner") [lit "Notes"; lit "owner"]
  /\ exists a, In a agent_aliases /\ Spec.same_lower (lit "owner") a.
Proof.
  apply (proj1 (X20_a_resolved_column_is_a_header
                  [lit "Notes"; lit "owner"] agent_aliases)).
  vm_compute. reflexivity.
Defined.

Lemma lower_dict_untouched cols : forall d q,
  (forall h, In h cols -> lower h <> q) ->
  sdict_get (fold_left add_lower cols d) q = sdict_get d q.
Proof.
  induction cols as [|c r IH]; intros d q H; [reflexivity|].
  simpl. rewrite IH by (intros h Hh; apply H; now right).
  unfold add_lower. rewrite sdict_get_set.
  destruct (str_eqb q (lower c)) eqn:E; [|reflexivity].
  apply str_eqb_eq in E. exfalso. apply (H c); [now left | now symmetry].
Qed.

Lemma lower_dict_last pre h post :
  (forall h', In h' post -> lower h' <> lower h) ->
  sdict_get (lower_dict (pre ++ h :: post)) (lower h) = Some h.
Proof.
  intro H. unfold lower_dict.
  change (fun d c => sdict_set d (lower c) c) with add_lower.
  rewrite fold_left_app. simpl.
  rewrite lower_dict_untouched by exact H.
  unfold add_lower. now rewrite sdict_get_set, str_eqb_refl.
Qed.

(** X21. When two columns differ only by case, the case-insensitive pass
    takes the one that comes last in the table: with no alias spelled
    exactly as a column, the role resolves to the last column equal up to
    case to the first alias that has such a column. *)
Theorem X21_the_last_of_two_columns_equal_up_to_case_wins
        (header aliases apre apost hpre hpost : list str) (c h : str) :
  (forall x, In x aliases -> ~ In x header) ->
  aliases = apre ++ c :: apost ->
  (forall x h', In x apre -> In h' header -> ~ Spec.same_lower h' x) ->
  header = hpre ++ h :: hpost ->
  Spec.same_lower h c ->
  (forall h', In h' hpost -> ~ Spec.same_lower h' c) ->
  _coalesce_column header aliases = Some h.
Proof.
  intros Hex -> Hpre -> Hs Hpost. unfold _coalesce_column.
  rewrite (first_exact_none _ _ Hex), first_lower_skip.
  2:{ intros x Hx. apply lower_dict_none. intros h' Hh'.
      exact (Hpre x h' Hx Hh'). }
  simpl. unfold Spec.same_lower in Hs. rewrite <- Hs.
  rewrite lower_dict_last; [reflexivity|].
  intros h' Hh' E. apply (Hpost h' Hh'). unfold Spec.same_lower. congruence.
Qed.

Lemma X21_witness :
  _coalesce_column [lit "agent"; lit "AGENT"; lit "Notes"] agent_aliases
  = Some (lit "AGENT").
Proof.
  apply (X21_the_last_of_two_columns_equal_up_to_case_wins
           [lit "agent"; lit "AGENT"; lit "Notes"] agent_aliases
           [lit "Owner"] (skipn 2 agent_aliases)
           [lit "agent"] [lit "Notes"] (lit "Agent") (lit "AGENT")).
  - intros x Hx Hin. vm_compute in Hx, Hin.
    repeat (destruct Hx as [<- | Hx];
            [now repeat destruct Hin as [Hin | Hin] |]).
    exact Hx.
  - reflexivity.
  - intros x h' [<-|[]] Hh' E. vm_compute in Hh', E.
    repeat (destruct Hh' as [<- | Hh']; [discriminate E|]). exact Hh'.
  - reflexivity.
  - reflexivity.
  - intros h' [<-|[]] E. vm_compute in E. discriminate E.
Defined.

End HeaderFacts.

(** ** Selections in v1, v2 and v3 *)

Module SelectionFacts.
Import Py PyFloat StrFacts PandasFacts GroupFacts AttemptsFacts Page.

Lemma rows_apply_selection df col sel :
  sel <> [] ->
  rows (App_v2.apply_selection df col (Some sel))
  = filter (fun r => mem (astype_str (get r col)) sel) (rows df).
Proof.
  intro H. unfold App_v2.apply_selection.
  destruct sel as [|x l]; [contradiction|]. simpl Nat.ltb. cbv iota.
  apply rows_loc_map.
Qed.

Lemma NoDup_options df col : NoDup (options df col).
Proof.
  unfold options. apply NoDup_sort_by, (NoDup_unique _ _ str_eqb_eq).
Qed.

Lemma nth_not_in_firstn {A : Type} (l : list A) (n : nat) (d : A) :
  NoDup l -> (n < List.length l)%nat -> ~ In (nth n l d) (firstn n l).
Proof.
  revert n. induction l as [|x r IH]; intros n Hn Hlen; [simpl in Hlen; lia|].
  inversion Hn as [|x' r' Hx Hr]; subst.
  destruct n as [|n]; [intros []|]. simpl. intros [E|H].
  - apply Hx. rewrite E. apply nth_In. simpl in Hlen. lia.
  - apply (IH n Hr); [simpl in Hlen; lia | exact H].
Qed.

(** X22. In v2 a picker left as it is selects the first ten options
    only (in v3 the agent and the country picker do the same): of the
    frame [d] left by the date filter, the calls shown are those whose
    value, written as text, is one of the first ten of the table in
    sorted order; a call without a value is written "nan", so it is
    hidden unless the text "nan" is itself one of these ten; and as soon
    as the column holds more than ten values some value has every call
    hidden. *)
Theorem X22_v2_untouched_picker_shows_ten_values_only
        (df d : Frame) (col : str) (sel : list str) :
  default_first_ten df col = Some sel ->
  options df col <> [] ->
  (forall r, In r (rows (App_v2.apply_selection d col (Some sel))) <->
             In r (rows d)
             /\ In (astype_str (get r col)) (firstn 10 (options df col)))
  /\ (forall r, In r (rows d) -> get r col = None ->
                (In r (rows (App_v2.apply_selection d col (Some sel))) <->
                 In (lit "nan") (firstn 10 (options df col))))
  /\ ((10 < List.length (options df col))%nat ->
      exists a, In a (options df col)
                /\ forall r, get r col = Some a ->
                     ~ In r (rows (App_v2.apply_selection d col (Some sel)))).
Proof.
  unfold default_first_ten. destruct (has_column df col); [|discriminate].
  intros [= <-] Hne.
  assert (Hsel : firstn 10 (options df col) <> []).
  { destruct (options df col); [contradiction | discriminate]. }
  split; [|split].
  - intros r. rewrite rows_apply_selection by exact Hsel.
    rewrite filter_In, mem_In. tauto.
  - intros r Hin Hr. rewrite rows_apply_selection by exact Hsel.
    rewrite filter_In, mem_In, Hr. cbn [astype_str]. tauto.
  - intros Hlen. exists (nth 10 (options df col) []). split.
    + apply nth_In. lia.
    + intros r Hr. rewrite rows_apply_selection by exact Hsel.
      rewrite filter_In, Hr. cbn [astype_str]. intros [_ H].
      apply mem_In in H.
      exact (nth_not_in_firstn _ 10 [] (NoDup_options df col) Hlen H).
Qed.

Lemma X22_witness :
  exists a, In a (options Cases.eleven_agents App_v3_6.Caller)
            /\ forall r, get r App_v3_6.Caller = Some a ->
                 ~ In r (rows (App_v2.apply_selection Cases.eleven_agents
                                 App_v3_6.Caller
                                 (default_first_ten Cases.eleven_agents
                                                    App_v3_6.Caller))).
Proof.
  apply (proj2 (proj2 (X22_v2_untouched_picker_shows_ten_values_only
                  Cases.eleven_agents Cases.eleven_agents App_v3_6.Caller
                  _ eq_refl ltac:(vm_compute; discriminate)))).
  vm_compute. lia.
Defined.

Lemma rows_isin_empty d col :
  rows (App_v1.isin_filter d (Some (col, []))) = [].
Proof.
  unfold App_v1.isin_filter. rewrite rows_loc_map.
  induction (rows d) as [|r rs IH]; [reflexivity | exact IH].
Qed.

Lemma rows_isin_of_empty d f :
  rows d = [] -> rows (App_v1.isin_filter d f) = [].
Proof.
  intro H. unfold App_v1.isin_filter. destruct f as [[col sel]|]; [|exact H].
  rewrite rows_loc_map, H. reflexivity.
Qed.

(** X23. In v1 an empty selection is a filter that nothing passes: with
    no agent (or no country) selected the page has no call left, in the
    frame of the attempts table and in the frame of the counting rule
    alike. *)
Theorem X23_v1_an_empty_selection_empties_the_page
        (sb : App_v1.Sidebar) (df : Frame) (col : str) :
  App_v1.agents sb = Some (col, []) \/ App_v1.countries sb = Some (col, []) ->
  rows (App_v1.df_f sb df) = []
  /\ rows (App_v1.df_rules sb df) = []
  /\ forall tbl, App_v1.attempts sb df = Some tbl -> tbl = [].
Proof.
  intro H.
  assert (Hf : rows (App_v1.df_f sb df) = []).
  { unfold App_v1.df_f. destruct H as [H|H]; rewrite H.
    - apply rows_isin_of_empty, rows_isin_empty.
    - apply rows_isin_empty. }
  split; [exact Hf|]. split.
  - unfold App_v1.df_rules.
    destruct (App_v1.mode sb); [|exact Hf].
    destruct (App_v1.has_duration_col sb); [|exact Hf].
    now rewrite rows_loc_map, Hf.
  - unfold App_v1.attempts. destruct (App_v1.has_start_col sb); [|discriminate].
    intros tbl [= <-]. now rewrite Hf.
Qed.

Lemma X23_witness :
  rows (App_v1.df_f (App_v1.mkSidebar App_v1.Overall 60 true true None
                       (Some (App_v3_6.Caller, [])) None)
                    Samples.team_frame) = [].
Proof.
  apply (X23_v1_an_empty_selection_empties_the_page
           (App_v1.mkSidebar App_v1.Overall 60 true true None
              (Some (App_v3_6.Caller, [])) None)
           Samples.team_frame App_v3_6.Caller).
  left. reflexivity.
Defined.

(** X24. Where "include missing" does not exist (v1, v2, v3), a call
    whose value is missing passes a selection only if the text "nan" is
    one of the selected values: the missing value is compared as the text
    "nan". *)
Theorem X24_without_include_missing_a_selection_drops_missing_values
        (df : Frame) (col : str) (sel : list str) (r : Row) :
  get r col = None -> sel <> [] ->
  (In r (rows (App_v2.apply_selection df col (Some sel)))
   <-> In r (rows df) /\ In (lit "nan") sel)
  /\ (In r (rows (App_v1.isin_filter df (Some (col, sel))))
      <-> In r (rows df) /\ In (lit "nan") sel).
Proof.
  intros Hr Hne. rewrite rows_apply_selection by exact Hne.
  unfold App_v1.isin_filter. rewrite rows_loc_map, !filter_In, Hr, mem_In.
  cbn [astype_str]. tauto.
Qed.

Lemma X24_witness :
  In Samples.unattributed
     (rows (App_v2.apply_selection Samples.team_frame App_v3_6.Caller
                                   (Some [lit "Bob"])))
  <-> In Samples.unattributed (rows Samples.team_frame)
      /\ In (lit "nan") [lit "Bob"].
Proof.
  apply (proj1 (X24_without_include_missing_a_selection_drops_missing_values
                  Samples.team_frame App_v3_6.Caller [lit "Bob"]
                  Samples.unattributed eq_refl ltac:(discriminate))).
Defined.

End SelectionFacts.

(** ** Periods *)

Module PeriodFacts.
Import Py PyFloat StrFacts PandasFacts FilterFacts Filters Page Period.
Import DateWindow.

Lemma date_leb_trans a b c :
  date_leb a b = true -> date_leb b c = true -> date_leb a c = true.
Proof.
  unfold date_leb.
  rewrite !orb_true_iff, !andb_true_iff, !orb_true_iff, !andb_true_iff,
          !Z.ltb_lt, !Z.eqb_eq, !Z.leb_le.
  lia.
Qed.

(** X25. Under the period "Custom" of v3.6, the date filter is applied
    only when the picker holds exactly two dates: with no date, one date
    or any other tuple the page shows the calls of every date. With two
    dates in the wrong order no call passes. *)
Theorem X25_custom_period_needs_two_dates_in_order
        (sb : App_v3_6.Sidebar) (df : Frame) (today yday : Date)
        (picked : Picked) :
  App_v3_6.bounds sb = date_preset_bounds today yday Custom picked ->
  ((forall s e, picked <> Tuple [s; e]) -> App_v3_6.df_dated sb df = df)
  /\ (forall s e, picked = Tuple [s; e] -> date_leb s e = false ->
                  rows (App_v3_6.df_view sb df) = []).
Proof.
  intro Hb. split.
  - intro Hp. unfold App_v3_6.df_dated. rewrite Hb. simpl.
    destruct picked as [|d|[|s [|e [|x l]]]]; try reflexivity.
    now destruct (Hp s e).
  - intros s e -> Hse. simpl in Hb.
    destruct (rows (App_v3_6.df_view sb df)) as [|r rs] eqn:E; [reflexivity|].
    assert (Hr : In r (rows (App_v3_6.df_view sb df))) by (rewrite E; now left).
    rewrite rows_df_view, filter_In, rows_df_f, filter_In, rows_df_agents,
      filter_In in Hr.
    destruct Hr as [[[Hr _] _] _].
    unfold App_v3_6.df_dated in Hr. rewrite Hb in Hr.
    unfold App_v3_6.filter_by_date, App_v3_6.date_mask in Hr.
    rewrite rows_loc_map, filter_In in Hr. destruct Hr as [_ Hr].
    destruct (_date_only r) as [d|]; [|discriminate].
    apply andb_true_iff in Hr. destruct Hr as [H1 H2].
    rewrite (date_leb_trans _ _ _ H1 H2) in Hse. discriminate.
Qed.

Lemma X25_witness :
  App_v3_6.df_dated Samples.all_calls_sidebar Samples.team_frame
  = Samples.team_frame.
Proof.
  apply (proj1 (X25_custom_period_needs_two_dates_in_order
                  Samples.all_calls_sidebar Samples.team_frame
                  Samples.jan1 Samples.jan1 (One Samples.jan1) eq_refl)).
  intros s e. discriminate.
Defined.

Lemma rows_filt_date_preset today df preset cr :
  rows (filt_date_preset today df preset cr)
  = filter (fun r => match window today preset cr with
                     | Some w => in_window w r
                     | None => true
                     end) (rows df).
Proof.
  unfold filt_date_preset. destruct (window today preset cr) as [[s e]|].
  - rewrite series_and_map, rows_loc_map. apply filter_ext. intro r.
    unfold in_window. now destruct (_dt_local r).
  - now rewrite filter_all.
Qed.

Lemma In_df_windowed today df preset cr r :
  In r (rows (df_windowed today df preset cr)) <->
  In r (rows df)
  /\ exists t, _dt_local r = Some t
               /\ match window today preset cr with
                  | Some (s, e) => s <= t < e
                  | None => True
                  end.
Proof.
  unfold df_windowed. rewrite rows_filt_date_preset, filter_In.
  unfold dropna_dt. rewrite rows_loc_map, filter_In.
  destruct (window today preset cr) as [[s e]|]; unfold in_window;
    destruct (_dt_local r) as [t|]; cbn [fst snd]; split.
  - intros [[H _] H2]. split; [exact H|]. exists t. split; [reflexivity|].
    apply andb_true_iff in H2. rewrite Z.leb_le, Z.ltb_lt in H2. exact H2.
  - intros [H (t' & [= <-] & H2)]. split; [now split|].
    apply andb_true_iff. now rewrite Z.leb_le, Z.ltb_lt.
  - intros [[_ H] _]. discriminate.
  - intros [_ (t' & H & _)]. discriminate.
  - intros [[H _] _]. split; [exact H|]. now exists t.
  - intros [H _]. now split.
  - intros [[_ H] _]. discriminate.
  - intros [_ (t' & H & _)]. discriminate.
Qed.

(** X26. The periods of v2 are days of the reporting zone, closed at the
    start and open at the end: "Yesterday" and "Today" share no call, the
    custom range from yesterday to today holds the calls of the two and
    no other, and a call without an instant is in no period, the custom
    period without a range included. *)
Theorem X26_v2_periods_are_adjacent_days
        (today : Z) (df : Frame) (r : Row) :
  let yesterday := today - one_day in
  (In r (rows (df_windowed today df Custom (Some (yesterday, today))))
   <-> In r (rows (df_windowed today df Yesterday None))
       \/ In r (rows (df_windowed today df Today None)))
  /\ ~ (In r (rows (df_windowed today df Yesterday None))
        /\ In r (rows (df_windowed today df Today None)))
  /\ (forall preset custom_range,
        In r (rows (df_windowed today df preset custom_range)) ->
        _dt_local r <> None).
Proof.
  cbn zeta. rewrite !In_df_windowed. cbn [window]. unfold one_day.
  split; [|split].
  - split.
    + intros [H (t & Ht & H2)].
      destruct (Z_lt_ge_dec t today); [left|right];
        (split; [exact H|]; exists t; split; [exact Ht | lia]).
    + intros [[H (t & Ht & H2)]|[H (t & Ht & H2)]];
        (split; [exact H|]; exists t; split; [exact Ht | lia]).
  - intros [[_ (t & Ht & H2)] [_ (t' & Ht' & H2')]].
    rewrite Ht in Ht'. injection Ht' as <-. lia.
  - intros preset cr H. apply In_df_windowed in H.
    destruct H as [_ (t & Ht & _)]. now rewrite Ht.
Qed.

End PeriodFacts.

(** ** Load & Prepare *)

Module LoadFacts.
Import Py PyFloat StrFacts PandasFacts Page Duration.

Lemma lookup_set_same col v cs : lookup col (set_cell col v cs) = v.
Proof.
  induction cs as [|[c x] r IH]; simpl.
  - now rewrite str_eqb_refl.
  - destruct (str_eqb c col) eqn:E; simpl; rewrite E; [reflexivity | exact IH].
Qed.

Lemma lookup_set_other col v cs c :
  c <> col -> lookup c (set_cell col v cs) = lookup c cs.
Proof.
  intro H.
  assert (E : str_eqb col c = false).
  { destruct (str_eqb col c) eqn:E; [|reflexivity].
    apply str_eqb_eq in E. now subst. }
  induction cs as [|[k x] r IH]; simpl.
  - now rewrite E.
  - destruct (str_eqb k col) eqn:Ek; simpl.
    + apply str_eqb_eq in Ek. subst k. now rewrite E.
    + now rewrite IH.
Qed.

Lemma assign_rows_map col (f : Row -> cell) rs :
  assign_rows col rs (map f rs) = map (fun r => set_row col (f r) r) rs.
Proof. induction rs as [|r rs IH]; simpl; [reflexivity | now rewrite IH]. Qed.

Lemma rows_clean_column df col :
  rows (clean_column df col)
  = map (fun r => if has_column df col
                  then set_row col (clean_cell (get r col)) r else r)
        (rows df).
Proof.
  unfold clean_column. destruct (has_column df col).
  - unfold assign, clean_str_col, column. cbn [rows].
    rewrite map_map.
    apply (assign_rows_map col (fun r => clean_cell (get r col))).
  - now rewrite map_id.
Qed.

Lemma columns_clean_column df col : columns (clean_column df col) = columns df.
Proof.
  unfold clean_column. destruct (has_column df col) eqn:E; [|reflexivity].
  unfold assign. now rewrite E.
Qed.

(** What the cleaning of column [c] makes of the cell of column [col]. *)
Lemma column_clean_column df c col :
  column (clean_column df c) col
  = map (fun x => if str_eqb col c && has_column df c then clean_cell x else x)
        (column df col).
Proof.
  unfold column. rewrite rows_clean_column, !map_map. apply map_ext.
  intro r. destruct (has_column df c); [|now rewrite andb_false_r].
  rewrite andb_true_r. unfold get, set_row. cbn [cells].
  destruct (str_eqb col c) eqn:E.
  - apply str_eqb_eq in E. subst. apply lookup_set_same.
  - apply lookup_set_other. intros ->. now rewrite str_eqb_refl in E.
Qed.

Lemma clean_cell_idem x : clean_cell (clean_cell x) = clean_cell x.
Proof. destruct x as [s|]; simpl; [now rewrite strip_idem | reflexivity]. Qed.

Lemma column_clean_key_columns df col :
  column (clean_key_columns df) col = map (cleaned df col) (column df col).
Proof.
  unfold clean_key_columns, key_columns. cbn [map fold_left].
  rewrite !column_clean_column, !map_map.
  unfold has_column. rewrite !columns_clean_column.
  fold (has_column df (lit "Caller")) (has_column df (lit "Country Name"))
       (has_column df (lit "Call Type")) (has_column df (lit "Call Status")).
  apply map_ext. intro x. unfold cleaned, mem, key_columns.
  cbn [map existsb].
  destruct (str_eqb col (lit "Caller")) eqn:E1.
  { apply str_eqb_eq in E1. subst col. cbn [orb].
    destruct (has_column df (lit "Caller")); reflexivity. }
  destruct (str_eqb col (lit "Country Name")) eqn:E2.
  { apply str_eqb_eq in E2. subst col. cbn [orb andb].
    destruct (has_column df (lit "Country Name")); reflexivity. }
  destruct (str_eqb col (lit "Call Type")) eqn:E3.
  { apply str_eqb_eq in E3. subst col. cbn [orb andb].
    destruct (has_column df (lit "Call Type")); reflexivity. }
  destruct (str_eqb col (lit "Call Status")) eqn:E4.
  { apply str_eqb_eq in E4. subst col. cbn [orb andb].
    destruct (has_column df (lit "Call Status")); reflexivity. }
  reflexivity.
Qed.

Lemma derived_clean_column {A : Type} (f : Row -> A) df c :
  (forall col v r, f (set_row col v r) = f r) ->
  map f (rows (clean_column df c)) = map f (rows df).
Proof.
  intro Hf. rewrite rows_clean_column, map_map. apply map_ext. intro r.
  destruct (has_column df c); [apply Hf | reflexivity].
Qed.

Lemma derived_clean_key_columns {A : Type} (f : Row -> A) df :
  (forall col v r, f (set_row col v r) = f r) ->
  map f (rows (clean_key_columns df)) = map f (rows df).
Proof.
  intro Hf. unfold clean_key_columns, key_columns. cbn [map fold_left].
  now rewrite !derived_clean_column.
Qed.

Lemma columns_clean_key_columns df :
  columns (clean_key_columns df) = columns df.
Proof.
  unfold clean_key_columns, key_columns. cbn [map fold_left].
  now rewrite !columns_clean_column.
Qed.

Lemma cleaned_idem df col x :
  cleaned df col (cleaned df col x) = cleaned df col x.
Proof.
  unfold cleaned. destruct (mem col key_columns && has_column df col);
    [apply clean_cell_idem | reflexivity].
Qed.

(** X27. "Clean key columns" strips the text of the four key columns
    that the table has and touches nothing else: the header, the number
    of rows, the other columns and the derived fields stay as they are, a
    missing value stays missing, no text of a cleaned column begins or
    ends with a blank, and cleaning a second time changes no cell. *)
Theorem X27_cleaning_strips_the_key_columns_and_nothing_else (df : Frame) :
  columns (clean_key_columns df) = columns df
  /\ nrows (clean_key_columns df) = nrows df
  /\ (forall col,
        In col key_columns -> has_column df col = true ->
        column (clean_key_columns df) col = clean_str_col (column df col))
  /\ (forall col,
        ~ In col key_columns \/ has_column df col = false ->
        column (clean_key_columns df) col = column df col)
  /\ (forall col r s,
        In col key_columns -> has_column df col = true ->
        In r (rows (clean_key_columns df)) -> get r col = Some s ->
        strip s = s)
  /\ (forall col,
        column (clean_key_columns (clean_key_columns df)) col
        = column (clean_key_columns df) col)
  /\ map (fun r => (_duration_sec r, _date_only r, _dt_local r))
         (rows (clean_key_columns df))
     = map (fun r => (_duration_sec r, _date_only r, _dt_local r)) (rows df).
Proof.
  assert (Hkey : forall col, In col key_columns -> has_column df col = true ->
            column (clean_key_columns df) col = clean_str_col (column df col)).
  { intros col Hin Hhas. rewrite column_clean_key_columns.
    unfold clean_str_col. apply map_ext. intro x. unfold cleaned.
    apply mem_In in Hin. now rewrite Hin, Hhas. }
  split; [apply columns_clean_key_columns|]. split.
  { unfold nrows.
    rewrite <- (length_map (fun r => _duration_sec r)
                           (rows (clean_key_columns df))).
    rewrite derived_clean_key_columns by reflexivity. apply length_map. }
  split; [exact Hkey|]. split.
  { intros col H. rewrite column_clean_key_columns.
    rewrite <- (map_id (column df col)) at 2. apply map_ext. intro x.
    unfold cleaned. destruct H as [H|H].
    - apply mem_false in H. now rewrite H.
    - rewrite H. now rewrite andb_false_r. }
  split.
  { intros col r s Hin Hhas Hr Hs.
    assert (Hc : In (Some s) (column (clean_key_columns df) col)).
    { unfold column. apply in_map_iff. now exists r. }
    rewrite (Hkey col Hin Hhas) in Hc. unfold clean_str_col in Hc.
    apply in_map_iff in Hc. destruct Hc as ([t|] & E & _); [|discriminate].
    injection E as <-. apply strip_idem. }
  split.
  { intro col. rewrite (column_clean_key_columns (clean_key_columns df)).
    rewrite column_clean_key_columns, map_map. apply map_ext. intro x.
    unfold cleaned at 1. unfold has_column.
    rewrite columns_clean_key_columns.
    fold (has_column df col). fold (cleaned df col (cleaned df col x)).
    apply cleaned_idem. }
  now apply derived_clean_key_columns.
Qed.

Lemma X27_witness :
  column (clean_key_columns Cases.padded_frame) App_v3_6.Caller
  = clean_str_col (column Cases.padded_frame App_v3_6.Caller).
Proof.
  apply (proj1 (proj2 (proj2
           (X27_cleaning_strips_the_key_columns_and_nothing_else
              Cases.padded_frame)))).
  - left. reflexivity.
  - reflexivity.
Defined.

(** *** Load & Prepare *)

Lemma apply_to_seconds_some xs fs :
  App_v3_6.apply_to_seconds xs = Some fs <->
  Forall2 (fun x f => to_seconds x = Ret f) xs fs.
Proof.
  revert fs. induction xs as [|x r IH]; intros fs; simpl.
  - split; [intros [= <-]; constructor | intro H; now inversion H].
  - destruct (to_seconds x) as [f|] eqn:E.
    + destruct (App_v3_6.apply_to_seconds r) as [gs|] eqn:Er.
      * split.
        -- intros [= <-]. constructor; [exact E | now apply IH].
        -- intro H. inversion H as [|x' f' r' gs' Hx Hr]; subst.
           rewrite E in Hx. injection Hx as <-.
           apply IH in Hr. now injection Hr as <-.
      * split; [discriminate|]. intro H.
        inversion H as [|x' f' r' gs' Hx Hr]; subst.
        apply IH in Hr. discriminate.
    + split; [discriminate|]. intro H.
      inversion H as [|x' f' r' gs' Hx Hr]; subst. congruence.
Qed.

Lemma to_seconds_raises x :
  to_seconds x = OverflowError <->
  exists z, x = VInt z /\ float_of_int z = OverflowError.
Proof.
  unfold to_seconds. split.
  - destruct (isna x); [discriminate|].
    destruct x; try discriminate. intro H. now exists z.
  - intros (z & -> & H). exact H.
Qed.

(** X28. Reading the duration column fails in one case only: some cell
    holds an integer too large for a float. Otherwise the column has one
    duration per cell, the one [to_seconds] returns on that cell. *)
Theorem X28_load_fails_on_huge_integers_only (xs : list PyVal) :
  (App_v3_6.apply_to_seconds xs = None <->
   exists z, In (VInt z) xs /\ float_of_int z = OverflowError)
  /\ (forall fs, App_v3_6.apply_to_seconds xs = Some fs ->
                 List.length fs = List.length xs
                 /\ Forall2 (fun x f => to_seconds x = Ret f) xs fs).
Proof.
  split.
  - induction xs as [|x r IH]; simpl.
    + split; [discriminate | intros (z & [] & _)].
    + destruct (to_seconds x) as [f|] eqn:E.
      * destruct (App_v3_6.apply_to_seconds r) as [gs|].
        -- split; [discriminate|]. intros (z & [->|Hin] & Hz).
           ++ unfold to_seconds in E. simpl in E. congruence.
           ++ destruct IH as [_ IH]. discriminate IH. now exists z.
        -- split; [intros _ | reflexivity].
           destruct IH as [IH _]. destruct (IH eq_refl) as (z & Hin & Hz).
           exists z. split; [now right | exact Hz].
      * split; [intros _ | reflexivity].
        apply to_seconds_raises in E. destruct E as (z & -> & Hz).
        exists z. split; [now left | exact Hz].
  - intros fs H. apply apply_to_seconds_some in H.
    split; [symmetry; now apply (Forall2_length H) | exact H].
Qed.

Lemma X28_witness :
  App_v3_6.apply_to_seconds [VStr (lit "1:00"); VInt (10 ^ 400)] = None.
Proof.
  apply (proj2 (proj1 (X28_load_fails_on_huge_integers_only
                         [VStr (lit "1:00"); VInt (10 ^ 400)]))).
  exists (10 ^ 400). split; [right; left; reflexivity|].
  vm_compute. reflexivity.
Defined.

End LoadFacts.

(** ** The tables against each other, and the KPI cards *)

Module MatrixFacts.
Import Py PyFloat StrFacts PandasFacts GroupFacts AggregationFacts.
Import App_v3_6 Page PipelineFacts.

Lemma filter_perm {A : Type} (p : A -> bool) (l l' : list A) :
  Permutation l l' -> Permutation (filter p l) (filter p l').
Proof.
  induction 1 as [|x l l' H IH|x y l|l l' l'' H1 IH1 H2 IH2]; simpl.
  - constructor.
  - destruct (p x); [now constructor | exact IH].
  - destruct (p x), (p y); try apply Permutation_refl. apply perm_swap.
  - now apply perm_trans with (filter p l').
Qed.

(** The counts of a table by two columns add up to the counts of the
    table by the first column. *)
Lemma two_column_counts_add_up (df : Frame) (c1 c2 : str) (a : cell) :
  total_calls (lines_of a (agg_summary df [c1; c2]))
  = Total_Calls (summarize [c1] (rows df) [a]).
Proof.
  set (rs := rows df).
  set (P := fun r => has_duration r && cell_eqb (get r c1) a).
  assert (Hl : total_calls (lines_of a (agg_summary df [c1; c2]))
               = sumZ (group_count [c1; c2] P rs) (group_keys [c1; c2] rs)).
  { unfold lines_of.
    rewrite (total_calls_perm _ _
               (filter_perm _ _ _ (agg_summary_perm df [c1; c2]))).
    fold rs. induction (group_keys [c1; c2] rs) as [|k ks IH]; [reflexivity|].
    change (sumZ ?f (k :: ks)) with (f k + sumZ f ks). rewrite <- IH.
    cbn [map filter key summarize].
    assert (Hk : group_count [c1; c2] P rs k
                 = if key_eqb (firstn 1 k) [a]
                   then agg_count (map _duration_sec (group_rows [c1; c2] rs k))
                   else 0).
    { unfold group_count. rewrite agg_count_rows.
      destruct (key_eqb (firstn 1 k) [a]) eqn:E.
      - f_equal. f_equal. apply filter_ext_in. intros r Hr. unfold P.
        unfold group_rows in Hr. apply filter_In in Hr. destruct Hr as [_ Hr].
        apply key_eqb_eq in Hr. subst k. cbn in E.
        rewrite andb_true_r in E. rewrite E. apply andb_true_r.
      - replace (filter P (group_rows [c1; c2] rs k)) with (@nil Row);
          [reflexivity|].
        symmetry. apply filter_none. intros r Hr. unfold P.
        unfold group_rows in Hr. apply filter_In in Hr. destruct Hr as [_ Hr].
        apply key_eqb_eq in Hr. subst k. cbn in E.
        rewrite andb_true_r in E. rewrite E. apply andb_false_r. }
    rewrite Hk. destruct (key_eqb (firstn 1 k) [a]); reflexivity. }
  rewrite Hl, (groups_partition [c1; c2] P).
  - cbn [Total_Calls summarize]. rewrite agg_count_rows. unfold group_rows.
    rewrite filter_filter. f_equal. f_equal. apply filter_ext. intro r.
    unfold P, key_of. cbn [map key_eqb]. rewrite andb_true_r. apply andb_comm.
  - apply NoDup_group_keys.
  - intros r Hr. apply In_group_keys. now exists r.
Qed.

(** X29. The agent x country matrix is consistent with the agent-wise
    table: for every line of the agent-wise table (the line of the
    missing agent included) the "Total Calls" of the lines of that agent
    in the matrix add up to the "Total Calls" of the line. *)
Theorem X29_matrix_counts_add_up_to_the_agent_line
        (sb : Sidebar) (df : Frame) (matrix tbl : list Summary)
        (line : Summary) :
  agent_country sb df = Some matrix ->
  agent_wise sb df = Some tbl ->
  In line tbl ->
  total_calls (lines_of (hd None (key line)) matrix) = Total_Calls line.
Proof.
  unfold agent_country, agent_wise.
  destruct (has_column (df_view sb df) Caller); [|discriminate].
  destruct (has_column (df_view sb df) Country_Name); [|discriminate].
  intros [= <-] [= <-] Hl.
  apply (Permutation_in _ (agg_summary_perm _ _)) in Hl.
  apply in_map_iff in Hl. destruct Hl as (k & <- & Hk).
  apply In_group_keys in Hk. destruct Hk as (r & _ & <-).
  cbn [key summarize key_of map hd].
  apply two_column_counts_add_up.
Qed.

Lemma X29_witness :
  total_calls
    (lines_of (Some (lit "A"))
       (agg_summary (df_view Samples.all_calls_sidebar Cases.two_country_frame)
                    [Caller; Country_Name]))
  = 2.
Proof.
  apply (X29_matrix_counts_add_up_to_the_agent_line
           Samples.all_calls_sidebar Cases.two_country_frame _
           (agg_summary
              (df_view Samples.all_calls_sidebar Cases.two_country_frame)
              [Caller])
           (mkSummary [Some (lit "A")] 2 (of_Z 90) (of_Z 45) (of_Z 45))).
  - reflexivity.
  - reflexivity.
  - vm_compute. left. reflexivity.
Defined.



End MatrixFacts.
